(** * pyroute2.netlink.rtnl.ifinfmsg.compat

    A shallow embedding of the compatibility proxy for link messages
    ([compat.py]): the attribute enrichment stage, the four proxy entry
    points, the legacy executors and the [sync] decorator, together with
    the properties of the specification that are settled on them. *)

From Stdlib Require Import ZArith List String Ascii Bool Lia DecimalString.
Import ListNotations.
Local Open Scope string_scope.
Local Open Scope Z_scope.
Set Warnings "-register-all".

(** ** Python values and exceptions *)

(** Values carried by netlink attributes.  An [nla] object is a dict whose
    ['attrs'] key holds the ordered list of [[name, value]] pairs; the key
    can be missing, which the source tests with ['attrs' in msg].  [VDict]
    is an [nla] made of named integer fields, with no ['attrs'] key. *)
Inductive value : Type :=
| VInt (z : Z)
| VStr (s : string)
| VDict (fields : list (string * Z))
| VNla (attrs : option (list (string * value))).

Definition attr : Type := (string * value)%type.

(** The exceptions of the module and of what it calls; [StructError] is
    [struct.error], raised when a value cannot be packed. *)
Inductive exn : Type :=
| OSError (errno : Z)
| KeyError
| IndexError
| AttributeError
| TypeError
| UnicodeEncodeError
| ValueError (what : string)
| NetlinkError (code : Z) (what : string)
| CalledProcessError (returncode : Z)
| StructError.

(** [isinstance(e, OSError)]; [IOError] is the same class. *)
Definition is_OSError (e : exn) : bool :=
  match e with OSError _ => true | _ => false end.

Inductive result (A : Type) : Type :=
| Ok (a : A)
| Raise (e : exn).
Arguments Ok {A} a.
Arguments Raise {A} e.

Module Errno.
Definition ENOENT : Z := 2.
Definition EACCES : Z := 13.
Definition EOPNOTSUPP : Z := 95.
End Errno.

(** ** Strings the interpreter builds *)

Definition str_of_Z (z : Z) : string := NilZero.string_of_int (Z.to_int z).

Definition is_space (c : ascii) : bool :=
  let n := nat_of_ascii c in
  ((9 <=? n) && (n <=? 13) || (28 <=? n) && (n <=? 32)
   || (n =? 133) || (n =? 160))%nat.

Definition digit_of (c : ascii) : option Z :=
  let n := nat_of_ascii c in
  if ((48 <=? n) && (n <=? 57))%nat then Some (Z.of_nat (n - 48)) else None.

Fixpoint lstrip (s : string) : string :=
  match s with
  | String c r => if is_space c then lstrip r else s
  | EmptyString => EmptyString
  end.

Fixpoint rev_string (s acc : string) : string :=
  match s with
  | EmptyString => acc
  | String c r => rev_string r (String c acc)
  end.

Definition strip (s : string) : string :=
  rev_string (lstrip (rev_string (lstrip s) EmptyString)) EmptyString.

(** Decimal digits, where single underscores may separate digits. *)
Fixpoint int_digits (s : string) (acc : Z) (after_digit : bool) : option Z :=
  match s with
  | EmptyString => if after_digit then Some acc else None
  | String c r =>
      match digit_of c with
      | Some d => int_digits r (10 * acc + d) true
      | None =>
          if (Ascii.eqb c "_" && after_digit)%bool
          then int_digits r acc false
          else None
      end
  end.

(** [int(s)] for a text [s]: [None] stands for [ValueError]. *)
Definition py_int (s : string) : option Z :=
  match strip s with
  | String "-" r => option_map Z.opp (int_digits r 0 false)
  | String "+" r => int_digits r 0 false
  | r => int_digits r 0 false
  end.

(** [s.split()]: the maximal runs of non-blank characters. *)
Fixpoint split_ws (s : string) (cur : string) : list string :=
  match s with
  | EmptyString =>
      match cur with EmptyString => [] | _ => [rev_string cur EmptyString] end
  | String c r =>
      if is_space c
      then match cur with
           | EmptyString => split_ws r EmptyString
           | _ => rev_string cur EmptyString :: split_ws r EmptyString
           end
      else split_ws r (String c cur)
  end.

Definition py_split (s : string) : list string := split_ws s EmptyString.

Fixpoint join_with (sep : string) (l : list string) : string :=
  match l with
  | [] => ""
  | [x] => x
  | x :: r => x ++ sep ++ join_with sep r
  end.

Definition fields_repr (l : list (string * Z)) : string :=
  "{" ++ join_with ", "
           (map (fun kv => "'" ++ fst kv ++ "': " ++ str_of_Z (snd kv)) l)
      ++ "}".

(** ['%s' % v].  Numbers and texts are rendered as the interpreter does;
    for a dict the rendering is its [repr], written out for flat dicts
    and for attribute lists, whose pairs are tuples in a decoded
    message. *)
Fixpoint py_str (v : value) : string :=
  match v with
  | VInt z => str_of_Z z
  | VStr s => s
  | VDict l => fields_repr l
  | VNla None => "{}"
  | VNla (Some l) =>
      "{'attrs': ["
        ++ join_with ", "
             (map (fun kv => "('" ++ fst kv ++ "', " ++ py_str (snd kv) ++ ")") l)
        ++ "]}"
  end.

(** ['%s' % x] where [x] may be [None]. *)
Definition py_str_opt (o : option value) : string :=
  match o with
  | None => "None"
  | Some v => py_str v
  end.

Definition dquote_char : ascii := ascii_of_nat 34.
Definition backslash_char : ascii := ascii_of_nat 92.

Definition hex_digit (n : nat) : ascii :=
  nth n (list_ascii_of_string "0123456789abcdef") "0"%char.

Definition hex2 (n : nat) : string :=
  String (hex_digit (n / 16)) (String (hex_digit (n mod 16)) EmptyString).

Fixpoint string_flat_map (f : ascii -> string) (s : string) : string :=
  match s with
  | EmptyString => EmptyString
  | String c r => f c ++ string_flat_map f r
  end.

Fixpoint string_mem (c : ascii) (s : string) : bool :=
  match s with
  | EmptyString => false
  | String d r => (Ascii.eqb c d || string_mem c r)%bool
  end.

(** The characters that [repr] shows as they are; a character of a text
    stands for the code point of its number, below 256. *)
Definition repr_printable (n : nat) : bool :=
  ((32 <=? n) && (n <? 127) || (161 <=? n) && negb (n =? 173))%nat.

Definition repr_char (quote c : ascii) : string :=
  let n := nat_of_ascii c in
  if (Ascii.eqb c quote || Ascii.eqb c backslash_char)%bool
  then String backslash_char (String c EmptyString)
  else if (n =? 9)%nat then String backslash_char "t"
  else if (n =? 10)%nat then String backslash_char "n"
  else if (n =? 13)%nat then String backslash_char "r"
  else if repr_printable n then String c EmptyString
  else String backslash_char ("x" ++ hex2 n).

(** [repr(s)] of a text. *)
Definition py_repr (s : string) : string :=
  let quote :=
    if (string_mem "'" s && negb (string_mem dquote_char s))%bool
    then dquote_char else "'"%char in
  String quote (string_flat_map (repr_char quote) s ++ String quote EmptyString).

(** The message of the [ValueError] that [int(s)] raises: the literal is
    shown by the first 200 characters of its [repr]. *)
Definition int_error (s : string) : string :=
  "invalid literal for int() with base 10: " ++ substring 0 200 (py_repr s).

(** Truth value of an object in a condition. *)
Definition truthy (v : value) : bool :=
  match v with
  | VInt z => negb (z =? 0)
  | VStr s => negb (String.eqb s "")
  | VDict l => match l with [] => false | _ => true end
  | VNla None => false
  | VNla (Some _) => true
  end.

Definition value_is_str (v : option value) (s : string) : bool :=
  match v with
  | Some (VStr s') => String.eqb s' s
  | _ => false
  end.

(** ** Messages *)

(** A decoded message: the header type, the interface index, the event
    tag set by the marshal, the attribute list and the wire bytes it was
    decoded from ([msg.data]). *)
Record nlmsg : Type := {
  header_type : Z;
  index : Z;
  event : string;
  attrs : option (list attr);
  data : list Byte.byte
}.

Definition set_attrs (m : nlmsg) (a : option (list attr)) : nlmsg :=
  {| header_type := header_type m; index := index m; event := event m;
     attrs := a; data := data m |}.

Fixpoint lookup_attr (name : string) (l : list attr) : option value :=
  match l with
  | [] => None
  | (n, v) :: r => if String.eqb n name then Some v else lookup_attr name r
  end.

(** [nla.get_attr(name)]: the first attribute of that name, [None] when
    there is none or when the ['attrs'] key is missing. *)
Definition nla_get_attr (a : option (list attr)) (name : string) : option value :=
  match a with
  | None => None
  | Some l => lookup_attr name l
  end.

Definition get_attr (m : nlmsg) (name : string) : option value :=
  nla_get_attr (attrs m) name.

(** [x.get_attr(name)] on the result of another [get_attr]: a value that
    is not an [nla] (in particular [None]) has no such method. *)
Definition value_get_attr (v : option value) (name : string) : result (option value) :=
  match v with
  | Some (VNla a) => Ok (nla_get_attr a name)
  | Some (VDict _) => Ok None
  | _ => Raise AttributeError
  end.

(** Replace the value of the first attribute called [name]: the object
    returned by [get_attr] is the one stored in the list, so a change made
    through it is seen through the message. *)
Fixpoint update_first (name : string) (v' : value) (l : list attr) : list attr :=
  match l with
  | [] => []
  | (n, v) :: r =>
      if String.eqb n name then (n, v') :: r
      else (n, v) :: update_first name v' r
  end.

(** ** The capability gate *)

Record capabilities : Type := {
  provide_master : bool;
  create_bond : bool;
  create_bridge : bool
}.

(** ** Constants of the module *)

Definition RTM_NEWLINK : Z := 16.
Definition RTM_DELLINK : Z := 17.
Definition IFNAMSIZ : Z := 16.

Definition _BONDING_MASTERS : string := "/sys/class/net/bonding_masters".
Definition _BONDING_SLAVES (name : string) : string :=
  "/sys/class/net/" ++ name ++ "/bonding/slaves".
Definition _BRIDGE_MASTER (name : string) : string :=
  "/sys/class/net/" ++ name ++ "/brport/bridge/ifindex".
Definition _BONDING_MASTER (name : string) : string :=
  "/sys/class/net/" ++ name ++ "/master/ifindex".
Definition TUNDEV : string := "/dev/net/tun".

(** ** What the module imports

    The generic codec, the attribute tables of [ifinfmsg.ifinfo] and the
    message-type table live in other modules of the package; the functions
    below take them from this record. *)
Record externals : Type := {
  (** [ifinfmsg.ifinfo.bond_data.nla_map]: pairs (attribute name, type). *)
  bond_nla_map : list (string * string);
  bridge_nla_map : list (string * string);
  (** [bond_data.nla2name], [bridge_data.nla2name]. *)
  bond_nla2name : string -> string;
  bridge_nla2name : string -> string;
  (** [MarshalRtnl().parse(data)]. *)
  marshal_parse : list Byte.byte -> list nlmsg;
  (** [m = ifinfmsg(data); m.decode()]. *)
  ifinfmsg_decode : list Byte.byte -> nlmsg;
  (** [msg.reset(); msg.encode(); msg.data]; packing a value that does
      not fit its field raises. *)
  ifinfmsg_encode : nlmsg -> result (list Byte.byte);
  (** [RTM_VALUES]: the name of a message type, when it has one. *)
  RTM_VALUES : Z -> option string;
  (** ['%s' % name.encode('utf-8')]. *)
  py_bytes_str : string -> string
}.

(** ** sysfs as the enrichment stage reads it *)

Inductive read_result : Type :=
| ReadError (errno : Z)
| ReadOk (content : string).

(** [open(path)] raises [IOError], raises [UnicodeEncodeError], or gives a
    file whose [read()] then raises or returns the content. *)
Inductive open_result : Type :=
| OpenError (errno : Z)
| OpenUnicodeError
| Opened (r : read_result).

Record sysfs : Type := {
  fs_open : string -> open_result;
  (** [os.listdir(path)]: the errno of the [OSError], or the entries. *)
  fs_listdir : string -> Z + list string
}.

(** ** Effects

    The code of the module changes objects in place and drives the
    operating system, and it may raise after some of that was done: a
    computation over a state [S] returns its outcome together with the
    state as it stands then. *)
Definition Eff (S A : Type) : Type := S -> result A * S.

Definition ret {S A} (a : A) : Eff S A := fun s => (Ok a, s).

Definition bind {S A B} (c : Eff S A) (k : A -> Eff S B) : Eff S B :=
  fun s =>
    match c s with
    | (Ok a, s') => k a s'
    | (Raise e, s') => (Raise e, s')
    end.

Definition lift {S A} (r : result A) : Eff S A := fun s => (r, s).

Definition raise {S A} (e : exn) : Eff S A := fun s => (Raise e, s).

Definition get_state {S} : Eff S S := fun s => (Ok s, s).

(** [try: c finally: fin]. *)
Definition try_finally {S A} (c : Eff S A) (fin : Eff S unit) : Eff S A :=
  fun s =>
    match c s with
    | (r, s') =>
        match fin s' with
        | (Ok _, s'') => (r, s'')
        | (Raise e, s'') => (Raise e, s'')
        end
    end.

Declare Scope eff_scope.
Delimit Scope eff_scope with eff.
Notation "x <- c ;; k" := (bind c (fun x => k))
  (at level 61, c at next level, right associativity) : eff_scope.
Notation "c ;;; k" := (bind c (fun _ => k))
  (at level 61, right associativity) : eff_scope.

(** The message under enrichment is the state of [compat_fix_attrs]. *)
Definition Mut (A : Type) : Type := Eff nlmsg A.

(** [msg['attrs'].append(a)]. *)
Definition append_attr (a : attr) : Mut unit :=
  fun m =>
    match attrs m with
    | None => (Raise KeyError, m)
    | Some l => (Ok tt, set_attrs m (Some (l ++ [a])%list))
    end.

(** [li['attrs'].append(a)] where [li] is the object [get_attr] returned
    for ['IFLA_LINKINFO']. *)
Definition linkinfo_append (a : attr) : Mut unit :=
  fun m =>
    match get_attr m "IFLA_LINKINFO", attrs m with
    | Some (VNla (Some l)), Some top =>
        (Ok tt,
         set_attrs m (Some (update_first "IFLA_LINKINFO" (VNla (Some (l ++ [a])%list)) top)))
    | Some (VNla None), _ | Some (VDict _), _ => (Raise KeyError, m)
    | _, _ => (Raise TypeError, m)
    end.

Section Enrichment.

Variable X : externals.
Variable fs : sysfs.

(** The inner [try] of [compat_get_master]: one template, opened with
    the name and, after a [UnicodeEncodeError], with the encoded name.
    [Ok None] is the [IOError] the loop passes over. *)
Definition open_master_file (template : string -> string) (name : option value)
  : result (option read_result) :=
  match fs_open fs (template (py_str_opt name)) with
  | Opened r => Ok (Some r)
  | OpenError _ => Ok None
  | OpenUnicodeError =>
      match name with
      | Some (VStr s) =>
          match fs_open fs (template (py_bytes_str X s)) with
          | Opened r => Ok (Some r)
          | OpenError _ => Ok None
          | OpenUnicodeError => Raise UnicodeEncodeError
          end
      | _ => Raise AttributeError
      end
  end.

(** The loop over the two templates, left at the first file opened. *)
Fixpoint first_master_file (templates : list (string -> string)) (name : option value)
  : result (option read_result) :=
  match templates with
  | [] => Ok None
  | t :: rest =>
      match open_master_file t name with
      | Ok None => first_master_file rest name
      | r => r
      end
  end.

Definition compat_get_master (name : option value) : result (option Z) :=
  match first_master_file [_BRIDGE_MASTER; _BONDING_MASTER] name with
  | Raise e => Raise e
  | Ok None => Ok None
  | Ok (Some (ReadError errno)) => Raise (OSError errno)
  | Ok (Some (ReadOk content)) =>
      match py_int content with
      | Some master => Ok (Some master)
      | None => Raise (ValueError (int_error content))
      end
  end.

Definition get_interface_type (name : option value) : result string :=
  match fs_listdir fs ("/sys/class/net/" ++ py_str_opt name ++ "/") with
  | inl errno => if errno =? 2 then Ok "unknown" else Raise (OSError errno)
  | inr ifattrs =>
      if existsb (String.eqb "bonding") ifattrs then Ok "bond"
      else if existsb (String.eqb "bridge") ifattrs then Ok "bridge"
      else Ok "unknown"
  end.

(** One turn of the loop over [ifdata.nla_map]: the attribute read from
    its file, or nothing when anything in the [try] block raised. *)
Definition read_command (t : string -> string -> string)
           (nla2name : string -> string) (ifname : option value) (cmd : string)
  : option attr :=
  match fs_open fs (t (py_str_opt ifname) (nla2name cmd)) with
  | Opened (ReadOk content) =>
      let token :=
        if String.eqb cmd "IFLA_BOND_MODE"
        then nth_error (py_split content) 1
        else Some content in
      match token with
      | Some text =>
          match py_int text with
          | Some z => Some (cmd, VInt z)
          | None => None
          end
      | None => None
      end
  | _ => None
  end.

Fixpoint read_commands (t : string -> string -> string)
         (nla2name : string -> string) (ifname : option value)
         (nla_map : list (string * string)) : list attr :=
  match nla_map with
  | [] => []
  | (cmd, _) :: rest =>
      match read_command t nla2name ifname cmd with
      | Some a => a :: read_commands t nla2name ifname rest
      | None => read_commands t nla2name ifname rest
      end
  end.

Definition has_info_data (l : list attr) : bool :=
  match filter (fun x => String.eqb (fst x) "IFLA_INFO_DATA") l with
  | [] => false
  | _ => true
  end.

Definition bridge_template (ifname cmd : string) : string :=
  "/sys/class/net/" ++ ifname ++ "/bridge/" ++ cmd.
Definition bond_template (ifname cmd : string) : string :=
  "/sys/class/net/" ++ ifname ++ "/bonding/" ++ cmd.

(** Lines 86-109: "fetch specific interface data". *)
Definition fetch_info_data (ifname kind : option value) : Mut unit :=
  (m <- get_state ;;
   if (value_is_str kind "bridge" || value_is_str kind "bond")%bool then
     match get_attr m "IFLA_LINKINFO" with
     | Some (VNla (Some l)) =>
         if has_info_data l then
           let commands :=
             if value_is_str kind "bridge"
             then read_commands bridge_template (bridge_nla2name X) ifname
                                (bridge_nla_map X)
             else read_commands bond_template (bond_nla2name X) ifname
                                (bond_nla_map X) in
           match commands with
           | [] => ret tt
           | _ => linkinfo_append ("IFLA_INFO_DATA", VNla (Some commands))
           end
         else ret tt
     | Some (VNla None) | Some (VDict _) => lift (Raise KeyError)
     | _ => lift (Raise TypeError)
     end
   else ret tt)%eff.

(** Lines 66-70: "fix master". *)
Definition fix_master (caps : capabilities) (ifname : option value) : Mut unit :=
  if negb (provide_master caps) then
    (master <- lift (compat_get_master ifname) ;;
     match master with
     | Some idx => append_attr ("IFLA_MASTER", VInt idx)
     | None => ret tt
     end)%eff
  else ret tt.

(** Lines 72-84: "fix linkinfo & kind"; the result is the kind, or
    [None] for the bare [return] of the last branch. *)
Definition fix_kind (ifname : option value) : Mut (option (option value)) :=
  (m <- get_state ;;
   match get_attr m "IFLA_LINKINFO" with
   | Some li =>
       kind <- lift (value_get_attr (Some li) "IFLA_INFO_KIND") ;;
       match kind with
       | Some k => ret (Some (Some k))
       | None =>
           k <- lift (get_interface_type ifname) ;;
           linkinfo_append ("IFLA_INFO_KIND", VStr k) ;;;
           ret (Some (Some (VStr k)))
       end
   | None =>
       match attrs m with
       | Some _ =>
           k <- lift (get_interface_type ifname) ;;
           append_attr ("IFLA_LINKINFO", VNla (Some [("IFLA_INFO_KIND", VStr k)])) ;;;
           ret (Some (Some (VStr k)))
       | None => ret None
       end
   end)%eff.

Definition compat_fix_attrs (caps : capabilities) : Mut unit :=
  (m <- get_state ;;
   let ifname := get_attr m "IFLA_IFNAME" in
   fix_master caps ifname ;;;
   k <- fix_kind ifname ;;
   match k with
   | Some kind => fetch_info_data ifname kind
   | None => ret tt
   end)%eff.

(** [proxy_linkinfo]: the loop body for one message, giving the bytes
    added to the buffer. *)
Definition linkinfo_step (caps : capabilities) (msg : nlmsg) : result (list Byte.byte) :=
  if String.eqb (event msg) "NLMSG_ERROR" then Ok (data msg)
  else
    match compat_fix_attrs caps msg with
    | (Ok _, msg') => ifinfmsg_encode X msg'
    | (Raise e, msg') =>
        if is_OSError e then ifinfmsg_encode X msg' else Raise e
    end.

(** The loop of [proxy_linkinfo] from the buffer built so far. *)
Fixpoint linkinfo_loop (caps : capabilities) (inbox : list nlmsg)
         (buf : list Byte.byte) : result (list Byte.byte) :=
  match inbox with
  | [] => Ok buf
  | msg :: rest =>
      match linkinfo_step caps msg with
      | Ok bytes => linkinfo_loop caps rest (buf ++ bytes)%list
      | Raise e => Raise e
      end
  end.

End Enrichment.

(** ** Verdicts *)

(** What a proxy entry point returns: the dict
    [{'verdict': 'forward', 'data': ...}], or [None] when a legacy backend
    did the work and nothing is left to forward. *)
Inductive verdict : Type :=
| Forward (bytes : list Byte.byte)
| Consumed.

Definition proxy_linkinfo (X : externals) (fs : sysfs) (caps : capabilities)
           (bytes : list Byte.byte) : result verdict :=
  match linkinfo_loop X fs caps (marshal_parse X bytes) [] with
  | Ok buf => Ok (Forward buf)
  | Raise e => Raise e
  end.

(** ** The operating system as the executors drive it *)

Inductive spawn_outcome : Type :=
| Exited (returncode : Z)
| SpawnError (errno : Z).

(** What the module asks of the system, in the order it asks, each with
    the answer it got.  [FileWrite] is the whole of
    [with open(path, 'w') as f: f.write(text)], with errno 0 when nothing
    raised. *)
Inductive action : Type :=
| Spawn (argv : list string) (out : spawn_outcome)
| FileWrite (path text : string) (errno : Z)
| TunOpen (errno : Z)
| Ioctl (request : Z) (arg : value + list Byte.byte) (errno : Z)
| TunClose
| PipeCreate
| ThreadStart (ev : string) (ifname : option value)
| PipeWrite
| ThreadJoin
| PipeClose (read_end : bool).

(** The answers of the system and of the netlink socket [nl]; each may
    depend on everything done before. *)
Record os : Type := {
  os_spawn : list action -> list string -> spawn_outcome;
  os_write : list action -> string -> string -> Z;
  os_tun_open : list action -> Z;
  os_ioctl : list action -> Z -> value + list Byte.byte -> Z;
  (** [nl.get_links(index)]. *)
  os_get_links : list action -> option value -> result (list nlmsg)
}.

Definition IO (A : Type) : Type := Eff (list action) A.

Definition log (a : action) : IO unit := fun tr => (Ok tt, (tr ++ [a])%list).

Section Executors.

Variable X : externals.
Variable sys : os.

(** [subprocess.call(argv, stdout=fnull, stderr=fnull)]: the exit code, or
    the [OSError] of a program that cannot be started.  Opening
    [os.devnull] around it is taken to succeed. *)
Definition subprocess_call (argv : list string) : IO Z :=
  fun tr =>
    let out := os_spawn sys tr argv in
    let tr' := (tr ++ [Spawn argv out])%list in
    match out with
    | Exited rc => (Ok rc, tr')
    | SpawnError errno => (Raise (OSError errno), tr')
    end.

(** [subprocess.check_call(argv)]. *)
Definition subprocess_check_call (argv : list string) : IO unit :=
  (rc <- subprocess_call argv ;;
   if rc =? 0 then ret tt else raise (CalledProcessError rc))%eff.

(** [with open(path, 'w') as f: f.write(text)]. *)
Definition write_file (path text : string) : IO unit :=
  fun tr =>
    let errno := os_write sys tr path text in
    let tr' := (tr ++ [FileWrite path text errno])%list in
    if errno =? 0 then (Ok tt, tr') else (Raise (OSError errno), tr').

Definition get_links (idx : option value) : IO (list nlmsg) :=
  fun tr => (os_get_links sys tr idx, tr).

(** An element of an argument vector has to be a text. *)
Definition argv_item (v : option value) : result string :=
  match v with
  | Some (VStr s) => Ok s
  | _ => Raise TypeError
  end.

(** *** The [sync] decorator, as the calling thread runs it *)

Definition sync {A} (f : nlmsg -> IO A) (msg : nlmsg) : IO A :=
  (log PipeCreate ;;;
   ev <- lift (match RTM_VALUES X (header_type msg) with
               | Some name => Ok name
               | None => Raise KeyError
               end) ;;
   log (ThreadStart ev (get_attr msg "IFLA_IFNAME")) ;;;
   try_finally (f msg)
     (log PipeWrite ;;; log ThreadJoin ;;;
      log (PipeClose true) ;;; log (PipeClose false)))%eff.

(** Modelled from the spec: [pyroute2.common.map_enoent] is not in this
    module; a missing executable ([OSError] with [ENOENT]) becomes an
    error of the not-supported class, anything else passes. *)
Definition map_enoent {A} (c : IO A) : IO A :=
  fun tr =>
    match c tr with
    | (Raise (OSError errno), tr') =>
        if errno =? Errno.ENOENT
        then (Raise (OSError Errno.EOPNOTSUPP), tr')
        else (Raise (OSError errno), tr')
    | r => r
    end.

(** *** Bond and bridge attributes ([compat_set_bond], [compat_set_bridge]) *)

Definition compat_set_bond (name : option value) (cmd : string) (v : value) : IO Z :=
  subprocess_call
    ["bash"; "-c";
     "echo " ++ py_str v ++ " >/sys/class/net/" ++ py_str_opt name
             ++ "/bonding/" ++ cmd].

Definition compat_set_bridge (name : option value) (cmd : string) (v : value) : IO Z :=
  subprocess_call
    ["bash"; "-c";
     "echo " ++ py_str v ++ " >/sys/class/net/" ++ py_str_opt name
             ++ "/bridge/" ++ cmd].

(** The loop [for (cmd, value) in ...: code = func(ifname, cmd, value) or code]. *)
Fixpoint set_loop (func : option value -> string -> value -> IO Z)
         (nla2name : string -> string) (ifname : option value)
         (pairs : list attr) (code : Z) : IO Z :=
  match pairs with
  | [] => ret code
  | (cmd, v) :: rest =>
      (rc <- func ifname (nla2name cmd) v ;;
       set_loop func nla2name ifname rest (if rc =? 0 then code else rc))%eff
  end.

(** The list [infodata.get('attrs', [])] the loop goes through; a field
    called ['attrs'] holds a number, which cannot be iterated. *)
Definition infodata_pairs (infodata : value) : result (list attr) :=
  match infodata with
  | VNla (Some l) => Ok l
  | VNla None => Ok []
  | VDict fields =>
      match find (fun kv => String.eqb (fst kv) "attrs") fields with
      | Some _ => Raise TypeError
      | None => Ok []
      end
  | _ => Raise AttributeError
  end.

(** Lines 166-181 of [proxy_setlink]. *)
Definition set_stage (ifname kind infodata : option value) : IO unit :=
  match infodata with
  | Some d =>
      if (value_is_str kind "bond" || value_is_str kind "bridge")%bool then
        (pairs <- lift (infodata_pairs d) ;;
         code <- (if value_is_str kind "bond"
                  then set_loop compat_set_bond (bond_nla2name X) ifname pairs 0
                  else set_loop compat_set_bridge (bridge_nla2name X) ifname pairs 0) ;;
         if code =? 0 then ret tt else raise (OSError code))%eff
      else ret tt
  | None => ret tt
  end.

(** *** Port membership *)

(** The dict [get_interface] returns. *)
Record iface : Type := {
  if_ifname : option value;
  if_master : option value;
  if_kind : option value
}.

Definition get_interface (idx : option value) : IO iface :=
  (links <- get_links idx ;;
   match links with
   | [] => raise IndexError
   | msg :: _ =>
       let kind :=
         match value_get_attr (get_attr msg "IFLA_LINKINFO") "IFLA_INFO_KIND" with
         | Ok k => k
         | Raise _ => Some (VStr "unknown")
         end in
       ret {| if_ifname := get_attr msg "IFLA_IFNAME";
              if_master := get_attr msg "IFLA_MASTER";
              if_kind := kind |}
   end)%eff.

(** A port function returns [True] (forward to the kernel) or [None]. *)
Definition manage_team_port (cmd : string) (master ifname : option value)
           (caps : capabilities) : IO (option bool) :=
  map_enoent
    (m <- lift (argv_item master) ;;
     i <- lift (argv_item ifname) ;;
     subprocess_check_call
       ["teamdctl"; m; "port";
        if String.eqb cmd "del" then "remove" else "add"; i] ;;;
     ret None)%eff.

Definition compat_bridge_port (cmd : string) (master port : option value)
           (caps : capabilities) : IO (option bool) :=
  if create_bridge caps then ret (Some true)
  else
    (m <- lift (argv_item master) ;;
     p <- lift (argv_item port) ;;
     subprocess_check_call ["brctl"; cmd ++ "if"; m; p] ;;;
     ret None)%eff.

Definition compat_bond_port (cmd : string) (master port : option value)
           (caps : capabilities) : IO (option bool) :=
  if create_bond caps then ret (Some true)
  else
    (sign <- lift (if String.eqb cmd "add" then Ok "+"
                   else if String.eqb cmd "del" then Ok "-"
                   else Raise KeyError) ;;
     write_file (_BONDING_SLAVES (py_str_opt master)) (sign ++ py_str_opt port) ;;;
     ret None)%eff.

(** [master['kind'] in forward_map] and the call of the function found;
    a dict used as a key is unhashable. *)
Definition dispatch_port (cmd : string) (master : iface) (ifname : option value)
           (caps : capabilities) : IO (option bool) :=
  match if_kind master with
  | Some (VStr k) =>
      if String.eqb k "team" then manage_team_port cmd (if_ifname master) ifname caps
      else if String.eqb k "bridge" then compat_bridge_port cmd (if_ifname master) ifname caps
      else if String.eqb k "bond" then compat_bond_port cmd (if_ifname master) ifname caps
      else ret (Some true)
  | Some (VDict _) | Some (VNla _) => raise TypeError
  | _ => ret (Some true)
  end.

(** Lines 183-205 of [proxy_setlink]: the value of [forward] after them. *)
Definition port_stage (caps : capabilities) (msg : nlmsg) (ifname : option value)
  : IO (option bool) :=
  match get_attr msg "IFLA_MASTER" with
  | None => ret (Some true)
  | Some (VInt 0) =>
      (i <- get_interface (Some (VInt (index msg))) ;;
       master <- get_interface (if_master i) ;;
       dispatch_port "del" master ifname caps)%eff
  | Some idx =>
      (master <- get_interface (Some idx) ;;
       dispatch_port "add" master ifname caps)%eff
  end.

(** Lines 159-160: the name in the request, or else the name of the
    interface the index stands for. *)
Definition setlink_ifname (msg : nlmsg) : IO (option value) :=
  match get_attr msg "IFLA_IFNAME" with
  | Some v =>
      if truthy v then ret (Some v)
      else (i <- get_interface (Some (VInt (index msg))) ;;
            ret (if_ifname i))%eff
  | None =>
      (i <- get_interface (Some (VInt (index msg))) ;;
       ret (if_ifname i))%eff
  end.

(** Lines 156-164: [kind] and [infodata]. *)
Definition setlink_kind_data (msg : nlmsg) : result (option value * option value) :=
  let linkinfo := get_attr msg "IFLA_LINKINFO" in
  match linkinfo with
  | Some li =>
      if truthy li then
        match value_get_attr linkinfo "IFLA_INFO_KIND",
              value_get_attr linkinfo "IFLA_INFO_DATA" with
        | Ok k, Ok d => Ok (k, d)
        | Raise e, _ => Raise e
        | _, Raise e => Raise e
        end
      else Ok (None, None)
  | None => Ok (None, None)
  end.

Definition proxy_setlink (caps : capabilities) (imsg : nlmsg) : IO verdict :=
  let msg := ifinfmsg_decode X (data imsg) in
  (ifname <- setlink_ifname msg ;;
   ki <- lift (setlink_kind_data msg) ;;
   set_stage ifname (fst ki) (snd ki) ;;;
   forward <- port_stage caps msg ifname ;;
   match forward with
   | Some _ => ret (Forward (data imsg))
   | None => ret Consumed
   end)%eff.

(** *** tun/tap *)

(** The ioctl numbers the module defines for [config.machine]; on any
    other machine [TUNSETIFF] is [None] and the others are not defined. *)
Record tun_requests : Type := {
  TUNSETIFF : Z;
  TUNSETPERSIST : Z;
  TUNSETOWNER : Z;
  TUNSETGROUP : Z
}.

Definition tun_requests_of (machine : string) : option tun_requests :=
  if existsb (String.eqb machine) ["i386"; "i686"; "x86_64"; "s390x"] then
    Some {| TUNSETIFF := 0x400454ca; TUNSETPERSIST := 0x400454cb;
            TUNSETOWNER := 0x400454cc; TUNSETGROUP := 0x400454ce |}
  else if existsb (String.eqb machine) ["ppc64"; "mips"; "loongarch64"] then
    Some {| TUNSETIFF := 0x800454ca; TUNSETPERSIST := 0x800454cb;
            TUNSETOWNER := 0x800454cc; TUNSETGROUP := 0x800454ce |}
  else None.

Definition IFT_TUN : Z := 0x0001.
Definition IFT_TAP : Z := 0x0002.
Definition IFT_NO_PI : Z := 0x1000.
Definition IFT_ONE_QUEUE : Z := 0x2000.
Definition IFT_VNET_HDR : Z := 0x4000.
Definition IFT_MULTI_QUEUE : Z := 0x0100.

(** The machine the module was loaded on. *)
Record platform : Type := {
  machine : string;
  big_endian : bool
}.

Definition byte_of_Z (z : Z) : Byte.byte :=
  byte_of_ascii (ascii_of_N (Z.to_N (z mod 256))).

(** [struct.pack('H', n)] in the byte order of the machine. *)
Definition pack_H (p : platform) (n : Z) : list Byte.byte :=
  if big_endian p then [byte_of_Z (n / 256); byte_of_Z n]
  else [byte_of_Z n; byte_of_Z (n / 256)].

(** [s.encode('ascii')]. *)
Fixpoint encode_ascii (s : string) : result (list Byte.byte) :=
  match s with
  | EmptyString => Ok []
  | String c r =>
      if (nat_of_ascii c <? 128)%nat then
        match encode_ascii r with
        | Ok l => Ok (byte_of_ascii c :: l)
        | Raise e => Raise e
        end
      else Raise UnicodeEncodeError
  end.

Fixpoint zeros (n : nat) : string :=
  match n with
  | O => EmptyString
  | S k => String zero (zeros k)
  end.

(** [flags[name]] as a condition. *)
Definition flag_set (flags : value) (name : string) : result bool :=
  match flags with
  | VDict l =>
      match find (fun kv => String.eqb (fst kv) name) l with
      | Some kv => Ok (negb (snd kv =? 0))
      | None => Raise KeyError
      end
  | VNla _ => Raise KeyError
  | _ => Raise TypeError
  end.

Definition or_flag (flags : value) (name : string) (bit : Z) (acc : Z) : result Z :=
  match flag_set flags name with
  | Ok true => Ok (Z.lor acc bit)
  | Ok false => Ok acc
  | Raise e => Raise e
  end.

(** [ifru_flags] as lines 358-373 leave it. *)
Definition tuntap_flags (infodata : option (list attr)) : result Z :=
  let flags := nla_get_attr infodata "IFTUN_IFR" in
  let mode := nla_get_attr infodata "IFTUN_MODE" in
  match (if value_is_str mode "tun" then Ok (Z.lor 0 IFT_TUN)
         else if value_is_str mode "tap" then Ok (Z.lor 0 IFT_TAP)
         else Raise (ValueError "invalid mode")) with
  | Raise e => Raise e
  | Ok f0 =>
      match flags with
      | None => Ok f0
      | Some fl =>
          match or_flag fl "no_pi" IFT_NO_PI f0 with
          | Raise e => Raise e
          | Ok f1 =>
              match or_flag fl "one_queue" IFT_ONE_QUEUE f1 with
              | Raise e => Raise e
              | Ok f2 =>
                  match or_flag fl "vnet_hdr" IFT_VNET_HDR f2 with
                  | Raise e => Raise e
                  | Ok f3 => or_flag fl "multi_queue" IFT_MULTI_QUEUE f3
                  end
              end
          end
      end
  end.

(** The [ifreq] buffer of lines 374-379. *)
Definition tuntap_ifr (p : platform) (msg : nlmsg) (ifru_flags : Z)
  : result (list Byte.byte) :=
  match get_attr msg "IFLA_IFNAME" with
  | Some (VStr ifr) =>
      if (Z.of_nat (String.length ifr) >? IFNAMSIZ) then
        Raise (ValueError "ifname too long")
      else
        match encode_ascii (ifr ++ zeros (Z.to_nat IFNAMSIZ - String.length ifr)) with
        | Ok bytes => Ok (bytes ++ pack_H p ifru_flags)%list
        | Raise e => Raise e
        end
  | _ => Raise TypeError
  end.

Definition tun_open : IO unit :=
  fun tr =>
    let errno := os_tun_open sys tr in
    let tr' := (tr ++ [TunOpen errno])%list in
    if errno =? 0 then (Ok tt, tr') else (Raise (OSError errno), tr').

Definition ioctl (request : Z) (arg : value + list Byte.byte) : IO unit :=
  fun tr =>
    let errno := os_ioctl sys tr request arg in
    let tr' := (tr ++ [Ioctl request arg errno])%list in
    if errno =? 0 then (Ok tt, tr') else (Raise (OSError errno), tr').

Definition ioctl_if_given (request : Z) (arg : option value) : IO unit :=
  match arg with
  | Some v => ioctl request (inl v)
  | None => ret tt
  end.

(** The attribute list behind [infodata.get_attr]; [None] has no such
    method. *)
Definition infodata_attrs (infodata : option value) : result (option (list attr)) :=
  match infodata with
  | Some (VNla a) => Ok a
  | Some (VDict _) => Ok None
  | _ => Raise AttributeError
  end.

(** The function [manage_tuntap] before decoration. *)
Definition manage_tuntap_body (p : platform) (msg : nlmsg) : IO unit :=
  match tun_requests_of (machine p) with
  | None => raise (NetlinkError Errno.EOPNOTSUPP "Arch not supported")
  | Some req =>
      if negb (header_type msg =? RTM_NEWLINK) then
        raise (NetlinkError Errno.EOPNOTSUPP "Unsupported event")
      else
        (infodata <- lift (value_get_attr (get_attr msg "IFLA_LINKINFO")
                                          "IFLA_INFO_DATA") ;;
         data_attrs <- lift (infodata_attrs infodata) ;;
         ifru_flags <- lift (tuntap_flags data_attrs) ;;
         ifr <- lift (tuntap_ifr p msg ifru_flags) ;;
         let user := nla_get_attr data_attrs "IFTUN_UID" in
         let group := nla_get_attr data_attrs "IFTUN_GID" in
         tun_open ;;;
         try_finally
           (ioctl (TUNSETIFF req) (inr ifr) ;;;
            ioctl_if_given (TUNSETOWNER req) user ;;;
            ioctl_if_given (TUNSETGROUP req) group ;;;
            ioctl (TUNSETPERSIST req) (inl (VInt 1)))
           (log TunClose))%eff
  end.

Definition manage_tuntap (p : platform) : nlmsg -> IO unit :=
  sync (manage_tuntap_body p).

(** *** team, bridge and bond devices *)

Definition dquote : string := String (ascii_of_nat 34) EmptyString.

(** One character of a text in [json.dumps], which by default leaves
    only printable ASCII as it is. *)
Definition json_char (c : ascii) : string :=
  let n := nat_of_ascii c in
  if (Ascii.eqb c dquote_char || Ascii.eqb c backslash_char)%bool
  then String backslash_char (String c EmptyString)
  else if (n =? 10)%nat then String backslash_char "n"
  else if (n =? 13)%nat then String backslash_char "r"
  else if (n =? 9)%nat then String backslash_char "t"
  else if (n =? 8)%nat then String backslash_char "b"
  else if (n =? 12)%nat then String backslash_char "f"
  else if ((32 <=? n) && (n <? 127))%nat then String c EmptyString
  else String backslash_char ("u00" ++ hex2 n).

Definition json_string (s : string) : string :=
  dquote ++ string_flat_map json_char s ++ dquote.

Fixpoint json_value (v : value) : string :=
  match v with
  | VInt z => str_of_Z z
  | VStr s => json_string s
  | VDict l =>
      "{" ++ join_with ", "
               (map (fun kv => json_string (fst kv) ++ ": " ++ str_of_Z (snd kv)) l)
          ++ "}"
  | VNla None => "{}"
  | VNla (Some l) =>
      "{" ++ json_string "attrs" ++ ": ["
          ++ join_with ", "
               (map (fun kv => "[" ++ json_string (fst kv) ++ ", "
                                   ++ json_value (snd kv) ++ "]") l)
          ++ "]}"
  end.

(** [json.dumps] of the device name. *)
Definition json_of (v : option value) : string :=
  match v with
  | None => "null"
  | Some x => json_value x
  end.

Definition team_config (device : option value) : string :=
  "{" ++ dquote ++ "device" ++ dquote ++ ": " ++ json_of device
      ++ ", " ++ dquote ++ "runner" ++ dquote ++ ": {"
      ++ dquote ++ "name" ++ dquote ++ ": " ++ dquote ++ "activebackup" ++ dquote
      ++ "}, " ++ dquote ++ "link_watch" ++ dquote ++ ": {"
      ++ dquote ++ "name" ++ dquote ++ ": " ++ dquote ++ "ethtool" ++ dquote
      ++ "}}".

Definition manage_team_body (msg : nlmsg) : IO unit :=
  if negb (header_type msg =? RTM_NEWLINK) then
    raise (ValueError "wrong command type")
  else
    subprocess_check_call
      ["teamd"; "-d"; "-n"; "-c"; team_config (get_attr msg "IFLA_IFNAME")].

Definition manage_team (msg : nlmsg) : IO unit :=
  map_enoent (sync manage_team_body msg).

Definition compat_create_bridge : nlmsg -> IO unit :=
  sync (fun msg =>
          (name <- lift (argv_item (get_attr msg "IFLA_IFNAME")) ;;
           subprocess_check_call ["brctl"; "addbr"; name])%eff).

Definition compat_create_bond : nlmsg -> IO unit :=
  sync (fun msg =>
          write_file _BONDING_MASTERS
                     ("+" ++ py_str_opt (get_attr msg "IFLA_IFNAME"))).

Definition compat_del_bridge : nlmsg -> IO unit :=
  sync (fun msg =>
          (name <- lift (argv_item (get_attr msg "IFLA_IFNAME")) ;;
           subprocess_check_call ["ip"; "link"; "set"; "dev"; name; "down"] ;;;
           subprocess_check_call ["brctl"; "delbr"; name])%eff).

Definition compat_del_bond : nlmsg -> IO unit :=
  sync (fun msg =>
          (name <- lift (argv_item (get_attr msg "IFLA_IFNAME")) ;;
           subprocess_check_call ["ip"; "link"; "set"; "dev"; name; "down"] ;;;
           write_file _BONDING_MASTERS ("-" ++ name))%eff).

(** *** Create-link and delete-link *)

(** Where [proxy_newlink] sends a request. *)
Inductive route : Type :=
| ToTuntap
| ToTeam
| ToCreateBond
| ToCreateBridge
| ToKernel.

(** The kind as lines 296-304 compute it: the first [IFLA_INFO_KIND] of
    the link-info block; with no such attribute the variable holds an
    empty list, which equals no kind name. *)
Definition declared_kind (msg : nlmsg) : result (option value) :=
  match get_attr msg "IFLA_LINKINFO" with
  | None => Ok None
  | Some (VNla (Some l)) => Ok (lookup_attr "IFLA_INFO_KIND" l)
  | Some (VNla None) | Some (VDict _) => Raise KeyError
  | Some _ => Raise TypeError
  end.

Definition newlink_route (caps : capabilities) (kind : option value) : route :=
  if value_is_str kind "tuntap" then ToTuntap
  else if value_is_str kind "team" then ToTeam
  else if (value_is_str kind "bond" && negb (create_bond caps))%bool then ToCreateBond
  else if (value_is_str kind "bridge" && negb (create_bridge caps))%bool then ToCreateBridge
  else ToKernel.

Definition proxy_newlink (p : platform) (caps : capabilities) (imsg : nlmsg)
  : IO verdict :=
  let msg := ifinfmsg_decode X (data imsg) in
  (kind <- lift (declared_kind msg) ;;
   match newlink_route caps kind with
   | ToTuntap => manage_tuntap p msg ;;; ret Consumed
   | ToTeam => manage_team msg ;;; ret Consumed
   | ToCreateBond => compat_create_bond msg ;;; ret Consumed
   | ToCreateBridge => compat_create_bridge msg ;;; ret Consumed
   | ToKernel => ret (Forward (data imsg))
   end)%eff.

Definition proxy_dellink (caps : capabilities) (imsg : nlmsg) : IO verdict :=
  let orig_msg := ifinfmsg_decode X (data imsg) in
  (links <- get_links (Some (VInt (index orig_msg))) ;;
   match links with
   | [] => raise IndexError
   | found :: _ =>
       let msg := {| header_type := header_type orig_msg; index := index found;
                     event := event found; attrs := attrs found;
                     data := data found |} in
       kind <- lift (match get_attr msg "IFLA_LINKINFO" with
                     | None => Ok None
                     | li => value_get_attr li "IFLA_INFO_KIND"
                     end) ;;
       if (value_is_str kind "bond" && negb (create_bond caps))%bool then
         compat_del_bond msg ;;; ret Consumed
       else if (value_is_str kind "bridge" && negb (create_bridge caps))%bool then
         compat_del_bridge msg ;;; ret Consumed
       else ret (Forward (data imsg))
   end)%eff.

End Executors.

(** ** The [sync] decorator with its monitoring thread

    [decorated] and [monitor] run in two threads that share the control
    pipe and the kernel's notifications.  Each thread is a small machine;
    a schedule says which one moves next and when the kernel emits a batch
    of notifications. *)
Module SyncProtocol.

(** What [monitor] reads off a notification: [msg.get('event')] and
    [msg.get_attr('IFLA_IFNAME')]. *)
Record notification : Type := {
  n_event : option string;
  n_ifname : option value
}.

(** The objects the variable [event] of [monitor] holds: the name of a
    message type (its parameter) or the mask of a poll event (the target
    of [for (fd, event) in events]). *)
Inductive pyobj : Type :=
| PNone
| PStr (s : string)
| PInt (z : Z).

Definition pyobj_eqb (a b : pyobj) : bool :=
  match a, b with
  | PNone, PNone => true
  | PStr x, PStr y => String.eqb x y
  | PInt x, PInt y => x =? y
  | _, _ => false
  end.

Definition obj_of_event (e : option string) : pyobj :=
  match e with
  | None => PNone
  | Some s => PStr s
  end.

Fixpoint value_eqb (a b : value) {struct a} : bool :=
  match a, b with
  | VInt x, VInt y => x =? y
  | VStr x, VStr y => String.eqb x y
  | VDict x, VDict y =>
      (fix go (l1 l2 : list (string * Z)) : bool :=
         match l1, l2 with
         | [], [] => true
         | (n1, z1) :: r1, (n2, z2) :: r2 =>
             (String.eqb n1 n2 && (z1 =? z2) && go r1 r2)%bool
         | _, _ => false
         end) x y
  | VNla None, VNla None => true
  | VNla (Some x), VNla (Some y) =>
      (fix go (l1 l2 : list (string * value)) : bool :=
         match l1, l2 with
         | [], [] => true
         | (n1, v1) :: r1, (n2, v2) :: r2 =>
             (String.eqb n1 n2 && value_eqb v1 v2 && go r1 r2)%bool
         | _, _ => false
         end) x y
  | _, _ => false
  end.

Definition ifname_eqb (a b : option value) : bool :=
  match a, b with
  | None, None => true
  | Some x, Some y => value_eqb x y
  | _, _ => false
  end.

Inductive fd : Type := IprFd | CmdFd.

(** How [monitor] came to its end: one of its two [return]s, or an
    exception while the socket was set up. *)
Inductive ending : Type := Matched | Cancelled | Crashed.

Inductive watcher_pc : Type :=
| WNone                                  (* no thread yet *)
| WSetup                                 (* started, socket not bound *)
| WPolling                               (* in [poll.poll()] *)
| WHandling (events : list (fd * Z))     (* in [for (fd, event) in events] *)
| WFinished (how : ending).

Section Machine.

Variable A : Type.

Inductive main_pc : Type :=
| MStart
| MPiped                      (* after [os.pipe()] *)
| MStarted                    (* after [t.start()] *)
| MFinally (r : result A)     (* [f(msg)] returned or raised *)
| MWrote (r : result A)       (* after [os.write(cmd, b'q')] *)
| MJoined (r : result A)      (* after [t.join()] *)
| MClosedR (r : result A)     (* after [os.close(rcmd)] *)
| MDone (r : result A)        (* [return ret], or the exception re-raised *)
| MAborted (e : exn).         (* raised before the thread was made *)

Record state : Type := {
  main : main_pc;
  watcher : watcher_pc;
  w_event : pyobj;                      (* the variable [event] *)
  w_ifname : option value;              (* the variable [ifname] *)
  sock : list (list notification);      (* batches waiting on [ipr] *)
  pipe_bytes : nat;                     (* bytes written to [cmd] *)
  rcmd_open : bool;
  cmd_open : bool;
  trace : list action                   (* what the calling thread did *)
}.

(** One call of the decorated function: the tables, the wrapped
    function and its argument, whether the socket of the watcher can
    be made, and the mask poll reports for a readable descriptor. *)
Record call : Type := {
  c_X : externals;
  c_f : nlmsg -> IO A;
  c_msg : nlmsg;
  c_sock_ok : bool;
  c_revents : Z
}.

Inductive label : Type :=
| RunMain
| RunWatcher
| Notify (batch : list notification).

Definition init (tr : list action) : state :=
  {| main := MStart; watcher := WNone; w_event := PNone; w_ifname := None;
     sock := []; pipe_bytes := 0; rcmd_open := false; cmd_open := false;
     trace := tr |}.

Definition set_main (s : state) (pc : main_pc) (tr : list action) : state :=
  {| main := pc; watcher := watcher s; w_event := w_event s;
     w_ifname := w_ifname s; sock := sock s; pipe_bytes := pipe_bytes s;
     rcmd_open := rcmd_open s; cmd_open := cmd_open s; trace := tr |}.

Definition set_watcher (s : state) (pc : watcher_pc) (ev : pyobj)
           (q : list (list notification)) : state :=
  {| main := main s; watcher := pc; w_event := ev;
     w_ifname := w_ifname s; sock := q; pipe_bytes := pipe_bytes s;
     rcmd_open := rcmd_open s; cmd_open := cmd_open s; trace := trace s |}.

(** The next statement of [decorated]; [None] when it blocks. *)
Definition decorated_step (c : call) (s : state) : option state :=
  match main s with
  | MStart =>
      Some {| main := MPiped; watcher := watcher s; w_event := w_event s;
              w_ifname := w_ifname s; sock := sock s;
              pipe_bytes := pipe_bytes s;
              rcmd_open := true; cmd_open := true;
              trace := (trace s ++ [PipeCreate])%list |}
  | MPiped =>
      match RTM_VALUES (c_X c) (header_type (c_msg c)) with
      | None => Some (set_main s (MAborted KeyError) (trace s))
      | Some name =>
          let ifname := get_attr (c_msg c) "IFLA_IFNAME" in
          Some {| main := MStarted; watcher := WSetup;
                  w_event := PStr name; w_ifname := ifname;
                  sock := sock s; pipe_bytes := pipe_bytes s;
                  rcmd_open := rcmd_open s; cmd_open := cmd_open s;
                  trace := (trace s ++ [ThreadStart name ifname])%list |}
      end
  | MStarted =>
      let '(r, tr) := c_f c (c_msg c) (trace s) in
      Some (set_main s (MFinally r) tr)
  | MFinally r =>
      Some {| main := MWrote r; watcher := watcher s; w_event := w_event s;
              w_ifname := w_ifname s; sock := sock s;
              pipe_bytes := S (pipe_bytes s);
              rcmd_open := rcmd_open s; cmd_open := cmd_open s;
              trace := (trace s ++ [PipeWrite])%list |}
  | MWrote r =>
      match watcher s with
      | WFinished _ => Some (set_main s (MJoined r) (trace s ++ [ThreadJoin])%list)
      | _ => None
      end
  | MJoined r =>
      Some {| main := MClosedR r; watcher := watcher s; w_event := w_event s;
              w_ifname := w_ifname s; sock := sock s;
              pipe_bytes := pipe_bytes s;
              rcmd_open := false; cmd_open := cmd_open s;
              trace := (trace s ++ [PipeClose true])%list |}
  | MClosedR r =>
      Some {| main := MDone r; watcher := watcher s; w_event := w_event s;
              w_ifname := w_ifname s; sock := sock s;
              pipe_bytes := pipe_bytes s;
              rcmd_open := rcmd_open s; cmd_open := false;
              trace := (trace s ++ [PipeClose false])%list |}
  | MDone _ | MAborted _ => None
  end.

(** What [poll.poll()] returns: the descriptors that can be read, in
    the order they were registered. *)
Definition ready (c : call) (s : state) : list (fd * Z) :=
  ((match sock s with [] => [] | _ => [(IprFd, c_revents c)] end)
     ++ (match pipe_bytes s with O => [] | _ => [(CmdFd, c_revents c)] end))%list.

(** The test of lines 241-242 on one notification. *)
Definition matches (ev : pyobj) (ifname : option value) (n : notification) : bool :=
  (pyobj_eqb (obj_of_event (n_event n)) ev && ifname_eqb (n_ifname n) ifname)%bool.

(** The next statement of [monitor]; [None] when it blocks. *)
Definition monitor_step (c : call) (s : state) : option state :=
  match watcher s with
  | WNone | WFinished _ => None
  | WSetup =>
      if c_sock_ok c then Some (set_watcher s WPolling (w_event s) (sock s))
      else Some (set_watcher s (WFinished Crashed) (w_event s) (sock s))
  | WPolling =>
      match ready c s with
      | [] => None
      | events => Some (set_watcher s (WHandling events) (w_event s) (sock s))
      end
  | WHandling [] => Some (set_watcher s WPolling (w_event s) (sock s))
  | WHandling ((IprFd, mask) :: rest) =>
      (* [event] now holds the mask; [msgs = ipr.get()] *)
      match sock s with
      | [] => None
      | msgs :: q =>
          if existsb (matches (PInt mask) (w_ifname s)) msgs
          then Some (set_watcher s (WFinished Matched) (PInt mask) q)
          else Some (set_watcher s (WHandling rest) (PInt mask) q)
      end
  | WHandling ((CmdFd, mask) :: rest) =>
      Some (set_watcher s (WFinished Cancelled) (PInt mask) (sock s))
  end.

(** The kernel emits a batch: it reaches the socket once it is bound. *)
Definition deliver (batch : list notification) (s : state) : state :=
  match watcher s with
  | WPolling | WHandling _ =>
      set_watcher s (watcher s) (w_event s) (sock s ++ [batch])%list
  | _ => s
  end.

Definition step (c : call) (l : label) (s : state) : option state :=
  match l with
  | RunMain => decorated_step c s
  | RunWatcher => monitor_step c s
  | Notify batch => Some (deliver batch s)
  end.

Fixpoint run (c : call) (schedule : list label) (s : state) : option state :=
  match schedule with
  | [] => Some s
  | l :: rest =>
      match step c l s with
      | Some s' => run c rest s'
      | None => None
      end
  end.

Definition terminated (s : state) : bool :=
  match watcher s with
  | WFinished _ => true
  | _ => false
  end.

End Machine.

Arguments MStart {A}.
Arguments MPiped {A}.
Arguments MStarted {A}.
Arguments MFinally {A} r.
Arguments MWrote {A} r.
Arguments MJoined {A} r.
Arguments MClosedR {A} r.
Arguments MDone {A} r.
Arguments MAborted {A} e.
Arguments main {A} s.
Arguments watcher {A} s.
Arguments w_event {A} s.
Arguments w_ifname {A} s.
Arguments sock {A} s.
Arguments pipe_bytes {A} s.
Arguments rcmd_open {A} s.
Arguments cmd_open {A} s.
Arguments trace {A} s.
Arguments c_X {A} c.
Arguments c_f {A} c.
Arguments c_msg {A} c.
Arguments c_sock_ok {A} c.
Arguments c_revents {A} c.
Arguments init {A} tr.
Arguments set_main {A} s pc tr.
Arguments set_watcher {A} s pc ev q.
Arguments decorated_step {A} c s.
Arguments monitor_step {A} c s.
Arguments ready {A} c s.
Arguments deliver {A} batch s.
Arguments step {A} c l s.
Arguments run {A} c schedule s.
Arguments terminated {A} s.

(** The steps of the [finally] block of [decorated]. *)
Definition finally_steps : list action :=
  [PipeWrite; ThreadJoin; PipeClose true; PipeClose false].

(** The trace and the outcome of the wrapped function, called after the
    watcher was started. *)
Definition body_run {A} (c : call A) (tr0 : list action) (ev : string)
  : result A * list action :=
  c_f c (c_msg c)
      (tr0 ++ [PipeCreate; ThreadStart ev (get_attr (c_msg c) "IFLA_IFNAME")])%list.

(** The calling thread after [f(msg)], [k] steps into the [finally]
    block. *)
Definition after_body {A} (c : call A) (tr0 : list action) (s : state A)
           (r : result A) (k : nat) : Prop :=
  exists ev,
    RTM_VALUES (c_X c) (header_type (c_msg c)) = Some ev /\
    watcher s <> WNone /\
    fst (body_run c tr0 ev) = r /\
    trace s = (snd (body_run c tr0 ev) ++ firstn k finally_steps)%list /\
    pipe_bytes s = (if (k =? 0)%nat then 0 else 1)%nat /\
    rcmd_open s = (k <? 3)%nat /\
    cmd_open s = (k <? 4)%nat /\
    ((2 <= k)%nat -> terminated s = true).

(** What holds of the calling thread at each point of [decorated]. *)
Definition main_inv {A} (c : call A) (tr0 : list action) (s : state A) : Prop :=
  match main s with
  | MStart =>
      watcher s = WNone /\ pipe_bytes s = 0%nat /\
      rcmd_open s = false /\ cmd_open s = false /\ trace s = tr0
  | MPiped =>
      watcher s = WNone /\ pipe_bytes s = 0%nat /\
      rcmd_open s = true /\ cmd_open s = true /\
      trace s = (tr0 ++ [PipeCreate])%list
  | MAborted e =>
      RTM_VALUES (c_X c) (header_type (c_msg c)) = None /\
      e = KeyError /\ watcher s = WNone /\
      rcmd_open s = true /\ cmd_open s = true /\
      trace s = (tr0 ++ [PipeCreate])%list
  | MStarted =>
      exists ev,
        RTM_VALUES (c_X c) (header_type (c_msg c)) = Some ev /\
        watcher s <> WNone /\ pipe_bytes s = 0%nat /\
        rcmd_open s = true /\ cmd_open s = true /\
        trace s = (tr0 ++ [PipeCreate;
                           ThreadStart ev (get_attr (c_msg c) "IFLA_IFNAME")])%list
  | MFinally r => after_body c tr0 s r 0
  | MWrote r => after_body c tr0 s r 1
  | MJoined r => after_body c tr0 s r 2
  | MClosedR r => after_body c tr0 s r 3
  | MDone r => after_body c tr0 s r 4
  end.

(** The statements of [decorated] still to run. *)
Definition steps_left {A} (pc : main_pc A) : nat :=
  match pc with
  | MStart => 7
  | MPiped => 6
  | MStarted => 5
  | MFinally _ => 4
  | MWrote _ => 3
  | MJoined _ => 2
  | MClosedR _ => 1
  | MDone _ | MAborted _ => 0
  end.

(** What holds of the watcher: it never ends on a match, and while it
    goes through the events of a poll the socket has a batch for the
    event of the socket, which comes first and once. *)
Definition watcher_inv {A} (s : state A) : Prop :=
  match watcher s with
  | WFinished how => how <> Matched
  | WHandling ((IprFd, _) :: rest) =>
      sock s <> [] /\ (rest = [] \/ exists m, rest = [(CmdFd, m)])
  | WHandling ((CmdFd, _) :: rest) => rest = []
  | _ => True
  end.

End SyncProtocol.

(** ** Notions used in the statements *)

(** The exit codes of the commands run, in the order they were run. *)
Definition exit_codes (l : list action) : list Z :=
  flat_map (fun a => match a with
                     | Spawn _ (Exited rc) => [rc]
                     | _ => []
                     end) l.

(** The first code that is not zero, or zero when there is none. *)
Definition first_nonzero (codes : list Z) : Z :=
  match find (fun c => negb (c =? 0)) codes with
  | Some c => c
  | None => 0
  end.

Definition last_nonzero (codes : list Z) : Z := first_nonzero (rev codes).

(** The command line that sets one attribute of a bond or a bridge. *)
Definition set_argv (X : externals) (kind : string) (ifname : option value)
           (pair : attr) : list string :=
  ["bash"; "-c";
   "echo " ++ py_str (snd pair) ++ " >/sys/class/net/" ++ py_str_opt ifname
           ++ (if String.eqb kind "bond" then "/bonding/" else "/bridge/")
           ++ (if String.eqb kind "bond" then bond_nla2name X (fst pair)
               else bridge_nla2name X (fst pair))].

Definition spawned_argv (a : action) : list string :=
  match a with
  | Spawn argv _ => argv
  | _ => []
  end.

Definition is_spawn (a : action) : bool :=
  match a with Spawn _ _ => true | _ => false end.

Definition is_file_write (a : action) : bool :=
  match a with FileWrite _ _ _ => true | _ => false end.

(** The actions on the tun control device. *)
Definition is_tun_action (a : action) : bool :=
  match a with
  | TunOpen _ | Ioctl _ _ _ | TunClose => true
  | _ => false
  end.

(** A port operation of a legacy backend: [teamdctl], [brctl] or a write
    to a sysfs file. *)
Definition port_action (a : action) : bool :=
  match a with
  | FileWrite _ _ _ => true
  | Spawn (prog :: _) _ => (String.eqb prog "teamdctl" || String.eqb prog "brctl")%bool
  | _ => false
  end.

Definition succeeded (a : action) : bool :=
  match a with
  | FileWrite _ _ errno => errno =? 0
  | Spawn _ (Exited rc) => rc =? 0
  | _ => false
  end.

(** The mode of a tun/tap request, when the request has one. *)
Definition tuntap_mode (msg : nlmsg) : option value :=
  match get_attr msg "IFLA_LINKINFO" with
  | Some (VNla li) =>
      match nla_get_attr li "IFLA_INFO_DATA" with
      | Some (VNla d) => nla_get_attr d "IFTUN_MODE"
      | _ => None
      end
  | _ => None
  end.

(** The info-response path as the specification words it: every message
    enriched and re-encoded, a message whose enrichment raised an OS error
    passed as it came. *)
Definition linkinfo_as_specified (X : externals) (fs : sysfs) (caps : capabilities)
           (inbox : list nlmsg) : result (list Byte.byte) :=
  fold_right
    (fun m rest =>
       match (match compat_fix_attrs X fs caps m with
              | (Ok _, m') => ifinfmsg_encode X m'
              | (Raise _, _) => ifinfmsg_encode X m
              end), rest with
       | Ok b, Ok r => Ok (b ++ r)%list
       | Raise e, _ => Raise e
       | _, Raise e => Raise e
       end)
    (Ok []) inbox.

(** What one message of an info-response batch adds to the buffer: the
    content of its [data] field for an error reply, and for any other
    message the encoding of the message as enrichment left it, when the
    encoder accepts it. *)
Definition linkinfo_segment (X : externals) (fs : sysfs) (caps : capabilities)
           (m : nlmsg) : result (list Byte.byte) :=
  if String.eqb (event m) "NLMSG_ERROR" then Ok (data m)
  else ifinfmsg_encode X (snd (compat_fix_attrs X fs caps m)).

(** Enrichment of [m] raises nothing but OS errors. *)
Definition only_os_errors (X : externals) (fs : sysfs) (caps : capabilities)
           (m : nlmsg) : Prop :=
  forall e, fst (compat_fix_attrs X fs caps m) = Raise e -> is_OSError e = true.

(** The batch [inbox] is processed to its end, with the segments [segs]:
    the enrichment of each message raises nothing but OS errors, and
    each message has its segment. *)
Definition linkinfo_processed (X : externals) (fs : sysfs) (caps : capabilities)
           (inbox : list nlmsg) (segs : list (list Byte.byte)) : Prop :=
  Forall2 (fun m b =>
             (event m <> "NLMSG_ERROR" -> only_os_errors X fs caps m) /\
             linkinfo_segment X fs caps m = Ok b)
          inbox segs.

(** Message [m] ends the call with [e]: its enrichment raises [e], which
    is not an OS error, or the encoder raises [e] on the message as
    enrichment left it. *)
Definition linkinfo_ends_call (X : externals) (fs : sysfs) (caps : capabilities)
           (m : nlmsg) (e : exn) : Prop :=
  event m <> "NLMSG_ERROR" /\
  match fst (compat_fix_attrs X fs caps m) with
  | Raise e' => if is_OSError e' then linkinfo_segment X fs caps m = Raise e
                else e' = e
  | Ok _ => linkinfo_segment X fs caps m = Raise e
  end.

(** The shell is there: every command run ends with an exit code. *)
Definition shell_runs (sys : os) : Prop :=
  forall tr argv, exists rc, os_spawn sys tr argv = Exited rc.

Definition is_bash_spawn (a : action) : bool :=
  match a with
  | Spawn (prog :: _) _ => String.eqb prog "bash"
  | _ => false
  end.

(** The commands run for the pairs of an info-data block, given the exit
    code of each. *)
Definition set_events (X : externals) (kind : string) (ifname : option value)
           (pairs : list attr) (codes : list Z) : list action :=
  map (fun pc => Spawn (set_argv X kind ifname (fst pc)) (Exited (snd pc)))
      (combine pairs codes).

(** What a port function leaves behind, by its outcome: nothing when it
    answers [True]; one successful port operation when it answers [None];
    nothing or one failed port operation when it raises. *)
Definition port_outcome (r : result (option bool)) (done : list action) : Prop :=
  match r with
  | Ok (Some _) => done = []
  | Ok None => exists a, done = [a] /\ port_action a = true /\ succeeded a = true
  | Raise _ =>
      done = [] \/
      exists a, done = [a] /\ port_action a = true /\ succeeded a = false
  end.

(** ** Instances for the examples *)
Module Demo.

Definition newline : string := String (ascii_of_nat 10) EmptyString.

Definition lower (c : ascii) : ascii :=
  let n := nat_of_ascii c in
  if ((65 <=? n) && (n <=? 90))%nat then ascii_of_nat (n + 32) else c.

Fixpoint lower_string (s : string) : string :=
  match s with
  | EmptyString => EmptyString
  | String c r => String (lower c) (lower_string r)
  end.

(** [nla2name] for names that start with the prefix of their class; the
    tables below take the prefixes [IFLA_BOND_] and [IFLA_BR_]. *)
Definition nla2name (prefix name : string) : string :=
  if String.prefix prefix name
  then lower_string (substring (String.length prefix)
                               (String.length name - String.length prefix) name)
  else lower_string name.

Definition mk (type : Z) (ev : string) (a : option (list attr)) (raw : list Byte.byte)
  : nlmsg :=
  {| header_type := type; index := 2; event := ev; attrs := a; data := raw |}.

(** A toy wire format, enough to run the entry points: a message is
    written as the text of its attribute list, and a buffer is read back
    through a table of known messages. *)
Definition encode (m : nlmsg) : list Byte.byte :=
  list_byte_of_string (py_str (VNla (attrs m))).

(** The encoder refuses what cannot be packed: here a number that does
    not fit an unsigned field of 32 bits. *)
Definition fits (a : attr) : bool :=
  match snd a with
  | VInt z => ((0 <=? z) && (z <? 4294967296))%bool
  | _ => true
  end.

Definition encode_checked (m : nlmsg) : result (list Byte.byte) :=
  match attrs m with
  | Some l => if forallb fits l then Ok (encode m) else Raise StructError
  | None => Ok (encode m)
  end.

(** A message read from the buffer [raw]: until it is encoded again its
    [data] is the buffer it was read from, the whole of it. *)
Definition read_from (raw : list Byte.byte) (m : nlmsg) : nlmsg :=
  {| header_type := header_type m; index := index m; event := event m;
     attrs := attrs m; data := raw |}.

Definition externals_with (table : list Byte.byte -> list nlmsg) : externals :=
  {| bond_nla_map := [("IFLA_BOND_MODE", "uint8"); ("IFLA_BOND_MIIMON", "uint32")];
     bridge_nla_map := [("IFLA_BR_FORWARD_DELAY", "uint32");
                        ("IFLA_BR_STP_STATE", "uint32")];
     bond_nla2name := nla2name "IFLA_BOND_";
     bridge_nla2name := nla2name "IFLA_BR_";
     marshal_parse := fun bytes => map (read_from bytes) (table bytes);
     ifinfmsg_decode := fun bytes => match table bytes with
                                     | m :: _ => read_from bytes m
                                     | [] => mk 0 "none" None bytes
                                     end;
     ifinfmsg_encode := encode_checked;
     RTM_VALUES := fun t => if t =? 16 then Some "RTM_NEWLINK"
                            else if t =? 17 then Some "RTM_DELLINK"
                            else None;
     py_bytes_str := fun s => "b'" ++ s ++ "'" |}.

Definition legacy : capabilities :=
  {| provide_master := false; create_bond := false; create_bridge := false |}.

(** [eth0] is a port of the bridge with index 5. *)
Definition fs_port : sysfs :=
  {| fs_open := fun path =>
       if String.eqb path "/sys/class/net/eth0/brport/bridge/ifindex"
       then Opened (ReadOk ("5" ++ newline))
       else OpenError Errno.ENOENT;
     fs_listdir := fun path =>
       if String.eqb path "/sys/class/net/eth0/" then inr ["brport"; "statistics"]
       else inl Errno.ENOENT |}.

(** The same port where the directory of the interface cannot be listed. *)
Definition fs_port_denied : sysfs :=
  {| fs_open := fs_open fs_port;
     fs_listdir := fun _ => inl Errno.EACCES |}.

(** Nothing under [/sys/class/net]. *)
Definition fs_empty : sysfs :=
  {| fs_open := fun _ => OpenError Errno.ENOENT;
     fs_listdir := fun _ => inl Errno.ENOENT |}.

(** The bond [bond0] with two readable attributes. *)
Definition fs_bond : sysfs :=
  {| fs_open := fun path =>
       if String.eqb path "/sys/class/net/bond0/bonding/mode"
       then Opened (ReadOk ("active-backup 1" ++ newline))
       else if String.eqb path "/sys/class/net/bond0/bonding/miimon"
       then Opened (ReadOk ("100" ++ newline))
       else OpenError Errno.ENOENT;
     fs_listdir := fun path =>
       if String.eqb path "/sys/class/net/bond0/" then inr ["bonding"; "statistics"]
       else inl Errno.ENOENT |}.

Definition eth0_with_master : nlmsg :=
  mk 16 "RTM_NEWLINK"
     (Some [("IFLA_IFNAME", VStr "eth0"); ("IFLA_MASTER", VInt 5)]) [].

Definition eth0_plain : nlmsg :=
  mk 16 "RTM_NEWLINK" (Some [("IFLA_IFNAME", VStr "eth0")]) [].

Definition bond0_kind_only : nlmsg :=
  mk 16 "RTM_NEWLINK"
     (Some [("IFLA_IFNAME", VStr "bond0");
            ("IFLA_LINKINFO", VNla (Some [("IFLA_INFO_KIND", VStr "bond")]))]) [].

Definition bond0_with_data : nlmsg :=
  mk 16 "RTM_NEWLINK"
     (Some [("IFLA_IFNAME", VStr "bond0");
            ("IFLA_LINKINFO",
             VNla (Some [("IFLA_INFO_KIND", VStr "bond");
                         ("IFLA_INFO_DATA",
                          VNla (Some [("IFLA_BOND_MIIMON", VInt 100)]))]))]) [].

(** An error reply of the kernel, as the toy format writes it. *)
Definition error_reply : nlmsg :=
  mk 2 "NLMSG_ERROR" (Some []) (list_byte_of_string "{'attrs': []}").

Definition X0 : externals := externals_with (fun _ => []).

(** The tables with a buffer that parses to an error reply followed by
    the message of [eth0]. *)
Definition X_batch : externals := externals_with (fun _ => [error_reply; eth0_plain]).

(** A request that sets two attributes of [bond0]. *)
Definition bond0_two_attrs : nlmsg :=
  mk 16 "RTM_NEWLINK"
     (Some [("IFLA_IFNAME", VStr "bond0");
            ("IFLA_LINKINFO",
             VNla (Some [("IFLA_INFO_KIND", VStr "bond");
                         ("IFLA_INFO_DATA",
                          VNla (Some [("IFLA_BOND_MIIMON", VInt 100);
                                      ("IFLA_BOND_MODE", VInt 1)]))]))]) [].

(** Requests that attach [eth0] to the interface with index 7 and detach
    it from its master. *)
Definition eth0_attach : nlmsg :=
  mk 16 "RTM_NEWLINK"
     (Some [("IFLA_IFNAME", VStr "eth0"); ("IFLA_MASTER", VInt 7)]) [].

Definition eth0_detach : nlmsg :=
  mk 16 "RTM_NEWLINK"
     (Some [("IFLA_IFNAME", VStr "eth0"); ("IFLA_MASTER", VInt 0)]) [].

Definition eth0_enslaved : nlmsg :=
  mk 16 "RTM_NEWLINK"
     (Some [("IFLA_IFNAME", VStr "eth0"); ("IFLA_MASTER", VInt 7)]) [].

(** A system where the n-th action answers with code n: every command
    fails, each with its own code. *)
Definition sys_failing : os :=
  {| os_spawn := fun tr _ => Exited (Z.of_nat (List.length tr) + 1);
     os_write := fun tr _ _ => Z.of_nat (List.length tr) + 1;
     os_tun_open := fun _ => 0;
     os_ioctl := fun _ _ _ => 0;
     os_get_links := fun _ _ => Ok [] |}.

(** A system where everything succeeds; index 7 is [bond0] and index 2
    is [eth0], a port of it. *)
Definition sys_bond : os :=
  {| os_spawn := fun _ _ => Exited 0;
     os_write := fun _ _ _ => 0;
     os_tun_open := fun _ => 0;
     os_ioctl := fun _ _ _ => 0;
     os_get_links := fun _ idx =>
       match idx with
       | Some (VInt 7) => Ok [bond0_kind_only]
       | Some (VInt 2) => Ok [eth0_enslaved]
       | _ => Ok []
       end |}.

Definition X_of (m : nlmsg) : externals := externals_with (fun _ => [m]).

Definition x86_64 : platform := {| machine := "x86_64"; big_endian := false |}.
Definition sparc64 : platform := {| machine := "sparc64"; big_endian := true |}.

(** tun/tap requests: one without a mode, one with a name of 21
    characters, one that is in order. *)
Definition tuntap_request (name : string) (info : list attr) : nlmsg :=
  mk 16 "RTM_NEWLINK"
     (Some [("IFLA_IFNAME", VStr name);
            ("IFLA_LINKINFO",
             VNla (Some [("IFLA_INFO_KIND", VStr "tuntap");
                         ("IFLA_INFO_DATA", VNla (Some info))]))]) [].

Definition tun_no_mode : nlmsg := tuntap_request "tun0" [("IFTUN_UID", VInt 1000)].

Definition tun_long_name : nlmsg :=
  tuntap_request "averyveryverylongname" [("IFTUN_MODE", VStr "tun")].

Definition tun_good : nlmsg := tuntap_request "tun0" [("IFTUN_MODE", VStr "tun")].

(** Two calls of a decorated function that creates [bond0] through
    sysfs: one on a system where the write succeeds, one where it fails. *)
Definition create_bond0_on (sys : os) : SyncProtocol.call unit :=
  SyncProtocol.Build_call unit X0
    (fun msg => write_file sys _BONDING_MASTERS
                           ("+" ++ py_str_opt (get_attr msg "IFLA_IFNAME")))
    bond0_kind_only true 1.

Definition call_ok : SyncProtocol.call unit := create_bond0_on sys_bond.
Definition call_failing : SyncProtocol.call unit := create_bond0_on sys_failing.

(** The notification the kernel sends when [bond0] appears. *)
Definition bond0_created : SyncProtocol.notification :=
  {| SyncProtocol.n_event := Some "RTM_NEWLINK";
     SyncProtocol.n_ifname := Some (VStr "bond0") |}.

(** The watcher is bound before the function runs; the notification
    arrives and is read before the calling thread enters [finally]. *)
Definition schedule_notified : list SyncProtocol.label :=
  [SyncProtocol.RunMain; SyncProtocol.RunMain; SyncProtocol.RunWatcher;
   SyncProtocol.RunMain; SyncProtocol.Notify [bond0_created];
   SyncProtocol.RunWatcher; SyncProtocol.RunWatcher; SyncProtocol.RunWatcher;
   SyncProtocol.RunMain;
   SyncProtocol.RunWatcher; SyncProtocol.RunWatcher;
   SyncProtocol.RunMain; SyncProtocol.RunMain; SyncProtocol.RunMain].

(** The kernel sends nothing; the calling thread writes to the pipe
    before the watcher has polled once. *)
Definition schedule_silent : list SyncProtocol.label :=
  [SyncProtocol.RunMain; SyncProtocol.RunMain; SyncProtocol.RunMain;
   SyncProtocol.RunMain;
   SyncProtocol.RunWatcher; SyncProtocol.RunWatcher; SyncProtocol.RunWatcher;
   SyncProtocol.RunMain; SyncProtocol.RunMain; SyncProtocol.RunMain].

End Demo.

(** ** Notions used in the further properties *)

(** A value as enrichment may leave it: as it was, or, for the link-info
    block, with attributes added at its end. *)
Definition value_extended (name : string) (v v' : value) : Prop :=
  v' = v \/
  (name = "IFLA_LINKINFO" /\
   exists li more, v = VNla (Some li) /\ v' = VNla (Some (li ++ more)%list)).

Definition attr_extended (a a' : attr) : Prop :=
  fst a' = fst a /\ value_extended (fst a) (snd a) (snd a').

(** An attribute list with every attribute kept in its place and new
    ones added at the end. *)
Definition attrs_extended (l l' : list attr) : Prop :=
  exists kept added, l' = (kept ++ added)%list /\ Forall2 attr_extended l kept.

Definition msg_extended (m m' : nlmsg) : Prop :=
  header_type m' = header_type m /\ index m' = index m /\
  event m' = event m /\ data m' = data m /\
  match attrs m, attrs m' with
  | None, None => True
  | Some l, Some l' => attrs_extended l l'
  | _, _ => False
  end.

(** A computation on the message that, whatever its outcome, only
    extends it. *)
Definition only_extends {A} (c : Mut A) : Prop :=
  forall m, msg_extended m (snd (c m)).

Definition is_ioctl (a : action) : bool :=
  match a with Ioctl _ _ _ => true | _ => false end.

Definition ioctl_ok (a : action) : bool :=
  match a with Ioctl _ _ errno => errno =? 0 | _ => false end.

(** A computation that does nothing but issue between [lo] and [hi]
    ioctls, stops at the first one that fails, so that every ioctl but
    the last one succeeded, returns when all went well and raises the
    error of the system otherwise. *)
Definition issues_ioctls (c : IO unit) (lo hi : nat) : Prop :=
  forall tr, exists ios,
    snd (c tr) = (tr ++ ios)%list /\
    forallb is_ioctl ios = true /\
    (lo <= List.length ios <= hi)%nat /\
    forallb ioctl_ok (removelast ios) = true /\
    (fst (c tr) = Ok tt <-> forallb ioctl_ok ios = true) /\
    (fst (c tr) = Ok tt \/ exists errno, fst (c tr) = Raise (OSError errno)).

(** The master a set-link request is about, as lines 187-197 find it:
    for an attachment the link with the index the request names, for a
    removal the master of the link the request is about. *)
Definition resolves_master (sys : os) (msg : nlmsg) (tr : list action)
           (add : bool) (master : iface) : Prop :=
  if add
  then exists idx,
         get_attr msg "IFLA_MASTER" = Some (VInt idx) /\ idx <> 0 /\
         fst (get_interface sys (Some (VInt idx)) tr) = Ok master
  else exists port,
         get_attr msg "IFLA_MASTER" = Some (VInt 0) /\
         fst (get_interface sys (Some (VInt (index msg))) tr) = Ok port /\
         fst (get_interface sys (if_master port) tr) = Ok master.

(** The same tables with another decoder of requests. *)
Definition with_decode (X : externals) (decode : list Byte.byte -> nlmsg) : externals :=
  {| bond_nla_map := bond_nla_map X;
     bridge_nla_map := bridge_nla_map X;
     bond_nla2name := bond_nla2name X;
     bridge_nla2name := bridge_nla2name X;
     marshal_parse := marshal_parse X;
     ifinfmsg_decode := decode;
     ifinfmsg_encode := ifinfmsg_encode X;
     RTM_VALUES := RTM_VALUES X;
     py_bytes_str := py_bytes_str X |}.

(** The message [proxy_dellink] hands to an executor: the interface as
    the link table describes it, under the header type of the request. *)
Definition dellink_target (orig found : nlmsg) : nlmsg :=
  {| header_type := header_type orig; index := index found;
     event := event found; attrs := attrs found; data := data found |}.

(** ** More instances for the examples *)
Module Cases.

(** An inbound buffer. *)
Definition wire : list Byte.byte := list_byte_of_string "wire".

(** The bridge-port file of [eth0] holds a number of 33 bits. *)
Definition fs_huge_master : sysfs :=
  {| fs_open := fun path =>
       if String.eqb path "/sys/class/net/eth0/brport/bridge/ifindex"
       then Opened (ReadOk "4294967296")
       else OpenError Errno.ENOENT;
     fs_listdir := fun _ => inl Errno.ENOENT |}.

(** The bridge-port file of [eth0] holds a text that is not a number. *)
Definition fs_garbage : sysfs :=
  {| fs_open := fun path =>
       if String.eqb path "/sys/class/net/eth0/brport/bridge/ifindex"
       then Opened (ReadOk "none")
       else OpenError Errno.ENOENT;
     fs_listdir := fun _ => inl Errno.ENOENT |}.

(** A batch of an error reply, the message of [eth0] and the message of
    [bond0]. *)
Definition X_three : externals :=
  Demo.externals_with
    (fun _ => [Demo.error_reply; Demo.eth0_plain; Demo.bond0_kind_only]).

(** A system with a fixed link table, where the outcome of a command is
    read off its argument vector and every write succeeds. *)
Definition sys_with (spawn : list string -> spawn_outcome) (links : list nlmsg) : os :=
  {| os_spawn := fun _ argv => spawn argv;
     os_write := fun _ _ _ => 0;
     os_tun_open := fun _ => 0;
     os_ioctl := fun _ _ _ => 0;
     os_get_links := fun _ _ => Ok links |}.

(** [ip] exits with 1, every other command with 0. *)
Definition ip_fails (argv : list string) : spawn_outcome :=
  match argv with
  | prog :: _ => if String.eqb prog "ip" then Exited 1 else Exited 0
  | [] => Exited 0
  end.

(** A delete request that carries nothing but the index. *)
Definition del_request : nlmsg := Demo.mk 17 "RTM_DELLINK" None [].

(** The same request with a link-info block that claims the kind bond. *)
Definition del_request_claiming_bond : list attr :=
  [("IFLA_LINKINFO", VNla (Some [("IFLA_INFO_KIND", VStr "bond")]))].

Definition br0 : nlmsg :=
  Demo.mk 16 "RTM_NEWLINK"
    (Some [("IFLA_IFNAME", VStr "br0");
           ("IFLA_LINKINFO", VNla (Some [("IFLA_INFO_KIND", VStr "bridge")]))]) [].

(** The data of a tun request that asks for the virtio header only. *)
Definition tun_vnet_hdr : option (list attr) :=
  Some [("IFTUN_MODE", VStr "tun");
        ("IFTUN_IFR", VDict [("no_pi", 0); ("one_queue", 0);
                             ("vnet_hdr", 1); ("multi_queue", 0)])].

(** A decorated call on a message whose type the table does not name. *)
Definition call_untyped : SyncProtocol.call unit :=
  SyncProtocol.Build_call unit Demo.X0
    (fun msg => write_file Demo.sys_bond _BONDING_MASTERS
                           ("+" ++ py_str_opt (get_attr msg "IFLA_IFNAME")))
    (Demo.mk 99 "RTM_OTHER" (Some [("IFLA_IFNAME", VStr "bond0")]) []) true 1.

Definition team0 : nlmsg :=
  Demo.mk 16 "RTM_NEWLINK"
    (Some [("IFLA_IFNAME", VStr "team0");
           ("IFLA_LINKINFO", VNla (Some [("IFLA_INFO_KIND", VStr "team")]))]) [].

(** A kernel that creates bonds and bridges itself. *)
Definition modern : capabilities :=
  {| provide_master := true; create_bond := true; create_bridge := true |}.

(** A set-link request with two settings for [bond0]. *)
Definition bond0_two_settings : nlmsg :=
  Demo.mk 16 "RTM_NEWLINK"
    (Some [("IFLA_IFNAME", VStr "bond0");
           ("IFLA_LINKINFO",
            VNla (Some [("IFLA_INFO_KIND", VStr "bond");
                        ("IFLA_INFO_DATA",
                         VNla (Some [("IFLA_BOND_MODE", VInt 1);
                                     ("IFLA_BOND_MIIMON", VInt 100)]))]))]) [].

(** [eth0] with both master files: a port of the bridge with index 5
    that the bonding driver reports as a port of index 9. *)
Definition fs_port_of_bond : sysfs :=
  {| fs_open := fun path =>
       if String.eqb path "/sys/class/net/eth0/brport/bridge/ifindex"
       then Opened (ReadOk ("5" ++ Demo.newline))
       else if String.eqb path "/sys/class/net/eth0/master/ifindex"
       then Opened (ReadOk ("9" ++ Demo.newline))
       else OpenError Errno.ENOENT;
     fs_listdir := fun _ => inl Errno.ENOENT |}.

(** The tables of [X] with the attribute names of the package, which
    drops the prefix [IFLA_] only. *)
Definition packaged (X : externals) : externals :=
  {| bond_nla_map := bond_nla_map X;
     bridge_nla_map := bridge_nla_map X;
     bond_nla2name := Demo.nla2name "IFLA_";
     bridge_nla2name := Demo.nla2name "IFLA_";
     marshal_parse := marshal_parse X;
     ifinfmsg_decode := ifinfmsg_decode X;
     ifinfmsg_encode := ifinfmsg_encode X;
     RTM_VALUES := RTM_VALUES X;
     py_bytes_str := py_bytes_str X |}.

(** The second command cannot be started; the first exits with 1. *)
Definition sys_shell_lost : os :=
  {| os_spawn := fun tr _ => match tr with
                             | [] => Exited 1
                             | _ => SpawnError Errno.ENOENT
                             end;
     os_write := fun _ _ _ => 0;
     os_tun_open := fun _ => 0;
     os_ioctl := fun _ _ _ => 0;
     os_get_links := fun _ _ => Ok [] |}.



End Cases.

(** * Properties *)

(** ** Enrichment: the master index *)

Lemma app_one_neq {T} (l : list T) (a : T) : (l ++ [a])%list <> l.
Proof.
  intros H. apply (f_equal (@List.length T)) in H.
  rewrite length_app in H. simpl in H. lia.
Qed.

Lemma set_attrs_same (m : nlmsg) : set_attrs m (attrs m) = m.
Proof. destruct m; reflexivity. Qed.

(** When both files fail to open there is no master. *)
Lemma compat_get_master_none X fs name e1 e2 :
  fs_open fs (_BRIDGE_MASTER (py_str_opt name)) = OpenError e1 ->
  fs_open fs (_BONDING_MASTER (py_str_opt name)) = OpenError e2 ->
  compat_get_master X fs name = Ok None.
Proof.
  intros H1 H2. unfold compat_get_master, first_master_file, open_master_file.
  rewrite H1, H2. reflexivity.
Qed.

(** The bridge-port file is tried first and decides when it opens. *)
Lemma compat_get_master_bridge X fs name content idx :
  fs_open fs (_BRIDGE_MASTER (py_str_opt name)) = Opened (ReadOk content) ->
  py_int content = Some idx ->
  compat_get_master X fs name = Ok (Some idx).
Proof.
  intros H1 H2. unfold compat_get_master, first_master_file, open_master_file.
  rewrite H1, H2. reflexivity.
Qed.

(** The bonding-port file is read when the bridge-port file does not open. *)
Lemma compat_get_master_bonding X fs name e content idx :
  fs_open fs (_BRIDGE_MASTER (py_str_opt name)) = OpenError e ->
  fs_open fs (_BONDING_MASTER (py_str_opt name)) = Opened (ReadOk content) ->
  py_int content = Some idx ->
  compat_get_master X fs name = Ok (Some idx).
Proof.
  intros H1 H2 H3. unfold compat_get_master, first_master_file, open_master_file.
  rewrite H1, H2, H3. reflexivity.
Qed.

(** C1, as amended: with the [provide_master] capability absent, the
    master step appends the index read from sysfs whenever one is resolved,
    whether or not the message already carries [IFLA_MASTER]; and it
    changes the message if and only if a master is resolved (and the
    message has an attribute list to append to).  When no master is
    resolved the message is left as it was. *)
Theorem C1_master_appended_iff_resolved
        (X : externals) (fs : sysfs) (caps : capabilities) (msg : nlmsg) :
  provide_master caps = false ->
  let ifname := get_attr msg "IFLA_IFNAME" in
  let out := fix_master X fs caps ifname msg in
  (forall idx l,
      compat_get_master X fs ifname = Ok (Some idx) ->
      attrs msg = Some l ->
      out = (Ok tt, set_attrs msg (Some (l ++ [("IFLA_MASTER", VInt idx)])%list))) /\
  ((forall idx, compat_get_master X fs ifname <> Ok (Some idx)) -> snd out = msg) /\
  (snd out <> msg <->
   (exists idx, compat_get_master X fs ifname = Ok (Some idx)) /\ attrs msg <> None).
Proof.
  intros Hcap ifname out. subst out.
  unfold fix_master. rewrite Hcap. simpl negb. cbv iota.
  unfold bind, lift, append_attr, ret.
  destruct (compat_get_master X fs ifname) as [[idx|]|e] eqn:Hm; cbv beta iota.
  - destruct (attrs msg) as [l|] eqn:Ha; simpl; rewrite ?Ha.
    + split; [|split].
      * intros idx' l' Hi Hl. injection Hi as ->. injection Hl as ->. reflexivity.
      * intros Hno. exfalso. apply (Hno idx). reflexivity.
      * split.
        -- intros _. split; [exists idx; reflexivity | discriminate].
        -- intros _ Heq. apply (f_equal attrs) in Heq. simpl in Heq.
           rewrite Ha in Heq. injection Heq as Heq.
           exact (app_one_neq _ _ Heq).
    + split; [|split].
      * intros idx' l' _ Hl. discriminate.
      * reflexivity.
      * split; [intros H; exfalso; apply H; reflexivity|].
        intros [_ H]. exfalso. apply H. reflexivity.
  - simpl. split; [|split].
    + intros idx l H. discriminate.
    + reflexivity.
    + split; [intros H; exfalso; apply H; reflexivity|].
      intros [[idx H] _]. discriminate.
  - simpl. split; [|split].
    + intros idx l H. discriminate.
    + reflexivity.
    + split; [intros H; exfalso; apply H; reflexivity|].
      intros [[idx H] _]. discriminate.
Qed.

(** On [eth0], a port of the bridge with index 5. *)
Lemma C1_master_appended_iff_resolved_witness :
  provide_master Demo.legacy = false /\
  fix_master (Demo.externals_with (fun _ => [])) Demo.fs_port Demo.legacy
             (Some (VStr "eth0")) Demo.eth0_plain
  = (Ok tt,
     set_attrs Demo.eth0_plain
               (Some [("IFLA_IFNAME", VStr "eth0"); ("IFLA_MASTER", VInt 5)])).
Proof.
  split; [reflexivity|].
  destruct (C1_master_appended_iff_resolved
              (Demo.externals_with (fun _ => [])) Demo.fs_port Demo.legacy
              Demo.eth0_plain eq_refl) as [H _].
  apply (H 5 [("IFLA_IFNAME", VStr "eth0")]); reflexivity.
Defined.

(** C1 as stated fails: a message that already carries [IFLA_MASTER] is
    given a second one when sysfs resolves a master. *)
Lemma C1_counterexample :
  provide_master Demo.legacy = false /\
  get_attr Demo.eth0_with_master "IFLA_MASTER" = Some (VInt 5) /\
  attrs (snd (fix_master (Demo.externals_with (fun _ => [])) Demo.fs_port Demo.legacy
                         (get_attr Demo.eth0_with_master "IFLA_IFNAME")
                         Demo.eth0_with_master))
  = Some [("IFLA_IFNAME", VStr "eth0"); ("IFLA_MASTER", VInt 5);
          ("IFLA_MASTER", VInt 5)] /\
  attrs (snd (fix_master (Demo.externals_with (fun _ => [])) Demo.fs_port Demo.legacy
                         (get_attr Demo.eth0_with_master "IFLA_IFNAME")
                         Demo.eth0_with_master))
  <> attrs Demo.eth0_with_master.
Proof.
  repeat split; try reflexivity. vm_compute. discriminate.
Qed.

(** ** Enrichment: the info-data block *)

(** The loop over the attribute table never raises: a file that cannot be
    read contributes nothing and the loop goes on with the next name. *)
Lemma read_commands_skips_failed fs t nla2name ifname cmd ty rest :
  read_command fs t nla2name ifname cmd = None ->
  read_commands fs t nla2name ifname ((cmd, ty) :: rest)
  = read_commands fs t nla2name ifname rest.
Proof. intros H. simpl. rewrite H. reflexivity. Qed.

(** With no info-data block in the link-info block, lines 86-109 leave the
    message as it is, whatever sysfs holds. *)
Lemma fetch_info_data_absent X fs ifname kind (m : nlmsg) l :
  get_attr m "IFLA_LINKINFO" = Some (VNla (Some l)) ->
  has_info_data l = false ->
  fetch_info_data X fs ifname kind m = (Ok tt, m).
Proof.
  intros Hli Hno. unfold fetch_info_data, bind, get_state, ret.
  destruct (value_is_str kind "bridge" || value_is_str kind "bond")%bool;
    [|reflexivity].
  rewrite Hli, Hno. reflexivity.
Qed.

(** C3, the code at two inputs.  For the bond [bond0], whose [mode] and
    [miimon] files can be read: a message with a link-info block that has
    no info-data comes back unchanged, and a message that already has an
    info-data block is given a second one built from sysfs. *)
Theorem C3_info_data_read_when_present_not_absent :
  compat_fix_attrs Demo.X0 Demo.fs_bond Demo.legacy Demo.bond0_kind_only
  = (Ok tt, Demo.bond0_kind_only) /\
  attrs (snd (compat_fix_attrs Demo.X0 Demo.fs_bond Demo.legacy Demo.bond0_with_data))
  = Some [("IFLA_IFNAME", VStr "bond0");
          ("IFLA_LINKINFO",
           VNla (Some [("IFLA_INFO_KIND", VStr "bond");
                       ("IFLA_INFO_DATA", VNla (Some [("IFLA_BOND_MIIMON", VInt 100)]));
                       ("IFLA_INFO_DATA",
                        VNla (Some [("IFLA_BOND_MODE", VInt 1);
                                    ("IFLA_BOND_MIIMON", VInt 100)]))]))].
Proof. split; vm_compute; reflexivity. Qed.

(** ** The info-response path *)

Lemma linkinfo_step_processed X fs caps m b :
  (event m <> "NLMSG_ERROR" -> only_os_errors X fs caps m) ->
  linkinfo_segment X fs caps m = Ok b ->
  linkinfo_step X fs caps m = Ok b.
Proof.
  intros H Hseg. unfold linkinfo_step. unfold linkinfo_segment in Hseg.
  destruct (String.eqb (event m) "NLMSG_ERROR") eqn:He; [exact Hseg|].
  apply String.eqb_neq in He. specialize (H He). unfold only_os_errors in H.
  destruct (compat_fix_attrs X fs caps m) as [[u|e] m']; simpl in *.
  - exact Hseg.
  - rewrite (H e eq_refl). exact Hseg.
Qed.

Lemma linkinfo_step_ok X fs caps m b :
  linkinfo_step X fs caps m = Ok b ->
  (event m <> "NLMSG_ERROR" -> only_os_errors X fs caps m) /\
  linkinfo_segment X fs caps m = Ok b.
Proof.
  unfold linkinfo_step, linkinfo_segment, only_os_errors. intros H.
  destruct (String.eqb (event m) "NLMSG_ERROR") eqn:He.
  - apply String.eqb_eq in He. split; [intros Hne; contradiction | exact H].
  - destruct (compat_fix_attrs X fs caps m) as [[u|e] m']; simpl in *.
    + split; [intros _ e' He'; discriminate | exact H].
    + destruct (is_OSError e) eqn:Hos; [|discriminate].
      split; [|exact H]. intros _ e' He'. injection He' as <-. exact Hos.
Qed.

Lemma linkinfo_step_raise X fs caps m e :
  linkinfo_step X fs caps m = Raise e <-> linkinfo_ends_call X fs caps m e.
Proof.
  unfold linkinfo_step, linkinfo_ends_call, linkinfo_segment.
  destruct (String.eqb (event m) "NLMSG_ERROR") eqn:He.
  - apply String.eqb_eq in He. split; [discriminate | intros [Hne _]; contradiction].
  - apply String.eqb_neq in He.
    destruct (compat_fix_attrs X fs caps m) as [[u|e'] m']; simpl.
    + split; [intros H; split; assumption | intros [_ H]; exact H].
    + destruct (is_OSError e').
      * split; [intros H; split; assumption | intros [_ H]; exact H].
      * split; [intros H; injection H as ->; split; [assumption | reflexivity]
               | intros [_ ->]; reflexivity].
Qed.

Lemma linkinfo_loop_processed X fs caps inbox segs :
  linkinfo_processed X fs caps inbox segs ->
  forall buf,
    linkinfo_loop X fs caps inbox buf = Ok (buf ++ List.concat segs)%list.
Proof.
  unfold linkinfo_processed. induction 1 as [|m b inbox segs [Hos Hseg] _ IH];
    intros buf; simpl.
  - rewrite app_nil_r. reflexivity.
  - rewrite (linkinfo_step_processed X fs caps m b Hos Hseg), IH, app_assoc.
    reflexivity.
Qed.

Lemma linkinfo_loop_app X fs caps (pre rest : list nlmsg) segs :
  linkinfo_processed X fs caps pre segs ->
  forall buf,
    linkinfo_loop X fs caps (pre ++ rest) buf
    = linkinfo_loop X fs caps rest (buf ++ List.concat segs)%list.
Proof.
  unfold linkinfo_processed. induction 1 as [|m b pre segs [Hos Hseg] _ IH];
    intros buf; simpl.
  - rewrite app_nil_r. reflexivity.
  - rewrite (linkinfo_step_processed X fs caps m b Hos Hseg), IH, app_assoc.
    reflexivity.
Qed.

Lemma linkinfo_loop_outcome X fs caps inbox :
  forall buf,
    match linkinfo_loop X fs caps inbox buf with
    | Ok out =>
        exists segs,
          linkinfo_processed X fs caps inbox segs /\
          out = (buf ++ List.concat segs)%list
    | Raise e =>
        exists pre m post segs,
          inbox = (pre ++ m :: post)%list /\
          linkinfo_processed X fs caps pre segs /\
          linkinfo_ends_call X fs caps m e
    end.
Proof.
  induction inbox as [|m rest IH]; intros buf; simpl.
  - exists []. split; [constructor | rewrite app_nil_r; reflexivity].
  - destruct (linkinfo_step X fs caps m) as [b|e] eqn:Hstep.
    + apply linkinfo_step_ok in Hstep.
      specialize (IH (buf ++ b)%list).
      destruct (linkinfo_loop X fs caps rest (buf ++ b)%list) as [out|e].
      * destruct IH as [segs [Hp ->]]. exists (b :: segs). split.
        -- constructor; assumption.
        -- simpl. rewrite app_assoc. reflexivity.
      * destruct IH as [pre [x [post [segs [-> [Hp He]]]]]].
        exists (m :: pre), x, post, (b :: segs). split; [reflexivity|].
        split; [constructor; assumption | exact He].
    + apply linkinfo_step_raise in Hstep.
      exists [], m, rest, []. split; [reflexivity|]. split; [constructor | exact Hstep].
Qed.

(** An exception of another class ends the call: nothing is returned. *)
Lemma linkinfo_loop_aborts X fs caps m rest buf e :
  linkinfo_ends_call X fs caps m e ->
  linkinfo_loop X fs caps (m :: rest) buf = Raise e.
Proof.
  intros He. simpl. apply linkinfo_step_raise in He. rewrite He. reflexivity.
Qed.

(** C8, as amended.  The messages of the batch are processed in order.
    An [NLMSG_ERROR] message adds the content of its [data] field, as the
    parser left it, and is neither enriched nor encoded; any other
    message is enriched and encoded again, where an OS error raised by
    enrichment is caught and the message is encoded as enrichment left
    it.  The call returns a buffer, with the forward verdict, exactly
    when every message is processed in this way, and the buffer is then
    the concatenation of what the messages added; it raises [e], and
    returns no buffer, exactly when the first message that is not
    processed in this way has an enrichment that raises [e], not an OS
    error, or an encoding that raises [e].  It never answers without a
    buffer otherwise. *)
Theorem C8_linkinfo_batch
        (X : externals) (fs : sysfs) (caps : capabilities) (bytes : list Byte.byte) :
  (forall buf,
      proxy_linkinfo X fs caps bytes = Ok (Forward buf) <->
      exists segs,
        linkinfo_processed X fs caps (marshal_parse X bytes) segs /\
        buf = List.concat segs) /\
  (forall e,
      proxy_linkinfo X fs caps bytes = Raise e <->
      exists pre m post segs,
        marshal_parse X bytes = (pre ++ m :: post)%list /\
        linkinfo_processed X fs caps pre segs /\
        linkinfo_ends_call X fs caps m e) /\
  proxy_linkinfo X fs caps bytes <> Ok Consumed.
Proof.
  unfold proxy_linkinfo.
  pose proof (linkinfo_loop_outcome X fs caps (marshal_parse X bytes) []) as Hout.
  split; [|split].
  - intros buf. split.
    + intros H.
      destruct (linkinfo_loop X fs caps (marshal_parse X bytes) []) as [out|e];
        [|discriminate].
      injection H as <-. exact Hout.
    + intros [segs [Hp ->]].
      rewrite (linkinfo_loop_processed X fs caps _ segs Hp). reflexivity.
  - intros e. split.
    + intros H.
      destruct (linkinfo_loop X fs caps (marshal_parse X bytes) []) as [out|e'];
        [discriminate|].
      injection H as <-. exact Hout.
    + intros [pre [m [post [segs [Hparse [Hp He]]]]]].
      rewrite Hparse, (linkinfo_loop_app X fs caps pre (m :: post) segs Hp).
      rewrite (linkinfo_loop_aborts X fs caps m post _ e He). reflexivity.
  - destruct (linkinfo_loop X fs caps (marshal_parse X bytes) []); discriminate.
Qed.

(** On a buffer read as an error reply followed by the message of
    [eth0], where the master of [eth0] is read and the directory listing
    is then denied: the error reply adds the buffer it was read from, and
    [eth0] goes out with the master that was appended before the error. *)
Lemma C8_linkinfo_batch_witness :
  proxy_linkinfo Demo.X_batch Demo.fs_port_denied Demo.legacy Cases.wire
  = Ok (Forward (Cases.wire
                   ++ Demo.encode
                        (set_attrs Demo.eth0_plain
                           (Some [("IFLA_IFNAME", VStr "eth0");
                                  ("IFLA_MASTER", VInt 5)])))%list).
Proof.
  apply (proj1 (C8_linkinfo_batch Demo.X_batch Demo.fs_port_denied Demo.legacy
                                  Cases.wire)).
  exists [Cases.wire;
          Demo.encode (set_attrs Demo.eth0_plain
                         (Some [("IFLA_IFNAME", VStr "eth0");
                                ("IFLA_MASTER", VInt 5)]))].
  split.
  - constructor; [|constructor; [|constructor]].
    + split; [intros Hne; exfalso; apply Hne; reflexivity | reflexivity].
    + split; [|vm_compute; reflexivity].
      intros _ e He. vm_compute in He. injection He as <-. reflexivity.
  - vm_compute. reflexivity.
Defined.

(** C8 as stated fails in three ways: an error reply in the batch is
    neither enriched nor encoded again; a message whose enrichment raised
    an OS error after the master was appended is sent with that
    attribute, not as it came; and there are batches for which no buffer
    is returned, here because a master file holds no number and because
    a master index does not fit its field. *)
Lemma C8_counterexample :
  proxy_linkinfo (Demo.externals_with (fun _ => [Demo.error_reply]))
                 Demo.fs_empty Demo.legacy Cases.wire
  <> match linkinfo_as_specified
             (Demo.externals_with (fun _ => [Demo.error_reply]))
             Demo.fs_empty Demo.legacy
             (marshal_parse (Demo.externals_with (fun _ => [Demo.error_reply]))
                            Cases.wire) with
     | Ok buf => Ok (Forward buf)
     | Raise e => Raise e
     end /\
  proxy_linkinfo (Demo.externals_with (fun _ => [Demo.eth0_plain]))
                 Demo.fs_port_denied Demo.legacy Cases.wire
  <> match linkinfo_as_specified
             (Demo.externals_with (fun _ => [Demo.eth0_plain]))
             Demo.fs_port_denied Demo.legacy
             (marshal_parse (Demo.externals_with (fun _ => [Demo.eth0_plain]))
                            Cases.wire) with
     | Ok buf => Ok (Forward buf)
     | Raise e => Raise e
     end /\
  proxy_linkinfo Demo.X_batch Cases.fs_garbage Demo.legacy Cases.wire
  = Raise (ValueError "invalid literal for int() with base 10: 'none'") /\
  proxy_linkinfo Demo.X_batch Cases.fs_huge_master Demo.legacy Cases.wire
  = Raise StructError.
Proof.
  split; [|split; [|split]]; vm_compute; try discriminate; reflexivity.
Qed.

(** ** Modify-link: the attribute writes *)

Lemma first_nonzero_app (l : list Z) (x : Z) :
  first_nonzero (l ++ [x])
  = if first_nonzero l =? 0 then x else first_nonzero l.
Proof.
  unfold first_nonzero. induction l as [|a l IH]; simpl.
  - destruct (x =? 0) eqn:Hx; simpl; [apply Z.eqb_eq in Hx; congruence | reflexivity].
  - destruct (a =? 0) eqn:Ha; simpl.
    + exact IH.
    + rewrite Ha. reflexivity.
Qed.

Lemma last_nonzero_cons (rc : Z) (codes : list Z) :
  last_nonzero (rc :: codes)
  = if last_nonzero codes =? 0 then rc else last_nonzero codes.
Proof. unfold last_nonzero. simpl. apply first_nonzero_app. Qed.

(** The loop with a function that runs one command per pair: every pair
    is reached, and the code kept is the last one that is not zero. *)
Lemma set_loop_runs_all (sys : os) (mk_argv : attr -> list string)
      (func : option value -> string -> value -> IO Z)
      (nla2name : string -> string) (ifname : option value) :
  shell_runs sys ->
  (forall cmd v, func ifname (nla2name cmd) v = subprocess_call sys (mk_argv (cmd, v))) ->
  forall pairs code tr,
  exists codes,
    List.length codes = List.length pairs /\
    set_loop func nla2name ifname pairs code tr
    = (Ok (if last_nonzero codes =? 0 then code else last_nonzero codes),
       tr ++ map (fun pc => Spawn (mk_argv (fst pc)) (Exited (snd pc)))
                 (combine pairs codes))%list.
Proof.
  intros Hsh Hf. induction pairs as [|[cmd v] rest IH]; intros code tr.
  - exists []. split; [reflexivity|]. simpl. rewrite app_nil_r. reflexivity.
  - destruct (Hsh tr (mk_argv (cmd, v))) as [rc Hrc].
    destruct (IH (if rc =? 0 then code else rc)
                 (tr ++ [Spawn (mk_argv (cmd, v)) (Exited rc)])%list)
      as [codes [Hlen Hrun]].
    exists (rc :: codes). split; [simpl; congruence|].
    simpl set_loop. unfold bind. rewrite Hf. unfold subprocess_call.
    rewrite Hrc. rewrite Hrun. rewrite last_nonzero_cons.
    simpl combine. simpl map. rewrite <- app_assoc. simpl.
    f_equal. f_equal.
    destruct (last_nonzero codes =? 0) eqn:HL; [reflexivity|].
    rewrite HL. reflexivity.
Qed.

Lemma exit_codes_set_events X kind ifname pairs codes :
  List.length codes = List.length pairs ->
  exit_codes (set_events X kind ifname pairs codes) = codes.
Proof.
  revert codes. induction pairs as [|p rest IH]; intros [|c codes] Hlen;
    simpl in *; try discriminate; try reflexivity.
  f_equal. apply IH. congruence.
Qed.

(** Lines 166-181 on a bond or bridge request with an info-data block. *)
Lemma set_stage_runs_all X sys kind ifname d pairs tr :
  shell_runs sys ->
  kind = "bond" \/ kind = "bridge" ->
  infodata_pairs d = Ok pairs ->
  exists codes,
    List.length codes = List.length pairs /\
    set_stage X sys ifname (Some (VStr kind)) (Some d) tr
    = (if last_nonzero codes =? 0 then Ok tt
       else Raise (OSError (last_nonzero codes)),
       tr ++ set_events X kind ifname pairs codes)%list.
Proof.
  intros Hsh Hkind Hpairs. unfold set_stage, set_events.
  destruct Hkind as [-> | ->];
    [ change (value_is_str (Some (VStr "bond")) "bond") with true
    | change (value_is_str (Some (VStr "bridge")) "bond") with false;
      change (value_is_str (Some (VStr "bridge")) "bridge") with true ];
    cbn [orb]; cbv iota; unfold bind, lift; cbv beta; rewrite Hpairs; cbv beta iota.
  - destruct (set_loop_runs_all sys (set_argv X "bond" ifname) (compat_set_bond sys)
                                (bond_nla2name X) ifname Hsh
                                (fun cmd v => eq_refl) pairs 0 tr)
      as [codes [Hlen Hrun]].
    exists codes. split; [exact Hlen|]. rewrite Hrun.
    destruct (last_nonzero codes =? 0) eqn:Hz; simpl; rewrite ?Hz; reflexivity.
  - destruct (set_loop_runs_all sys (set_argv X "bridge" ifname) (compat_set_bridge sys)
                                (bridge_nla2name X) ifname Hsh
                                (fun cmd v => eq_refl) pairs 0 tr)
      as [codes [Hlen Hrun]].
    exists codes. split; [exact Hlen|]. rewrite Hrun.
    destruct (last_nonzero codes =? 0) eqn:Hz; simpl; rewrite ?Hz; reflexivity.
Qed.

(** Looking an interface up does nothing to the system. *)
Lemma get_interface_trace sys idx tr : snd (get_interface sys idx tr) = tr.
Proof.
  unfold get_interface, bind, get_links, raise, ret.
  destruct (os_get_links sys tr idx) as [[|m rest]|e]; reflexivity.
Qed.

Lemma setlink_ifname_trace sys msg tr : snd (setlink_ifname sys msg tr) = tr.
Proof.
  unfold setlink_ifname, bind, ret.
  pose proof (get_interface_trace sys (Some (VInt (index msg))) tr) as Hg.
  destruct (get_attr msg "IFLA_IFNAME") as [v|];
    [destruct (truthy v); [reflexivity|]|];
    destruct (get_interface sys (Some (VInt (index msg))) tr) as [[i|e] tr'];
    simpl in *; congruence.
Qed.

(** ** Modify-link: the port operations *)

Ltac port_none :=
  eexists; exists []; rewrite app_nil_r; split; [reflexivity | simpl; auto].

Ltac port_one :=
  eexists; eexists [_]; split;
  [ reflexivity
  | simpl; first [ eexists; repeat split; first [reflexivity | eassumption]
                 | right; eexists; repeat split; first [reflexivity | eassumption] ] ].

Lemma manage_team_port_outcome sys cmd master ifname caps tr :
  exists r done,
    manage_team_port sys cmd master ifname caps tr = (r, tr ++ done)%list /\
    port_outcome r done.
Proof.
  unfold manage_team_port, map_enoent, bind, lift, ret,
    subprocess_check_call, subprocess_call, bind, ret, raise.
  destruct master as [[z|m|f|a]|]; simpl argv_item; cbv iota beta; try port_none.
  destruct ifname as [[z|i|f|a]|]; simpl argv_item; cbv iota beta; try port_none.
  destruct (os_spawn sys tr _) as [rc|errno] eqn:Hout.
  - destruct (rc =? 0) eqn:Hrc; port_one.
  - destruct (errno =? Errno.ENOENT); port_one.
Qed.

Lemma compat_bridge_port_outcome sys cmd master port caps tr :
  exists r done,
    compat_bridge_port sys cmd master port caps tr = (r, tr ++ done)%list /\
    port_outcome r done.
Proof.
  unfold compat_bridge_port, bind, lift, ret,
    subprocess_check_call, subprocess_call, bind, ret, raise.
  destruct (create_bridge caps); [port_none|].
  destruct (argv_item master) as [m|e]; [|port_none].
  destruct (argv_item port) as [i|e]; [|port_none].
  destruct (os_spawn sys tr _) as [rc|errno] eqn:Hout.
  - destruct (rc =? 0) eqn:Hrc; port_one.
  - port_one.
Qed.

Lemma compat_bond_port_outcome sys cmd master port caps tr :
  exists r done,
    compat_bond_port sys cmd master port caps tr = (r, tr ++ done)%list /\
    port_outcome r done.
Proof.
  unfold compat_bond_port, bind, lift, ret, write_file.
  destruct (create_bond caps); [port_none|].
  destruct (String.eqb cmd "add");
    [|destruct (String.eqb cmd "del"); [|port_none]];
    destruct (os_write sys tr _ _ =? 0) eqn:Hw; port_one.
Qed.

Lemma dispatch_port_outcome sys cmd master ifname caps tr :
  exists r done,
    dispatch_port sys cmd master ifname caps tr = (r, tr ++ done)%list /\
    port_outcome r done.
Proof.
  unfold dispatch_port.
  destruct (if_kind master) as [[z|k|f|a]|]; try port_none.
  destruct (String.eqb k "team"); [apply manage_team_port_outcome|].
  destruct (String.eqb k "bridge"); [apply compat_bridge_port_outcome|].
  destruct (String.eqb k "bond"); [apply compat_bond_port_outcome|].
  port_none.
Qed.

Lemma port_stage_outcome sys caps msg ifname tr :
  exists r done,
    port_stage sys caps msg ifname tr = (r, tr ++ done)%list /\
    port_outcome r done.
Proof.
  unfold port_stage.
  destruct (get_attr msg "IFLA_MASTER") as [idx|]; [|port_none].
  assert (Hadd : exists r done,
             bind (get_interface sys (Some idx))
                  (fun master => dispatch_port sys "add" master ifname caps) tr
             = (r, tr ++ done)%list /\ port_outcome r done).
  { unfold bind.
    pose proof (get_interface_trace sys (Some idx) tr) as Hg.
    destruct (get_interface sys (Some idx) tr) as [[master|e] tr']; simpl in Hg; subst tr'.
    - apply dispatch_port_outcome.
    - port_none. }
  destruct idx as [z|s|f|a]; try exact Hadd.
  destruct z; try exact Hadd.
  unfold bind.
  pose proof (get_interface_trace sys (Some (VInt (index msg))) tr) as Hg.
  destruct (get_interface sys (Some (VInt (index msg))) tr) as [[i|e] tr'];
    simpl in Hg; subst tr'; [|port_none].
  pose proof (get_interface_trace sys (if_master i) tr) as Hg.
  destruct (get_interface sys (if_master i) tr) as [[master|e] tr'];
    simpl in Hg; subst tr'; [|port_none].
  apply dispatch_port_outcome.
Qed.

Lemma set_loop_only_bash sys (mk_argv : attr -> list string)
      (func : option value -> string -> value -> IO Z)
      (nla2name : string -> string) (ifname : option value) :
  (forall cmd v, func ifname (nla2name cmd) v = subprocess_call sys (mk_argv (cmd, v))) ->
  (forall p out, is_bash_spawn (Spawn (mk_argv p) out) = true) ->
  forall pairs code tr,
  exists r evs,
    set_loop func nla2name ifname pairs code tr = (r, tr ++ evs)%list /\
    forallb is_bash_spawn evs = true.
Proof.
  intros Hf Hb. induction pairs as [|[cmd v] rest IH]; intros code tr.
  - exists (Ok code), []. rewrite app_nil_r. split; reflexivity.
  - simpl set_loop. unfold bind. rewrite Hf. unfold subprocess_call.
    destruct (os_spawn sys tr (mk_argv (cmd, v))) as [rc|errno] eqn:Hout.
    + destruct (IH (if rc =? 0 then code else rc)
                   (tr ++ [Spawn (mk_argv (cmd, v)) (Exited rc)])%list)
        as [r [evs [Hrun Hall]]].
      exists r, (Spawn (mk_argv (cmd, v)) (Exited rc) :: evs).
      rewrite Hrun, <- app_assoc. split; [reflexivity|].
      cbn [forallb]. rewrite Hb, Hall. reflexivity.
    + exists (Raise (OSError errno)), [Spawn (mk_argv (cmd, v)) (SpawnError errno)].
      split; [reflexivity|]. cbn [forallb]. rewrite Hb. reflexivity.
Qed.

(** Whatever the request, lines 166-181 run nothing but [bash]. *)
Lemma set_stage_only_bash X sys ifname kind infodata tr :
  exists r evs,
    set_stage X sys ifname kind infodata tr = (r, tr ++ evs)%list /\
    forallb is_bash_spawn evs = true.
Proof.
  unfold set_stage.
  destruct infodata as [d|];
    [|exists (Ok tt), []; rewrite app_nil_r; split; reflexivity].
  destruct (value_is_str kind "bond" || value_is_str kind "bridge")%bool;
    [|exists (Ok tt), []; rewrite app_nil_r; split; reflexivity].
  unfold bind, lift.
  destruct (infodata_pairs d) as [pairs|e];
    [|exists (Raise e), []; rewrite app_nil_r; split; reflexivity].
  assert (Hfin : forall (loop : IO Z),
             (exists r evs, loop tr = (r, tr ++ evs)%list /\
                            forallb is_bash_spawn evs = true) ->
             exists r evs,
               (let (r1, s') := loop tr in
                match r1 with
                | Ok a => (if a =? 0 then ret tt else raise (OSError a)) s'
                | Raise e => (Raise e, s')
                end) = (r, tr ++ evs)%list /\ forallb is_bash_spawn evs = true).
  { intros loop [r [evs [Hrun Hall]]]. rewrite Hrun.
    destruct r as [code|e].
    - destruct (code =? 0).
      + exists (Ok tt), evs. split; [reflexivity | exact Hall].
      + exists (Raise (OSError code)), evs. split; [reflexivity | exact Hall].
    - exists (Raise e), evs. split; [reflexivity | exact Hall]. }
  cbv beta iota. destruct (value_is_str kind "bond"); apply Hfin.
  - apply (set_loop_only_bash sys (set_argv X "bond" ifname));
      [intros; reflexivity | intros; reflexivity].
  - apply (set_loop_only_bash sys (set_argv X "bridge" ifname));
      [intros; reflexivity | intros; reflexivity].
Qed.

Lemma bash_is_no_port_action (a : action) :
  is_bash_spawn a = true -> port_action a = false /\ is_file_write a = false.
Proof.
  destruct a as [argv out| | | | | | | | |]; simpl; try discriminate.
  destruct argv as [|prog rest]; [discriminate|].
  intros H. apply String.eqb_eq in H. subst prog. split; reflexivity.
Qed.

Lemma only_bash_no_port_action (evs : list action) :
  forallb is_bash_spawn evs = true ->
  existsb port_action evs = false /\ filter is_file_write evs = [].
Proof.
  induction evs as [|a evs IH]; simpl; [split; reflexivity|].
  intros H. apply andb_true_iff in H. destruct H as [Ha Hr].
  destruct (bash_is_no_port_action a Ha) as [Hp Hw]. rewrite Hp, Hw.
  exact (IH Hr).
Qed.

(** The shape of every run of [proxy_setlink]: the commands of the
    attribute writes, then what the port stage did, and the verdict that
    goes with it. *)
Lemma proxy_setlink_shape X sys caps imsg tr :
  exists r evs done,
    proxy_setlink X sys caps imsg tr = (r, tr ++ evs ++ done)%list /\
    forallb is_bash_spawn evs = true /\
    match r with
    | Ok (Forward d) => d = data imsg /\ done = []
    | Ok Consumed => exists a, done = [a] /\ port_action a = true /\ succeeded a = true
    | Raise _ =>
        done = [] \/
        exists a, done = [a] /\ port_action a = true /\ succeeded a = false
    end.
Proof.
  unfold proxy_setlink, bind, lift, ret.
  set (msg := ifinfmsg_decode X (data imsg)).
  pose proof (setlink_ifname_trace sys msg tr) as Hn.
  destruct (setlink_ifname sys msg tr) as [[ifname|e] tr0]; simpl in Hn; subst tr0.
  2:{ exists (Raise e), [], []. rewrite !app_nil_r. repeat split. left; reflexivity. }
  destruct (setlink_kind_data msg) as [ki|e].
  2:{ exists (Raise e), [], []. rewrite !app_nil_r. repeat split. left; reflexivity. }
  destruct (set_stage_only_bash X sys ifname (fst ki) (snd ki) tr)
    as [r1 [evs [Hset Hall]]].
  rewrite Hset. destruct r1 as [u|e].
  2:{ exists (Raise e), evs, []. rewrite !app_nil_r. repeat split; [exact Hall|].
      left; reflexivity. }
  destruct (port_stage_outcome sys caps msg ifname (tr ++ evs)%list)
    as [r2 [done [Hport Hout]]].
  rewrite Hport. rewrite <- app_assoc.
  destruct r2 as [[b|]|e]; simpl in Hout.
  - subst done. exists (Ok (Forward (data imsg))), evs, [].
    repeat split; exact Hall.
  - exists (Ok Consumed), evs, done. repeat split; [exact Hall | exact Hout].
  - exists (Raise e), evs, done. repeat split; [exact Hall | exact Hout].
Qed.

(** C10: whenever [proxy_setlink] returns a forward verdict the data is
    the wire buffer of the caller, untouched, also after attribute writes
    were run, and no port operation was run; and it returns the consumed
    verdict exactly when the last thing it did was a port operation of a
    legacy backend (teamdctl, brctl or the write to the slaves file) that
    succeeded. *)
Theorem C10_forward_is_original_consumed_iff_port_operation
        (X : externals) (sys : os) (caps : capabilities) (imsg : nlmsg)
        (tr : list action) :
  exists delta,
    snd (proxy_setlink X sys caps imsg tr) = (tr ++ delta)%list /\
    (forall d, fst (proxy_setlink X sys caps imsg tr) = Ok (Forward d) ->
               d = data imsg /\ existsb port_action delta = false) /\
    (fst (proxy_setlink X sys caps imsg tr) = Ok Consumed <->
     exists before a,
       delta = (before ++ [a])%list /\ port_action a = true /\ succeeded a = true).
Proof.
  destruct (proxy_setlink_shape X sys caps imsg tr)
    as [r [evs [done [Hrun [Hall Hr]]]]].
  destruct (only_bash_no_port_action evs Hall) as [Hnp _].
  assert (Hlast : forall before a,
             evs = (before ++ [a])%list -> port_action a = true -> False).
  { intros before a -> Hp. rewrite existsb_app in Hnp. simpl in Hnp.
    rewrite Hp in Hnp. rewrite orb_true_r in Hnp. discriminate. }
  exists (evs ++ done)%list. rewrite Hrun. simpl fst. simpl snd.
  split; [reflexivity|]. split.
  - intros d Hd. subst r. destruct Hr as [-> ->].
    rewrite app_nil_r. split; [reflexivity | exact Hnp].
  - split.
    + intros Hc. subst r. destruct Hr as [a [-> [Hp Hs]]].
      exists evs, a. repeat split; assumption.
    + intros [before [a [Hd [Hp Hs]]]].
      destruct r as [[d|]|e]; [exfalso|reflexivity|exfalso].
      * destruct Hr as [_ ->]. rewrite app_nil_r in Hd. exact (Hlast _ _ Hd Hp).
      * destruct Hr as [-> | [a0 [-> [Hp0 Hs0]]]].
        -- rewrite app_nil_r in Hd. exact (Hlast _ _ Hd Hp).
        -- apply app_inj_tail in Hd. destruct Hd as [_ <-]. congruence.
Qed.

(** Once the name is known and the attribute writes went through,
    [proxy_setlink] is its port stage. *)
Lemma proxy_setlink_after_set X sys caps imsg tr ifname ki tr1 :
  fst (setlink_ifname sys (ifinfmsg_decode X (data imsg)) tr) = Ok ifname ->
  setlink_kind_data (ifinfmsg_decode X (data imsg)) = Ok ki ->
  set_stage X sys ifname (fst ki) (snd ki) tr = (Ok tt, tr1) ->
  proxy_setlink X sys caps imsg tr
  = (match fst (port_stage sys caps (ifinfmsg_decode X (data imsg)) ifname tr1) with
     | Ok (Some _) => Ok (Forward (data imsg))
     | Ok None => Ok Consumed
     | Raise e => Raise e
     end,
     snd (port_stage sys caps (ifinfmsg_decode X (data imsg)) ifname tr1)).
Proof.
  intros Hn Hk Hs. unfold proxy_setlink, bind, lift, ret.
  pose proof (setlink_ifname_trace sys (ifinfmsg_decode X (data imsg)) tr) as Ht.
  destruct (setlink_ifname sys (ifinfmsg_decode X (data imsg)) tr) as [r0 tr0].
  simpl in Hn, Ht. subst r0 tr0. rewrite Hk, Hs.
  destruct (port_stage sys caps (ifinfmsg_decode X (data imsg)) ifname tr1)
    as [[[b|]|e] tr2]; reflexivity.
Qed.

(** The loop with a function that runs one command per pair, on any
    system: the pairs are gone through in order; a command that exits
    never stops the loop, and the code kept is the last one that is not
    zero; a command that cannot be started ends the loop there. *)
Lemma set_loop_general (sys : os) (mk_argv : attr -> list string)
      (func : option value -> string -> value -> IO Z)
      (nla2name : string -> string) (ifname : option value) :
  (forall cmd v, func ifname (nla2name cmd) v = subprocess_call sys (mk_argv (cmd, v))) ->
  forall pairs code tr,
  exists codes,
    (List.length codes <= List.length pairs)%nat /\
    (shell_runs sys -> List.length codes = List.length pairs) /\
    match nth_error pairs (List.length codes) with
    | None =>
        set_loop func nla2name ifname pairs code tr
        = (Ok (if last_nonzero codes =? 0 then code else last_nonzero codes),
           tr ++ map (fun pc => Spawn (mk_argv (fst pc)) (Exited (snd pc)))
                     (combine pairs codes))%list
    | Some stuck =>
        exists errno,
          os_spawn sys
                   (tr ++ map (fun pc => Spawn (mk_argv (fst pc)) (Exited (snd pc)))
                              (combine pairs codes))%list
                   (mk_argv stuck) = SpawnError errno /\
          set_loop func nla2name ifname pairs code tr
          = (Raise (OSError errno),
             tr ++ map (fun pc => Spawn (mk_argv (fst pc)) (Exited (snd pc)))
                       (combine pairs codes)
                ++ [Spawn (mk_argv stuck) (SpawnError errno)])%list
    end.
Proof.
  intros Hf. induction pairs as [|[cmd v] rest IH]; intros code tr.
  - exists []. split; [simpl; lia|]. split; [reflexivity|].
    simpl. rewrite app_nil_r. reflexivity.
  - destruct (os_spawn sys tr (mk_argv (cmd, v))) as [rc|errno] eqn:Hout.
    + destruct (IH (if rc =? 0 then code else rc)
                   (tr ++ [Spawn (mk_argv (cmd, v)) (Exited rc)])%list)
        as [codes [Hle [Hall Hrun]]].
      exists (rc :: codes). split; [simpl; lia|].
      split; [intros Hsh; simpl; rewrite (Hall Hsh); reflexivity|].
      simpl nth_error. simpl combine. simpl map. simpl fst. simpl snd.
      destruct (nth_error rest (List.length codes)) as [stuck|].
      * destruct Hrun as [errno [Hspawn Hrun]]. exists errno.
        rewrite <- app_assoc in Hspawn. simpl in Hspawn.
        split; [exact Hspawn|].
        simpl set_loop. unfold bind. rewrite Hf. unfold subprocess_call.
        rewrite Hout, Hrun. rewrite <- !app_assoc. reflexivity.
      * simpl set_loop. unfold bind. rewrite Hf. unfold subprocess_call.
        rewrite Hout, Hrun. rewrite last_nonzero_cons.
        rewrite <- app_assoc. simpl.
        f_equal. f_equal.
        destruct (last_nonzero codes =? 0) eqn:HL; [reflexivity|].
        rewrite HL. reflexivity.
    + exists []. split; [simpl; lia|]. split.
      * intros Hsh. destruct (Hsh tr (mk_argv (cmd, v))) as [rc Hrc].
        rewrite Hrc in Hout. discriminate.
      * simpl nth_error. simpl combine. simpl map. exists errno.
        rewrite app_nil_r. split; [exact Hout|].
        simpl set_loop. unfold bind. rewrite Hf. unfold subprocess_call.
        rewrite Hout. reflexivity.
Qed.

(** Lines 166-181 on a bond or bridge request with an info-data block,
    on any system. *)
Lemma set_stage_general X sys kind ifname d pairs tr :
  kind = "bond" \/ kind = "bridge" ->
  infodata_pairs d = Ok pairs ->
  exists codes,
    (List.length codes <= List.length pairs)%nat /\
    (shell_runs sys -> List.length codes = List.length pairs) /\
    match nth_error pairs (List.length codes) with
    | None =>
        set_stage X sys ifname (Some (VStr kind)) (Some d) tr
        = (if last_nonzero codes =? 0 then Ok tt
           else Raise (OSError (last_nonzero codes)),
           tr ++ set_events X kind ifname pairs codes)%list
    | Some stuck =>
        exists errno,
          os_spawn sys (tr ++ set_events X kind ifname pairs codes)%list
                   (set_argv X kind ifname stuck) = SpawnError errno /\
          set_stage X sys ifname (Some (VStr kind)) (Some d) tr
          = (Raise (OSError errno),
             tr ++ set_events X kind ifname pairs codes
                ++ [Spawn (set_argv X kind ifname stuck) (SpawnError errno)])%list
    end.
Proof.
  intros Hkind Hpairs. unfold set_stage, set_events.
  destruct Hkind as [-> | ->];
    [ change (value_is_str (Some (VStr "bond")) "bond") with true
    | change (value_is_str (Some (VStr "bridge")) "bond") with false;
      change (value_is_str (Some (VStr "bridge")) "bridge") with true ];
    cbn [orb]; cbv iota; unfold bind, lift; cbv beta; rewrite Hpairs; cbv beta iota.
  - destruct (set_loop_general sys (set_argv X "bond" ifname) (compat_set_bond sys)
                               (bond_nla2name X) ifname
                               (fun cmd v => eq_refl) pairs 0 tr)
      as [codes [Hle [Hall Hrun]]].
    exists codes. split; [exact Hle|]. split; [exact Hall|].
    destruct (nth_error pairs (List.length codes)) as [stuck|].
    + destruct Hrun as [errno [Hspawn Hrun]]. exists errno.
      split; [exact Hspawn|]. rewrite Hrun. reflexivity.
    + rewrite Hrun.
      destruct (last_nonzero codes =? 0) eqn:Hz; simpl; rewrite ?Hz; reflexivity.
  - destruct (set_loop_general sys (set_argv X "bridge" ifname) (compat_set_bridge sys)
                               (bridge_nla2name X) ifname
                               (fun cmd v => eq_refl) pairs 0 tr)
      as [codes [Hle [Hall Hrun]]].
    exists codes. split; [exact Hle|]. split; [exact Hall|].
    destruct (nth_error pairs (List.length codes)) as [stuck|].
    + destruct Hrun as [errno [Hspawn Hrun]]. exists errno.
      split; [exact Hspawn|]. rewrite Hrun. reflexivity.
    + rewrite Hrun.
      destruct (last_nonzero codes =? 0) eqn:Hz; simpl; rewrite ?Hz; reflexivity.
Qed.

(** C2, as amended: on a bond or bridge request with an info-data block
    of N pairs, the writes are attempted in order, one [bash] command
    each.  A command that exits, with whatever code, never stops the
    loop: where every command can be started all N are run, and when the
    last code that is not zero is [c], the request raises [OSError] with
    code [c] and nothing else is done.  The one early exit is a command
    that cannot be started: the [OSError] of the system is raised there,
    the pairs after it are not attempted and nothing else is done.
    [codes] are the exit codes of the commands that ran. *)
Theorem C2_all_writes_run_last_code_raised
        (X : externals) (sys : os) (caps : capabilities) (imsg : nlmsg)
        (tr : list action) (ifname : option value) (kind : string)
        (d : value) (pairs : list attr) :
  fst (setlink_ifname sys (ifinfmsg_decode X (data imsg)) tr) = Ok ifname ->
  setlink_kind_data (ifinfmsg_decode X (data imsg)) = Ok (Some (VStr kind), Some d) ->
  kind = "bond" \/ kind = "bridge" ->
  infodata_pairs d = Ok pairs ->
  exists codes,
    (List.length codes <= List.length pairs)%nat /\
    (shell_runs sys -> List.length codes = List.length pairs) /\
    (exists rest,
        snd (proxy_setlink X sys caps imsg tr)
        = (tr ++ set_events X kind ifname pairs codes ++ rest)%list) /\
    match nth_error pairs (List.length codes) with
    | None =>
        List.length codes = List.length pairs /\
        (last_nonzero codes <> 0 ->
         proxy_setlink X sys caps imsg tr
         = (Raise (OSError (last_nonzero codes)),
            tr ++ set_events X kind ifname pairs codes)%list)
    | Some stuck =>
        exists errno,
          os_spawn sys (tr ++ set_events X kind ifname pairs codes)%list
                   (set_argv X kind ifname stuck) = SpawnError errno /\
          proxy_setlink X sys caps imsg tr
          = (Raise (OSError errno),
             tr ++ set_events X kind ifname pairs codes
                ++ [Spawn (set_argv X kind ifname stuck) (SpawnError errno)])%list
    end.
Proof.
  intros Hn Hk Hkind Hp.
  destruct (set_stage_general X sys kind ifname d pairs tr Hkind Hp)
    as [codes [Hle [Hall Hset]]].
  assert (Hraise : forall e tr1,
             set_stage X sys ifname (Some (VStr kind)) (Some d) tr = (Raise e, tr1) ->
             proxy_setlink X sys caps imsg tr = (Raise e, tr1)).
  { intros e tr1 Hs. unfold proxy_setlink, bind, lift, ret.
    pose proof (setlink_ifname_trace sys (ifinfmsg_decode X (data imsg)) tr) as Ht.
    destruct (setlink_ifname sys (ifinfmsg_decode X (data imsg)) tr) as [r0 tr0].
    simpl in Hn, Ht. subst r0 tr0. rewrite Hk. simpl fst. simpl snd.
    rewrite Hs. reflexivity. }
  exists codes. split; [exact Hle|]. split; [exact Hall|].
  destruct (nth_error pairs (List.length codes)) as [stuck|] eqn:Hnth.
  - destruct Hset as [errno [Hspawn Hset]].
    pose proof (Hraise _ _ Hset) as Hrun. split.
    + eexists. rewrite Hrun. reflexivity.
    + exists errno. split; [exact Hspawn | exact Hrun].
  - assert (Hlen : List.length codes = List.length pairs).
    { apply nth_error_None in Hnth. lia. }
    destruct (last_nonzero codes =? 0) eqn:Hz.
    + split; [|split; [exact Hlen|]].
      * rewrite (proxy_setlink_after_set X sys caps imsg tr ifname _ _ Hn Hk Hset).
        simpl snd.
        destruct (port_stage_outcome sys caps (ifinfmsg_decode X (data imsg)) ifname
                    (tr ++ set_events X kind ifname pairs codes)%list)
          as [r [done [Hport _]]].
        exists done. rewrite Hport. simpl. rewrite app_assoc. reflexivity.
      * intros Hne. apply Z.eqb_eq in Hz. contradiction.
    + pose proof (Hraise _ _ Hset) as Hrun. split; [|split; [exact Hlen|]].
      * exists []. rewrite Hrun, app_nil_r. reflexivity.
      * intros _. exact Hrun.
Qed.

(** On a request with two bond attributes, on a system where the first
    command exits with 1 and the second cannot be started. *)
Lemma C2_all_writes_run_last_code_raised_witness :
  exists codes,
    (List.length codes <= 2)%nat /\
    (shell_runs Cases.sys_shell_lost -> List.length codes = 2%nat) /\
    (exists rest,
        snd (proxy_setlink (Cases.packaged (Demo.X_of Demo.bond0_two_attrs))
                           Cases.sys_shell_lost Demo.legacy Demo.bond0_two_attrs [])
        = ([] ++ set_events (Cases.packaged (Demo.X_of Demo.bond0_two_attrs)) "bond"
                            (Some (VStr "bond0"))
                            [("IFLA_BOND_MIIMON", VInt 100); ("IFLA_BOND_MODE", VInt 1)]
                            codes ++ rest)%list) /\
    match nth_error [("IFLA_BOND_MIIMON", VInt 100); ("IFLA_BOND_MODE", VInt 1)]
                    (List.length codes) with
    | None =>
        List.length codes = 2%nat /\
        (last_nonzero codes <> 0 ->
         proxy_setlink (Cases.packaged (Demo.X_of Demo.bond0_two_attrs))
                       Cases.sys_shell_lost Demo.legacy Demo.bond0_two_attrs []
         = (Raise (OSError (last_nonzero codes)),
            [] ++ set_events (Cases.packaged (Demo.X_of Demo.bond0_two_attrs)) "bond"
                             (Some (VStr "bond0"))
                             [("IFLA_BOND_MIIMON", VInt 100);
                              ("IFLA_BOND_MODE", VInt 1)]
                             codes)%list)
    | Some stuck =>
        exists errno,
          os_spawn Cases.sys_shell_lost
                   ([] ++ set_events (Cases.packaged (Demo.X_of Demo.bond0_two_attrs))
                                     "bond" (Some (VStr "bond0"))
                                     [("IFLA_BOND_MIIMON", VInt 100);
                                      ("IFLA_BOND_MODE", VInt 1)]
                                     codes)%list
                   (set_argv (Cases.packaged (Demo.X_of Demo.bond0_two_attrs)) "bond"
                             (Some (VStr "bond0")) stuck)
          = SpawnError errno /\
          proxy_setlink (Cases.packaged (Demo.X_of Demo.bond0_two_attrs))
                        Cases.sys_shell_lost Demo.legacy Demo.bond0_two_attrs []
          = (Raise (OSError errno),
             [] ++ set_events (Cases.packaged (Demo.X_of Demo.bond0_two_attrs)) "bond"
                              (Some (VStr "bond0"))
                              [("IFLA_BOND_MIIMON", VInt 100);
                               ("IFLA_BOND_MODE", VInt 1)]
                              codes
                ++ [Spawn (set_argv (Cases.packaged (Demo.X_of Demo.bond0_two_attrs))
                                    "bond" (Some (VStr "bond0")) stuck)
                          (SpawnError errno)])%list
    end.
Proof.
  apply (C2_all_writes_run_last_code_raised
           (Cases.packaged (Demo.X_of Demo.bond0_two_attrs)) Cases.sys_shell_lost
           Demo.legacy Demo.bond0_two_attrs [] (Some (VStr "bond0")) "bond"
           (VNla (Some [("IFLA_BOND_MIIMON", VInt 100); ("IFLA_BOND_MODE", VInt 1)]))
           [("IFLA_BOND_MIIMON", VInt 100); ("IFLA_BOND_MODE", VInt 1)]).
  - reflexivity.
  - reflexivity.
  - left. reflexivity.
  - reflexivity.
Defined.

(** C2 as stated fails: when the two writes of a request end with the
    codes 1 and 2, the error raised carries 2, the last one, and not the
    first code that is not zero. *)
Lemma C2_counterexample :
  let out := proxy_setlink (Cases.packaged (Demo.X_of Demo.bond0_two_attrs))
                           Demo.sys_failing
                           Demo.legacy Demo.bond0_two_attrs [] in
  snd out
  = [Spawn ["bash"; "-c"; "echo 100 >/sys/class/net/bond0/bonding/bond_miimon"]
           (Exited 1);
     Spawn ["bash"; "-c"; "echo 1 >/sys/class/net/bond0/bonding/bond_mode"]
           (Exited 2)] /\
  fst out = Raise (OSError 2) /\
  first_nonzero (exit_codes (snd out)) = 1 /\
  fst out <> Raise (OSError (first_nonzero (exit_codes (snd out)))).
Proof.
  vm_compute. repeat split. discriminate.
Qed.

(** The early exit on the same request: the first command exits with 1,
    the second cannot be started, and the error of the system is raised
    in place of the code kept. *)
Lemma proxy_setlink_shell_lost_run :
  proxy_setlink (Cases.packaged (Demo.X_of Demo.bond0_two_attrs)) Cases.sys_shell_lost
                Demo.legacy Demo.bond0_two_attrs []
  = (Raise (OSError Errno.ENOENT),
     [Spawn ["bash"; "-c"; "echo 100 >/sys/class/net/bond0/bonding/bond_miimon"]
            (Exited 1);
      Spawn ["bash"; "-c"; "echo 1 >/sys/class/net/bond0/bonding/bond_mode"]
            (SpawnError Errno.ENOENT)]).
Proof. vm_compute. reflexivity. Qed.




(** ** The decorator, as the calling thread runs it *)

(** With a message type that has a name, [sync f] is [f] between the
    start of the watcher and the four steps of the [finally] block, and it
    hands on what [f] returned or raised. *)
Lemma sync_runs {A} X (f : nlmsg -> IO A) msg tr ev :
  RTM_VALUES X (header_type msg) = Some ev ->
  sync X f msg tr
  = (fst (f msg (tr ++ [PipeCreate; ThreadStart ev (get_attr msg "IFLA_IFNAME")])%list),
     snd (f msg (tr ++ [PipeCreate; ThreadStart ev (get_attr msg "IFLA_IFNAME")])%list)
         ++ [PipeWrite; ThreadJoin; PipeClose true; PipeClose false])%list.
Proof.
  intros Hev. unfold sync, bind, lift, log, try_finally. rewrite Hev.
  rewrite <- app_assoc. simpl app.
  destruct (f msg (tr ++ [PipeCreate; ThreadStart ev (get_attr msg "IFLA_IFNAME")])%list)
    as [r tr'].
  simpl. rewrite <- !app_assoc. reflexivity.
Qed.

Lemma sync_unknown_type {A} X (f : nlmsg -> IO A) msg tr :
  RTM_VALUES X (header_type msg) = None ->
  sync X f msg tr = (Raise KeyError, tr ++ [PipeCreate])%list.
Proof.
  intros Hev. unfold sync, bind, lift, log. rewrite Hev. reflexivity.
Qed.

(** A function that raises before it touches the system is rejected by
    the decorated function too, and the decorator adds no action on the
    tun device. *)
Lemma sync_rejects {A} X (f : nlmsg -> IO A) msg :
  (forall tr, exists e, f msg tr = (Raise e, tr)) ->
  forall tr, exists e delta,
    sync X f msg tr = (Raise e, tr ++ delta)%list /\
    existsb is_tun_action delta = false.
Proof.
  intros Hf tr.
  destruct (RTM_VALUES X (header_type msg)) as [ev|] eqn:Hev.
  - destruct (Hf (tr ++ [PipeCreate; ThreadStart ev (get_attr msg "IFLA_IFNAME")])%list)
      as [e He].
    exists e. eexists. rewrite (sync_runs X f msg tr ev Hev), He. simpl fst. simpl snd.
    rewrite <- app_assoc. split; reflexivity.
  - exists KeyError, [PipeCreate]. rewrite (sync_unknown_type X f msg tr Hev).
    split; reflexivity.
Qed.

(** ** Create-link *)




(** ** tun/tap *)

(** Without ioctl numbers for the machine the function raises at once. *)
Lemma manage_tuntap_body_no_arch sys p msg tr :
  tun_requests_of (machine p) = None ->
  manage_tuntap_body sys p msg tr
  = (Raise (NetlinkError Errno.EOPNOTSUPP "Arch not supported"), tr).
Proof. intros H. unfold manage_tuntap_body. rewrite H. reflexivity. Qed.

(** A mode that is neither ['tun'] nor ['tap'] makes the function raise
    before it does anything. *)
Lemma manage_tuntap_body_bad_mode sys p msg tr :
  value_is_str (tuntap_mode msg) "tun" = false ->
  value_is_str (tuntap_mode msg) "tap" = false ->
  exists e, manage_tuntap_body sys p msg tr = (Raise e, tr).
Proof.
  intros Htun Htap. unfold manage_tuntap_body.
  destruct (tun_requests_of (machine p)) as [req|]; [|eexists; reflexivity].
  destruct (negb (header_type msg =? RTM_NEWLINK)); [eexists; reflexivity|].
  unfold tuntap_mode in Htun, Htap. unfold bind, lift.
  destruct (get_attr msg "IFLA_LINKINFO") as [[z|s|f|li]|];
    simpl value_get_attr; cbv iota; try (eexists; reflexivity).
  destruct (nla_get_attr li "IFLA_INFO_DATA") as [[z|s|f|d]|];
    simpl infodata_attrs; cbv iota; try (eexists; reflexivity).
  unfold tuntap_flags. rewrite Htun, Htap. eexists. reflexivity.
Qed.

(** A name of more than [IFNAMSIZ] characters makes the function raise
    before it does anything. *)
Lemma manage_tuntap_body_long_name sys p msg name tr :
  get_attr msg "IFLA_IFNAME" = Some (VStr name) ->
  (String.length name > 16)%nat ->
  exists e, manage_tuntap_body sys p msg tr = (Raise e, tr).
Proof.
  intros Hname Hlen. unfold manage_tuntap_body.
  destruct (tun_requests_of (machine p)) as [req|]; [|eexists; reflexivity].
  destruct (negb (header_type msg =? RTM_NEWLINK)); [eexists; reflexivity|].
  unfold bind, lift.
  destruct (value_get_attr (get_attr msg "IFLA_LINKINFO") "IFLA_INFO_DATA")
    as [infodata|e]; cbv iota beta; [|eexists; reflexivity].
  destruct (infodata_attrs infodata) as [d|e]; cbv iota beta; [|eexists; reflexivity].
  destruct (tuntap_flags d) as [flags|e]; cbv iota beta; [|eexists; reflexivity].
  unfold tuntap_ifr. rewrite Hname.
  assert (Hgt : (Z.of_nat (String.length name) >? IFNAMSIZ) = true).
  { unfold IFNAMSIZ. apply Z.gtb_lt. lia. }
  rewrite Hgt. eexists. reflexivity.
Qed.

(** C9: a tun/tap create request whose mode is missing or is neither
    ['tun'] nor ['tap'] is rejected and the tun control device is not
    opened; a request whose interface name has more than 16 characters is
    rejected and no ioctl is issued (the device is not even opened); and on
    a machine with no known ioctl numbers the request is rejected, as not
    supported, before anything is done on the tun device. *)
Theorem C9_tuntap_rejected_before_device
        (X : externals) (sys : os) (p : platform) (msg : nlmsg) (tr : list action) :
  (value_is_str (tuntap_mode msg) "tun" = false ->
   value_is_str (tuntap_mode msg) "tap" = false ->
   exists e delta,
     manage_tuntap X sys p msg tr = (Raise e, tr ++ delta)%list /\
     existsb is_tun_action delta = false) /\
  (forall name,
      get_attr msg "IFLA_IFNAME" = Some (VStr name) ->
      (String.length name > 16)%nat ->
      exists e delta,
        manage_tuntap X sys p msg tr = (Raise e, tr ++ delta)%list /\
        existsb is_tun_action delta = false) /\
  (tun_requests_of (machine p) = None ->
   (exists e delta,
       manage_tuntap X sys p msg tr = (Raise e, tr ++ delta)%list /\
       existsb is_tun_action delta = false) /\
   (forall ev, RTM_VALUES X (header_type msg) = Some ev ->
               fst (manage_tuntap X sys p msg tr)
               = Raise (NetlinkError Errno.EOPNOTSUPP "Arch not supported"))).
Proof.
  unfold manage_tuntap. split; [|split].
  - intros Htun Htap. apply sync_rejects.
    intros tr'. apply manage_tuntap_body_bad_mode; assumption.
  - intros name Hname Hlen. apply sync_rejects.
    intros tr'. apply (manage_tuntap_body_long_name sys p msg name); assumption.
  - intros Harch. split.
    + apply sync_rejects. intros tr'.
      eexists. apply manage_tuntap_body_no_arch. exact Harch.
    + intros ev Hev. rewrite (sync_runs X _ msg tr ev Hev).
      rewrite manage_tuntap_body_no_arch by exact Harch. reflexivity.
Qed.

(** A request without a mode, one with a name of 21 characters, and a
    request in order on a machine without ioctl numbers. *)
Lemma C9_tuntap_rejected_before_device_witness :
  (exists e delta,
      manage_tuntap Demo.X0 Demo.sys_bond Demo.x86_64 Demo.tun_no_mode []
      = (Raise e, [] ++ delta)%list /\
      existsb is_tun_action delta = false) /\
  (exists e delta,
      manage_tuntap Demo.X0 Demo.sys_bond Demo.x86_64 Demo.tun_long_name []
      = (Raise e, [] ++ delta)%list /\
      existsb is_tun_action delta = false) /\
  fst (manage_tuntap Demo.X0 Demo.sys_bond Demo.sparc64 Demo.tun_good [])
  = Raise (NetlinkError Errno.EOPNOTSUPP "Arch not supported").
Proof.
  split; [|split].
  - apply (proj1 (C9_tuntap_rejected_before_device
                    Demo.X0 Demo.sys_bond Demo.x86_64 Demo.tun_no_mode []));
      reflexivity.
  - apply (proj1 (proj2 (C9_tuntap_rejected_before_device
                           Demo.X0 Demo.sys_bond Demo.x86_64 Demo.tun_long_name []))
                 "averyveryverylongname"); [reflexivity | simpl; lia].
  - apply (proj2 (proj2 (proj2 (C9_tuntap_rejected_before_device
                                  Demo.X0 Demo.sys_bond Demo.sparc64 Demo.tun_good []))
                        eq_refl) "RTM_NEWLINK").
    reflexivity.
Defined.

(** The request that is in order goes through the device: open, three
    ioctls at most, close. *)
Example manage_tuntap_good_run :
  manage_tuntap Demo.X0 Demo.sys_bond Demo.x86_64 Demo.tun_good []
  = (Ok tt,
     [PipeCreate; ThreadStart "RTM_NEWLINK" (Some (VStr "tun0"));
      TunOpen 0;
      Ioctl 0x400454ca
            (inr (map byte_of_Z [116; 117; 110; 48; 0; 0; 0; 0; 0; 0; 0; 0; 0; 0; 0; 0; 1; 0]))
            0;
      Ioctl 0x400454cb (inl (VInt 1)) 0;
      TunClose;
      PipeWrite; ThreadJoin; PipeClose true; PipeClose false]).
Proof. vm_compute. reflexivity. Qed.

(** ** The decorator and its watcher *)

Section SyncFacts.

Import SyncProtocol.

Variable A : Type.
Variable c : call A.
Variable tr0 : list action.

Lemma main_inv_init : main_inv c tr0 (init tr0).
Proof. unfold main_inv. simpl. repeat split. Qed.

Lemma watcher_inv_init : watcher_inv (@init A tr0).
Proof. exact I. Qed.

(** A step of the watcher, or a delivery, that leaves the thread of the
    watcher alive keeps what holds of the calling thread. *)
Lemma main_inv_other_thread (s s' : state A) :
  main_inv c tr0 s ->
  main s' = main s -> pipe_bytes s' = pipe_bytes s ->
  rcmd_open s' = rcmd_open s -> cmd_open s' = cmd_open s -> trace s' = trace s ->
  watcher s <> WNone -> watcher s' <> WNone ->
  (terminated s = true -> terminated s' = true) ->
  main_inv c tr0 s'.
Proof.
  unfold main_inv. intros H Hm Hp Hr Hc Ht Hw Hw' Hterm. rewrite Hm.
  destruct (main s) as [| | |r|r|r|r|r|e];
    try (destruct H as [H _]; contradiction);
    try (destruct H as [_ [_ [H _]]]; contradiction).
  - destruct H as [ev [H1 [H2 [H3 [H4 [H5 H6]]]]]]. exists ev.
    rewrite Hp, Hr, Hc, Ht. repeat split; assumption.
  - destruct H as [ev [H1 [H2 [H3 [H4 [H5 [H6 [H7 H8]]]]]]]]. exists ev.
    rewrite Hp, Hr, Hc, Ht. repeat split; auto.
  - destruct H as [ev [H1 [H2 [H3 [H4 [H5 [H6 [H7 H8]]]]]]]]. exists ev.
    rewrite Hp, Hr, Hc, Ht. repeat split; auto.
  - destruct H as [ev [H1 [H2 [H3 [H4 [H5 [H6 [H7 H8]]]]]]]]. exists ev.
    rewrite Hp, Hr, Hc, Ht. repeat split; auto.
  - destruct H as [ev [H1 [H2 [H3 [H4 [H5 [H6 [H7 H8]]]]]]]]. exists ev.
    rewrite Hp, Hr, Hc, Ht. repeat split; auto.
  - destruct H as [ev [H1 [H2 [H3 [H4 [H5 [H6 [H7 H8]]]]]]]]. exists ev.
    rewrite Hp, Hr, Hc, Ht. repeat split; auto.
Qed.

Lemma main_inv_watcher_step (s s' : state A) :
  main_inv c tr0 s -> monitor_step c s = Some s' -> main_inv c tr0 s'.
Proof.
  intros H Hstep. unfold monitor_step in Hstep.
  destruct (watcher s) as [| | |events|how] eqn:Hw; try discriminate.
  - destruct (c_sock_ok c); injection Hstep as <-;
      apply (main_inv_other_thread s); try reflexivity; try assumption;
      simpl; try discriminate; try (rewrite Hw; discriminate);
      unfold terminated; rewrite Hw; discriminate.
  - destruct (ready c s); [discriminate|]. injection Hstep as <-.
    apply (main_inv_other_thread s); try reflexivity; try assumption;
      simpl; try discriminate; try (rewrite Hw; discriminate);
      unfold terminated; rewrite Hw; discriminate.
  - destruct events as [|[[|] mask] rest].
    + injection Hstep as <-.
      apply (main_inv_other_thread s); try reflexivity; try assumption;
        simpl; try discriminate; try (rewrite Hw; discriminate);
        unfold terminated; rewrite Hw; discriminate.
    + destruct (sock s) as [|msgs q]; [discriminate|].
      destruct (existsb _ msgs); injection Hstep as <-;
        apply (main_inv_other_thread s); try reflexivity; try assumption;
        simpl; try discriminate; try (rewrite Hw; discriminate);
        unfold terminated; rewrite Hw; discriminate.
    + injection Hstep as <-.
      apply (main_inv_other_thread s); try reflexivity; try assumption;
        simpl; try discriminate; try (rewrite Hw; discriminate);
        unfold terminated; rewrite Hw; discriminate.
Qed.

Lemma main_inv_deliver (s : state A) batch :
  main_inv c tr0 s -> main_inv c tr0 (deliver batch s).
Proof.
  intros H. unfold deliver.
  destruct (watcher s) as [| | |events|how] eqn:Hw; try exact H.
  - apply (main_inv_other_thread s); try reflexivity; try assumption;
      simpl; try discriminate; try (rewrite Hw; discriminate).
    unfold terminated. simpl. rewrite Hw. discriminate.
  - apply (main_inv_other_thread s); try reflexivity; try assumption;
      simpl; try discriminate; try (rewrite Hw; discriminate).
    unfold terminated. simpl. rewrite Hw. discriminate.
Qed.

Lemma main_inv_main_step (s s' : state A) :
  main_inv c tr0 s -> decorated_step c s = Some s' -> main_inv c tr0 s'.
Proof.
  unfold main_inv, decorated_step. intros H Hstep.
  destruct (main s) as [| | |r|r|r|r|r|e] eqn:Hm.
  - injection Hstep as <-. simpl.
    destruct H as [Hw [Hp [_ [_ Ht]]]]. rewrite Ht. repeat split; assumption.
  - destruct H as [Hw [Hp [Hr [Hc Ht]]]].
    destruct (RTM_VALUES (c_X c) (header_type (c_msg c))) as [name|] eqn:Hev;
      injection Hstep as <-; simpl.
    + exists name. rewrite Ht, <- app_assoc.
      repeat split; try assumption; try reflexivity. discriminate.
    + repeat split; assumption.
  - destruct H as [ev [Hev [Hw [Hp [Hr [Hc Ht]]]]]].
    destruct (c_f c (c_msg c) (trace s)) as [r tr] eqn:Hf.
    injection Hstep as <-. simpl. exists ev. unfold body_run.
    rewrite <- Ht, Hf. simpl. rewrite app_nil_r.
    repeat split; try assumption. intros Hk. lia.
  - destruct H as [ev [Hev [Hw [Hr [Ht [Hp [Ho [Hc Hterm]]]]]]]].
    injection Hstep as <-. simpl. exists ev. rewrite Ht, Hp.
    simpl in *. rewrite app_nil_r.
    repeat split; try assumption. intros Hk. lia.
  - destruct H as [ev [Hev [Hw [Hr [Ht [Hp [Ho [Hc Hterm]]]]]]]].
    destruct (watcher s) as [| | |events|how] eqn:Hwat; try discriminate.
    injection Hstep as <-. simpl. exists ev. rewrite Ht.
    simpl in *. rewrite <- app_assoc.
    repeat split; try assumption; try reflexivity; try discriminate.
    + rewrite Hwat. discriminate.
    + intros _. unfold terminated. simpl. rewrite Hwat. reflexivity.
  - destruct H as [ev [Hev [Hw [Hr [Ht [Hp [Ho [Hc Hterm]]]]]]]].
    injection Hstep as <-. simpl. exists ev. rewrite Ht.
    simpl in *. rewrite <- app_assoc.
    repeat split; try assumption; try reflexivity.
    intros _. apply Hterm. lia.
  - destruct H as [ev [Hev [Hw [Hr [Ht [Hp [Ho [Hc Hterm]]]]]]]].
    injection Hstep as <-. simpl. exists ev. rewrite Ht.
    simpl in *. rewrite <- app_assoc.
    repeat split; try assumption; try reflexivity.
    intros _. apply Hterm. lia.
  - discriminate.
  - discriminate.
Qed.

Lemma main_inv_step (l : label) (s s' : state A) :
  main_inv c tr0 s -> step c l s = Some s' -> main_inv c tr0 s'.
Proof.
  destruct l as [| |batch]; simpl; intros H Hstep.
  - exact (main_inv_main_step s s' H Hstep).
  - exact (main_inv_watcher_step s s' H Hstep).
  - injection Hstep as <-. apply main_inv_deliver. exact H.
Qed.

(** The test of [monitor] compares the event name of a notification with
    the mask the loop stored in [event]: it is never true. *)
Lemma mask_matches_nothing (mask : Z) (ifname : option value)
      (msgs : list notification) :
  existsb (matches (PInt mask) ifname) msgs = false.
Proof.
  induction msgs as [|n rest IH]; simpl; [reflexivity|].
  rewrite IH. unfold matches.
  destruct (n_event n); reflexivity.
Qed.

Lemma ready_shape (s : state A) :
  match ready c s with
  | (IprFd, _) :: rest => sock s <> [] /\ (rest = [] \/ exists m, rest = [(CmdFd, m)])
  | (CmdFd, _) :: rest => rest = []
  | [] => True
  end.
Proof.
  unfold ready.
  destruct (sock s) as [|b q]; destruct (pipe_bytes s) as [|k]; simpl; auto.
  - split; [discriminate | left; reflexivity].
  - split; [discriminate | right; eexists; reflexivity].
Qed.

Lemma watcher_inv_step (l : label) (s s' : state A) :
  watcher_inv s -> step c l s = Some s' -> watcher_inv s'.
Proof.
  destruct l as [| |batch]; simpl; intros H Hstep.
  - unfold decorated_step in Hstep. unfold watcher_inv in *.
    destruct (main s) as [| | |r|r|r|r|r|e]; try discriminate;
      try (injection Hstep as <-; exact H).
    + destruct (RTM_VALUES (c_X c) (header_type (c_msg c)));
        injection Hstep as <-; simpl; [exact I | exact H].
    + destruct (c_f c (c_msg c) (trace s)). injection Hstep as <-. exact H.
    + destruct (watcher s) eqn:Hw; try discriminate.
      injection Hstep as <-. simpl. rewrite Hw. exact H.
  - unfold monitor_step in Hstep. unfold watcher_inv in *.
    destruct (watcher s) as [| | |events|how] eqn:Hw; try discriminate.
    + destruct (c_sock_ok c); injection Hstep as <-; simpl;
        [exact I | discriminate].
    + pose proof (ready_shape s) as Hr.
      destruct (ready c s) as [|[[|] m] rest] eqn:Hrd; [discriminate| |];
        injection Hstep as <-; simpl; exact Hr.
    + destruct events as [|[[|] mask] rest].
      * injection Hstep as <-. exact I.
      * destruct H as [Hs Hrest].
        destruct (sock s) as [|msgs q]; [discriminate|].
        rewrite mask_matches_nothing in Hstep. injection Hstep as <-. simpl.
        destruct Hrest as [-> | [m ->]]; [exact I | reflexivity].
      * injection Hstep as <-. simpl. discriminate.
  - injection Hstep as <-. unfold deliver, watcher_inv in *.
    destruct (watcher s) as [| | |events|how] eqn:Hw; simpl; rewrite ?Hw; try exact H.
    destruct events as [|[[|] mask] rest]; try exact H.
    destruct H as [Hs Hrest]. split; [|exact Hrest].
    destruct (sock s); discriminate.
Qed.

Lemma run_inv (schedule : list label) :
  forall s s',
    main_inv c tr0 s -> watcher_inv s ->
    run c schedule s = Some s' ->
    main_inv c tr0 s' /\ watcher_inv s'.
Proof.
  induction schedule as [|l rest IH]; simpl; intros s s' Hm Hw Hrun.
  - injection Hrun as <-. split; assumption.
  - destruct (step c l s) as [s1|] eqn:Hstep; [|discriminate].
    apply (IH s1 s'); try assumption.
    + exact (main_inv_step l s s1 Hm Hstep).
    + exact (watcher_inv_step l s s1 Hw Hstep).
Qed.

(** In no run does the watcher end on a match. *)
Lemma watcher_never_matches (schedule : list label) (s : state A) :
  run c schedule (init tr0) = Some s -> watcher s <> WFinished Matched.
Proof.
  intros Hrun.
  destruct (run_inv schedule _ _ main_inv_init watcher_inv_init Hrun) as [_ Hw].
  unfold watcher_inv in Hw. intros Heq. rewrite Heq in Hw. apply Hw. reflexivity.
Qed.

(** The calling thread does not get past [t.join()] while the watcher
    runs. *)
Lemma joined_means_terminated (schedule : list label) (s : state A) :
  run c schedule (init tr0) = Some s ->
  (exists r, main s = MJoined r \/ main s = MClosedR r \/ main s = MDone r) ->
  terminated s = true.
Proof.
  intros Hrun [r Hm].
  destruct (run_inv schedule _ _ main_inv_init watcher_inv_init Hrun) as [Hi _].
  unfold main_inv in Hi.
  destruct Hm as [Hm | [Hm | Hm]]; rewrite Hm in Hi;
    destruct Hi as [ev [_ [_ [_ [_ [_ [_ [_ Hterm]]]]]]]]; apply Hterm; lia.
Qed.

Lemma run_app (a b : list label) (s : state A) :
  run c (a ++ b) s
  = match run c a s with
    | Some s1 => run c b s1
    | None => None
    end.
Proof.
  revert s. induction a as [|l a IH]; intros s; simpl; [reflexivity|].
  destruct (step c l s); [apply IH | reflexivity].
Qed.

(** Once a byte is in the pipe, the watcher left to run comes to its
    end, whatever it was doing. *)
Lemma watcher_can_finish (s : state A) :
  watcher_inv s -> watcher s <> WNone -> pipe_bytes s <> 0%nat ->
  exists n s',
    run c (repeat RunWatcher n) s = Some s' /\
    terminated s' = true /\ main s' = main s.
Proof.
  intros Hinv Hw Hp.
  assert (Lcmd : forall s m, watcher s = WHandling [(CmdFd, m)] ->
             exists n s', run c (repeat RunWatcher n) s = Some s' /\
                          terminated s' = true /\ main s' = main s).
  { intros s1 m H1. exists 1%nat. eexists. simpl. unfold monitor_step. rewrite H1.
    split; [reflexivity|]. split; reflexivity. }
  assert (Lboth : forall s m m', watcher s = WHandling [(IprFd, m); (CmdFd, m')] ->
             sock s <> [] ->
             exists n s', run c (repeat RunWatcher n) s = Some s' /\
                          terminated s' = true /\ main s' = main s).
  { intros s1 m m' H1 Hs. destruct (sock s1) as [|msgs q] eqn:Hq; [contradiction|].
    exists 2%nat. eexists. simpl. unfold monitor_step at 1. rewrite H1, Hq.
    rewrite mask_matches_nothing. simpl. split; [reflexivity|]. split; reflexivity. }
  assert (Lpoll : forall s, watcher s = WPolling -> pipe_bytes s <> 0%nat ->
             exists n s', run c (repeat RunWatcher n) s = Some s' /\
                          terminated s' = true /\ main s' = main s).
  { intros s1 H1 Hp1.
    destruct (pipe_bytes s1) as [|k] eqn:Hk; [contradiction|].
    destruct (sock s1) as [|msgs q] eqn:Hq.
    - destruct (Lcmd (set_watcher s1 (WHandling [(CmdFd, c_revents c)])
                                  (w_event s1) (sock s1)) (c_revents c) eq_refl)
        as [n [s2 [Hrun [Ht Hm]]]].
      exists (S n), s2. simpl. unfold monitor_step. rewrite H1. unfold ready.
      rewrite Hq, Hk. simpl. rewrite <- Hq. rewrite Hrun.
      split; [reflexivity|]. split; [exact Ht | exact Hm].
    - destruct (Lboth (set_watcher s1 (WHandling [(IprFd, c_revents c);
                                                  (CmdFd, c_revents c)])
                                   (w_event s1) (sock s1))
                      (c_revents c) (c_revents c) eq_refl)
        as [n [s2 [Hrun [Ht Hm]]]].
      { simpl. rewrite Hq. discriminate. }
      exists (S n), s2. simpl. unfold monitor_step. rewrite H1. unfold ready.
      rewrite Hq, Hk. simpl. rewrite <- Hq. rewrite Hrun.
      split; [reflexivity|]. split; [exact Ht | exact Hm]. }
  assert (Lnil : forall s, watcher s = WHandling [] -> pipe_bytes s <> 0%nat ->
             exists n s', run c (repeat RunWatcher n) s = Some s' /\
                          terminated s' = true /\ main s' = main s).
  { intros s1 H1 Hp1.
    destruct (Lpoll (set_watcher s1 WPolling (w_event s1) (sock s1)) eq_refl Hp1)
      as [n [s2 [Hrun [Ht Hm]]]].
    exists (S n), s2. simpl. unfold monitor_step. rewrite H1. rewrite Hrun.
    split; [reflexivity|]. split; [exact Ht | exact Hm]. }
  unfold watcher_inv in Hinv.
  destruct (watcher s) as [| | |events|how] eqn:Hwat.
  - contradiction.
  - destruct (c_sock_ok c) eqn:Hok.
    + destruct (Lpoll (set_watcher s WPolling (w_event s) (sock s)) eq_refl Hp)
        as [n [s2 [Hrun [Ht Hm]]]].
      exists (S n), s2. simpl. unfold monitor_step. rewrite Hwat, Hok, Hrun.
      split; [reflexivity|]. split; [exact Ht | exact Hm].
    + exists 1%nat. eexists. simpl. unfold monitor_step. rewrite Hwat, Hok.
      split; [reflexivity|]. split; reflexivity.
  - apply Lpoll; assumption.
  - destruct events as [|[[|] m] rest].
    + apply Lnil; assumption.
    + destruct Hinv as [Hs [-> | [m' ->]]].
      * destruct (sock s) as [|msgs q] eqn:Hq; [contradiction|].
        destruct (Lnil (set_watcher s (WHandling []) (PInt m) q) eq_refl Hp)
          as [n [s2 [Hrun [Ht Hm]]]].
        exists (S n), s2. simpl. unfold monitor_step. rewrite Hwat, Hq.
        rewrite mask_matches_nothing, Hrun.
        split; [reflexivity|]. split; [exact Ht | exact Hm].
      * apply (Lboth s m m'); assumption.
    + subst rest. apply (Lcmd s m). exact Hwat.
  - exists 0%nat, s. simpl. unfold terminated. rewrite Hwat.
    split; [reflexivity|]. split; reflexivity.
Qed.

(** Every run can be continued to the end of [decorated]: the calling
    thread is never stuck, in [t.join()] or elsewhere. *)
Lemma sync_can_finish (ev : string) :
  RTM_VALUES (c_X c) (header_type (c_msg c)) = Some ev ->
  forall n (s : state A),
    main_inv c tr0 s -> watcher_inv s -> steps_left (main s) = n ->
    exists schedule s' r,
      run c schedule s = Some s' /\ main s' = MDone r.
Proof.
  intros Hev. induction n as [n IH] using lt_wf_ind. intros s Hm Hw Hn.
  assert (Hgo : forall s1, decorated_step c s = Some s1 ->
                           (steps_left (main s1) < n)%nat ->
                           exists schedule s' r,
                             run c schedule s = Some s' /\ main s' = MDone r).
  { intros s1 Hstep Hlt.
    destruct (IH _ Hlt s1 (main_inv_main_step s s1 Hm Hstep)
                 (watcher_inv_step RunMain s s1 Hw Hstep) eq_refl)
      as [schedule [s' [r [Hrun Hdone]]]].
    exists (RunMain :: schedule), s', r. simpl. rewrite Hstep.
    split; assumption. }
  destruct (main s) as [| | |r|r|r|r|r|e] eqn:Hpc; simpl in Hn; subst n.
  - eapply Hgo; [unfold decorated_step; rewrite Hpc; reflexivity | simpl; lia].
  - eapply Hgo; [unfold decorated_step; rewrite Hpc, Hev; reflexivity | simpl; lia].
  - destruct (c_f c (c_msg c) (trace s)) as [r tr] eqn:Hf.
    eapply Hgo; [unfold decorated_step; rewrite Hpc, Hf; reflexivity | simpl; lia].
  - eapply Hgo; [unfold decorated_step; rewrite Hpc; reflexivity | simpl; lia].
  - assert (Hi := Hm). unfold main_inv in Hi. rewrite Hpc in Hi.
    destruct Hi as [ev' [_ [Hwn [_ [_ [Hp _]]]]]].
    destruct (watcher_can_finish s Hw Hwn) as [k [s1 [Hrun [Hterm Hsame]]]].
    { rewrite Hp. discriminate. }
    destruct (run_inv (repeat RunWatcher k) s s1 Hm Hw Hrun) as [Hm1 Hw1].
    assert (Hstep : exists s2, decorated_step c s1 = Some s2 /\ main s2 = MJoined r).
    { unfold decorated_step. rewrite Hsame, Hpc. unfold terminated in Hterm.
      destruct (watcher s1); try discriminate. eexists. split; reflexivity. }
    destruct Hstep as [s2 [Hstep Hpc2]].
    destruct (IH 2%nat ltac:(lia) s2 (main_inv_main_step s1 s2 Hm1 Hstep)
                 (watcher_inv_step RunMain s1 s2 Hw1 Hstep)
                 ltac:(rewrite Hpc2; reflexivity))
      as [schedule [s' [r' [Hrun' Hdone]]]].
    exists (repeat RunWatcher k ++ RunMain :: schedule)%list, s', r'.
    rewrite run_app, Hrun. simpl. rewrite Hstep. split; assumption.
  - eapply Hgo; [unfold decorated_step; rewrite Hpc; reflexivity | simpl; lia].
  - eapply Hgo; [unfold decorated_step; rewrite Hpc; reflexivity | simpl; lia].
  - exists [], s, r. split; [reflexivity | exact Hpc].
  - exfalso. unfold main_inv in Hm. rewrite Hpc in Hm.
    destruct Hm as [Hnone _]. congruence.
Qed.

(** Every run can be continued to one of the two ways out of
    [decorated]: the end of the [finally] block, or the [KeyError] of the
    type lookup. *)
Lemma sync_can_stop (s : state A) :
  main_inv c tr0 s -> watcher_inv s ->
  exists rest s',
    run c rest s = Some s' /\
    ((exists r, main s' = MDone r) \/ main s' = MAborted KeyError).
Proof.
  intros Hm Hw.
  destruct (RTM_VALUES (c_X c) (header_type (c_msg c))) as [ev|] eqn:Hev.
  - destruct (sync_can_finish ev Hev _ s Hm Hw eq_refl) as [rest [s' [r [Hrun Hd]]]].
    exists rest, s'. split; [exact Hrun | left; exists r; exact Hd].
  - assert (Hno : forall P : string -> Prop,
               (exists ev, RTM_VALUES (c_X c) (header_type (c_msg c)) = Some ev /\ P ev)
               -> False).
    { intros P [ev [Hev' _]]. rewrite Hev in Hev'. discriminate. }
    assert (Hi := Hm). unfold main_inv, after_body in Hi.
    destruct (main s) as [| | |r|r|r|r|r|e] eqn:Hpc;
      try (exfalso; exact (Hno _ Hi)).
    + eexists [RunMain; RunMain], _. simpl. unfold decorated_step at 1.
      rewrite Hpc. unfold decorated_step. simpl. rewrite Hev.
      split; [reflexivity | right; reflexivity].
    + eexists [RunMain], _. simpl. unfold decorated_step.
      rewrite Hpc, Hev. split; [reflexivity | right; reflexivity].
    + destruct Hi as [_ [-> _]]. exists [], s. split; [reflexivity | right; exact Hpc].
Qed.

(** C5, as amended.  Under every schedule the decorated function has two
    ways out.  When the type of the message has a name, the only one is
    the end of the [finally] block: there the cancellation byte was
    written, the watcher has ended and was joined, and both ends of the
    pipe were closed, in this order and after the wrapped function, whose
    value or exception is handed on as it is.  When the type has no
    name, the only one is the [KeyError] of the lookup, which comes after
    [os.pipe()] and before [try]: the watcher was never started, the
    wrapped function was not called, nothing was written or joined, and
    both ends of the pipe are left open.  Every run can be continued to
    its way out. *)
Theorem C5_sync_cleans_up_on_every_exit
        (schedule : list label) (s : state A) :
  run c schedule (init tr0) = Some s ->
  (forall r, main s = MDone r ->
             exists ev,
               RTM_VALUES (c_X c) (header_type (c_msg c)) = Some ev /\
               r = fst (body_run c tr0 ev) /\
               trace s = (snd (body_run c tr0 ev)
                            ++ [PipeWrite; ThreadJoin;
                                PipeClose true; PipeClose false])%list /\
               pipe_bytes s = 1%nat /\
               terminated s = true /\
               rcmd_open s = false /\ cmd_open s = false /\
               (r, trace s) = sync (c_X c) (c_f c) (c_msg c) tr0) /\
  (forall e, main s = MAborted e ->
             RTM_VALUES (c_X c) (header_type (c_msg c)) = None /\
             e = KeyError /\
             watcher s = WNone /\
             rcmd_open s = true /\ cmd_open s = true /\
             trace s = (tr0 ++ [PipeCreate])%list /\
             (Raise e, trace s) = sync (c_X c) (c_f c) (c_msg c) tr0) /\
  (forall ev, RTM_VALUES (c_X c) (header_type (c_msg c)) = Some ev ->
              forall e, main s <> MAborted e) /\
  (RTM_VALUES (c_X c) (header_type (c_msg c)) = None ->
   forall r, main s <> MDone r) /\
  (exists rest s',
      run c rest s = Some s' /\
      ((exists r, main s' = MDone r) \/ main s' = MAborted KeyError)).
Proof.
  intros Hrun.
  destruct (run_inv schedule _ _ main_inv_init watcher_inv_init Hrun) as [Hm Hw].
  assert (Hdone : forall r, main s = MDone r ->
             exists ev,
               RTM_VALUES (c_X c) (header_type (c_msg c)) = Some ev /\
               r = fst (body_run c tr0 ev) /\
               trace s = (snd (body_run c tr0 ev)
                            ++ [PipeWrite; ThreadJoin;
                                PipeClose true; PipeClose false])%list /\
               pipe_bytes s = 1%nat /\
               terminated s = true /\
               rcmd_open s = false /\ cmd_open s = false /\
               (r, trace s) = sync (c_X c) (c_f c) (c_msg c) tr0).
  { intros r Hr. assert (Hi := Hm). unfold main_inv in Hi. rewrite Hr in Hi.
    destruct Hi as [ev [Hev [_ [Hres [Ht [Hp [Ho [Hc Hterm]]]]]]]].
    simpl in Ht, Hp, Ho, Hc. exists ev.
    repeat split; try assumption; try (symmetry; assumption).
    - apply Hterm. lia.
    - rewrite (sync_runs (c_X c) (c_f c) (c_msg c) tr0 ev Hev).
      unfold body_run in *. rewrite Hres, Ht. reflexivity. }
  assert (Habort : forall e, main s = MAborted e ->
             RTM_VALUES (c_X c) (header_type (c_msg c)) = None /\
             e = KeyError /\
             watcher s = WNone /\
             rcmd_open s = true /\ cmd_open s = true /\
             trace s = (tr0 ++ [PipeCreate])%list /\
             (Raise e, trace s) = sync (c_X c) (c_f c) (c_msg c) tr0).
  { intros e He. assert (Hi := Hm). unfold main_inv in Hi. rewrite He in Hi.
    destruct Hi as [Hnone [-> [Hwn [Hr [Hc Ht]]]]].
    repeat split; try assumption.
    rewrite (sync_unknown_type (c_X c) (c_f c) (c_msg c) tr0 Hnone), Ht.
    reflexivity. }
  split; [exact Hdone|]. split; [exact Habort|]. split; [|split].
  - intros ev Hev e He. destruct (Habort e He) as [Hnone _]. congruence.
  - intros Hnone r Hr. destruct (Hdone r Hr) as [ev [Hev _]]. congruence.
  - exact (sync_can_stop s Hm Hw).
Qed.

End SyncFacts.

(** A wrapped function that raises: the write to the control file of
    bonding fails with errno 3. *)
Lemma C5_sync_cleans_up_on_every_exit_witness :
  exists s,
    SyncProtocol.run Demo.call_failing Demo.schedule_silent (SyncProtocol.init [])
    = Some s /\
    SyncProtocol.main s = SyncProtocol.MDone (Raise (OSError 3)) /\
    SyncProtocol.trace s
    = [PipeCreate; ThreadStart "RTM_NEWLINK" (Some (VStr "bond0"));
       FileWrite "/sys/class/net/bonding_masters" "+bond0" 3;
       PipeWrite; ThreadJoin; PipeClose true; PipeClose false] /\
    SyncProtocol.terminated s = true /\
    SyncProtocol.rcmd_open s = false /\ SyncProtocol.cmd_open s = false.
Proof.
  destruct (SyncProtocol.run Demo.call_failing Demo.schedule_silent
                             (SyncProtocol.init [])) as [s|] eqn:Hrun;
    [|vm_compute in Hrun; discriminate].
  exists s. split; [reflexivity|].
  destruct (C5_sync_cleans_up_on_every_exit
              unit Demo.call_failing [] Demo.schedule_silent s Hrun) as [H _].
  assert (Hm : SyncProtocol.main s = SyncProtocol.MDone (Raise (OSError 3))).
  { vm_compute in Hrun. injection Hrun as <-. reflexivity. }
  destruct (H (Raise (OSError 3)) Hm) as [ev [Hev [_ [Ht [_ [Hterm [Hr [Hc _]]]]]]]].
  assert (ev = "RTM_NEWLINK") as ->.
  { vm_compute in Hev. injection Hev as <-. reflexivity. }
  split; [exact Hm|]. split; [rewrite Ht; vm_compute; reflexivity|].
  split; [exact Hterm|]. split; [exact Hr | exact Hc].
Defined.

(** C5 as stated fails on one exit path: for a message whose type the
    table does not name, the decorated function is left by the
    [KeyError] of the lookup with both ends of the pipe open; no byte
    was written, no thread joined, nothing closed, and the calling
    thread has no step left. *)
Lemma C5_counterexample :
  let s := match SyncProtocol.run Cases.call_untyped
                   [SyncProtocol.RunMain; SyncProtocol.RunMain]
                   (SyncProtocol.init []) with
           | Some s => s
           | None => SyncProtocol.init []
           end in
  SyncProtocol.main s = SyncProtocol.MAborted KeyError /\
  SyncProtocol.step Cases.call_untyped SyncProtocol.RunMain s = None /\
  SyncProtocol.rcmd_open s = true /\ SyncProtocol.cmd_open s = true /\
  SyncProtocol.pipe_bytes s = 0%nat /\
  SyncProtocol.watcher s = SyncProtocol.WNone /\
  SyncProtocol.trace s = [PipeCreate] /\
  sync (SyncProtocol.c_X Cases.call_untyped) (SyncProtocol.c_f Cases.call_untyped)
       (SyncProtocol.c_msg Cases.call_untyped) []
  = (Raise KeyError, [PipeCreate]).
Proof. vm_compute. repeat split. Qed.

(** C4, the code on two runs of a decorated function that succeeds.  In
    the first the kernel announces the new interface, with the type and
    the name waited for, while the function has returned and the calling
    thread has not yet entered [finally]: the watcher reads the
    notification, compares its event name with the poll mask that the
    loop stored in [event], finds no match and polls again; it ends only
    when the byte written in [finally] arrives.  In the second the kernel
    announces nothing.  Both times the decorated function returns
    normally, and the watcher has ended as cancelled, not on a match. *)
Theorem C4_success_returned_without_observed_match :
  option_map (fun s => (SyncProtocol.watcher s, SyncProtocol.w_event s,
                        SyncProtocol.sock s))
             (SyncProtocol.run Demo.call_ok (firstn 7 Demo.schedule_notified)
                               (SyncProtocol.init []))
  = Some (SyncProtocol.WHandling [], SyncProtocol.PInt 1, []) /\
  option_map (fun s => (SyncProtocol.main s, SyncProtocol.watcher s))
             (SyncProtocol.run Demo.call_ok Demo.schedule_notified
                               (SyncProtocol.init []))
  = Some (SyncProtocol.MDone (Ok tt), SyncProtocol.WFinished SyncProtocol.Cancelled) /\
  option_map (fun s => (SyncProtocol.main s, SyncProtocol.watcher s))
             (SyncProtocol.run Demo.call_ok Demo.schedule_silent
                               (SyncProtocol.init []))
  = Some (SyncProtocol.MDone (Ok tt), SyncProtocol.WFinished SyncProtocol.Cancelled).
Proof. vm_compute. repeat split. Qed.

(** * Further properties *)

(** ** The probe of the interface type *)

Lemma existsb_eqb_In (x : string) (l : list string) :
  existsb (String.eqb x) l = true <-> In x l.
Proof.
  rewrite existsb_exists. split.
  - intros [y [Hin Heq]]. apply String.eqb_eq in Heq. subst y. exact Hin.
  - intros Hin. exists x. split; [exact Hin | apply String.eqb_refl].
Qed.

(** [get_interface_type] answers ['bond'] exactly when the directory of
    the interface lists [bonding] (also when it lists [bridge] too),
    ['bridge'] exactly when it lists [bridge] and not [bonding], and
    ['unknown'] otherwise, in particular when the directory does not exist
    (errno 2); any other error of the listing is raised as it is. *)
Theorem get_interface_type_cases (fs : sysfs) (name : option value) :
  let dir := "/sys/class/net/" ++ py_str_opt name ++ "/" in
  match get_interface_type fs name with
  | Ok k =>
      (k = "bond" \/ k = "bridge" \/ k = "unknown") /\
      (k = "bond" <-> exists l, fs_listdir fs dir = inr l /\ In "bonding" l) /\
      (k = "bridge" <->
       exists l, fs_listdir fs dir = inr l /\ In "bridge" l /\ ~ In "bonding" l)
  | Raise e =>
      exists errno, fs_listdir fs dir = inl errno /\ errno <> 2 /\ e = OSError errno
  end.
Proof.
  intros dir. unfold get_interface_type. fold dir.
  destruct (fs_listdir fs dir) as [errno|l] eqn:Hl.
  - destruct (errno =? 2) eqn:He.
    + split; [right; right; reflexivity|]. split.
      * split; [discriminate|]. intros [l [H _]]. discriminate.
      * split; [discriminate|]. intros [l [H _]]. discriminate.
    + exists errno. apply Z.eqb_neq in He. repeat split; assumption.
  - destruct (existsb (String.eqb "bonding") l) eqn:Hb.
    + apply existsb_eqb_In in Hb. split; [left; reflexivity|]. split.
      * split; [intros _; exists l; split; [reflexivity | exact Hb] | reflexivity].
      * split; [discriminate|]. intros [l' [H [_ Hn]]].
        injection H as <-. contradiction.
    + assert (Hnb : ~ In "bonding" l).
      { intros Hin. apply existsb_eqb_In in Hin. congruence. }
      destruct (existsb (String.eqb "bridge") l) eqn:Hr.
      * apply existsb_eqb_In in Hr. split; [right; left; reflexivity|]. split.
        -- split; [discriminate|]. intros [l' [H Hin]]. injection H as <-. contradiction.
        -- split; [intros _; exists l; repeat split; assumption | reflexivity].
      * assert (Hnr : ~ In "bridge" l).
        { intros Hin. apply existsb_eqb_In in Hin. congruence. }
        split; [right; right; reflexivity|]. split.
        -- split; [discriminate|]. intros [l' [H Hin]]. injection H as <-. contradiction.
        -- split; [discriminate|]. intros [l' [H [Hin _]]]. injection H as <-.
           contradiction.
Qed.

(** ** Enrichment only adds *)

Lemma attr_extended_refl (a : attr) : attr_extended a a.
Proof. split; [reflexivity | left; reflexivity]. Qed.

Lemma attr_extended_trans (a b c : attr) :
  attr_extended a b -> attr_extended b c -> attr_extended a c.
Proof.
  intros [Hn1 Hv1] [Hn2 Hv2]. split; [rewrite Hn2; exact Hn1|].
  rewrite Hn1 in Hv2.
  destruct Hv1 as [E1 | [Hname [li [more [E1 E1']]]]];
    destruct Hv2 as [E2 | [Hname2 [li' [more' [E2 E2']]]]].
  - left. rewrite E2. exact E1.
  - right. split; [exact Hname2|]. exists li', more'.
    split; [rewrite <- E1; exact E2 | exact E2'].
  - right. split; [exact Hname|]. exists li, more.
    split; [exact E1 | rewrite E2; exact E1'].
  - right. split; [exact Hname|]. exists li, (more ++ more')%list.
    split; [exact E1|]. rewrite E2'. rewrite E1' in E2. injection E2 as <-.
    rewrite app_assoc. reflexivity.
Qed.

Lemma Forall2_attr_extended_refl (l : list attr) : Forall2 attr_extended l l.
Proof. induction l; constructor; [apply attr_extended_refl | assumption]. Qed.

Lemma Forall2_attr_extended_trans (l1 l2 l3 : list attr) :
  Forall2 attr_extended l1 l2 -> Forall2 attr_extended l2 l3 ->
  Forall2 attr_extended l1 l3.
Proof.
  intros H12. revert l3. induction H12 as [|a b l1 l2 Hab H12 IH]; intros l3 H23.
  - inversion H23. constructor.
  - inversion H23 as [|b' c l2' l3' Hbc H23' E1 E2]. subst.
    constructor; [exact (attr_extended_trans a b c Hab Hbc) | apply IH; assumption].
Qed.

Lemma attrs_extended_refl (l : list attr) : attrs_extended l l.
Proof.
  exists l, []. split; [rewrite app_nil_r; reflexivity|].
  apply Forall2_attr_extended_refl.
Qed.

Lemma attrs_extended_trans (l1 l2 l3 : list attr) :
  attrs_extended l1 l2 -> attrs_extended l2 l3 -> attrs_extended l1 l3.
Proof.
  intros [k1 [a1 [E1 F1]]] [k2 [a2 [E2 F2]]]. subst l2.
  apply Forall2_app_inv_l in F2. destruct F2 as [k1' [a1' [Fk [Fa Ek]]]].
  subst k2 l3. exists k1', (a1' ++ a2)%list. split.
  - rewrite app_assoc. reflexivity.
  - exact (Forall2_attr_extended_trans _ _ _ F1 Fk).
Qed.

Lemma attrs_extended_app (l : list attr) (a : attr) : attrs_extended l (l ++ [a]).
Proof. exists l, [a]. split; [reflexivity | apply Forall2_attr_extended_refl]. Qed.

Lemma attrs_extended_update (l li more : list attr) :
  lookup_attr "IFLA_LINKINFO" l = Some (VNla (Some li)) ->
  attrs_extended l (update_first "IFLA_LINKINFO" (VNla (Some (li ++ more)%list)) l).
Proof.
  intros Hl. exists (update_first "IFLA_LINKINFO" (VNla (Some (li ++ more)%list)) l), [].
  split; [rewrite app_nil_r; reflexivity|].
  induction l as [|[n v] l IH]; simpl in *; [discriminate|].
  destruct (String.eqb n "IFLA_LINKINFO") eqn:Hn.
  - apply String.eqb_eq in Hn. injection Hl as ->. constructor.
    + split; [reflexivity|]. right. split; [exact Hn|].
      exists li, more. split; reflexivity.
    + apply Forall2_attr_extended_refl.
  - constructor; [apply attr_extended_refl | apply IH; exact Hl].
Qed.

Lemma msg_extended_refl (m : nlmsg) : msg_extended m m.
Proof.
  repeat split. destruct (attrs m); [apply attrs_extended_refl | exact I].
Qed.

Lemma msg_extended_trans (m1 m2 m3 : nlmsg) :
  msg_extended m1 m2 -> msg_extended m2 m3 -> msg_extended m1 m3.
Proof.
  intros [H1 [I1 [E1 [D1 A1]]]] [H2 [I2 [E2 [D2 A2]]]].
  repeat split; try congruence.
  destruct (attrs m1), (attrs m2), (attrs m3); try contradiction; try exact I.
  exact (attrs_extended_trans _ _ _ A1 A2).
Qed.

Lemma only_extends_ret {A} (a : A) : only_extends (ret a).
Proof. intros m. apply msg_extended_refl. Qed.

Lemma only_extends_lift {A} (r : result A) : only_extends (lift r).
Proof. intros m. apply msg_extended_refl. Qed.

Lemma only_extends_bind {A B} (c : Mut A) (k : A -> Mut B) :
  only_extends c -> (forall a, only_extends (k a)) -> only_extends (bind c k).
Proof.
  intros Hc Hk m. unfold bind. specialize (Hc m).
  destruct (c m) as [[a|e] m1]; simpl in *.
  - exact (msg_extended_trans m m1 _ Hc (Hk a m1)).
  - exact Hc.
Qed.

Lemma only_extends_append (a : attr) : only_extends (append_attr a).
Proof.
  intros m. unfold append_attr. destruct (attrs m) as [l|] eqn:Ha; simpl.
  - repeat split. rewrite Ha. simpl. apply attrs_extended_app.
  - apply msg_extended_refl.
Qed.

Lemma only_extends_linkinfo_append (a : attr) : only_extends (linkinfo_append a).
Proof.
  intros m. unfold linkinfo_append, get_attr.
  destruct (attrs m) as [top|] eqn:Ha; simpl.
  - destruct (lookup_attr "IFLA_LINKINFO" top) as [[z|s|f|[li|]]|] eqn:Hl; simpl;
      try apply msg_extended_refl.
    repeat split. rewrite Ha. simpl.
    exact (attrs_extended_update top li [a] Hl).
  - apply msg_extended_refl.
Qed.

Lemma only_extends_fix_master X fs caps ifname :
  only_extends (fix_master X fs caps ifname).
Proof.
  unfold fix_master. destruct (negb (provide_master caps)); [|apply only_extends_ret].
  apply only_extends_bind; [apply only_extends_lift|].
  intros [idx|]; [apply only_extends_append | apply only_extends_ret].
Qed.

Lemma only_extends_get_then {A} (k : nlmsg -> Mut A) :
  (forall m0, only_extends (k m0)) -> only_extends (bind get_state k).
Proof.
  intros Hk. apply only_extends_bind; [|exact Hk].
  intros m. apply msg_extended_refl.
Qed.

Lemma only_extends_fix_kind fs ifname : only_extends (fix_kind fs ifname).
Proof.
  unfold fix_kind. apply only_extends_get_then. intros m0.
  destruct (get_attr m0 "IFLA_LINKINFO") as [li|].
  - apply only_extends_bind; [apply only_extends_lift|].
    intros [k|]; [apply only_extends_ret|].
    apply only_extends_bind; [apply only_extends_lift|]. intros k.
    apply only_extends_bind; [apply only_extends_linkinfo_append|].
    intros _. apply only_extends_ret.
  - destruct (attrs m0); [|apply only_extends_ret].
    apply only_extends_bind; [apply only_extends_lift|]. intros k.
    apply only_extends_bind; [apply only_extends_append|].
    intros _. apply only_extends_ret.
Qed.

Lemma only_extends_fetch_info_data X fs ifname kind :
  only_extends (fetch_info_data X fs ifname kind).
Proof.
  unfold fetch_info_data. apply only_extends_get_then. intros m0.
  destruct (value_is_str kind "bridge" || value_is_str kind "bond")%bool;
    [|apply only_extends_ret].
  destruct (get_attr m0 "IFLA_LINKINFO") as [[z|s|f|[l|]]|];
    try apply only_extends_lift.
  destruct (has_info_data l); [|apply only_extends_ret].
  destruct (if value_is_str kind "bridge"
            then read_commands fs bridge_template (bridge_nla2name X) ifname
                               (bridge_nla_map X)
            else read_commands fs bond_template (bond_nla2name X) ifname
                               (bond_nla_map X));
    [apply only_extends_ret | apply only_extends_linkinfo_append].
Qed.

Lemma lookup_attr_kept (l kept added : list attr) (n : string) (v : value) :
  Forall2 attr_extended l kept ->
  n <> "IFLA_LINKINFO" ->
  lookup_attr n l = Some v ->
  lookup_attr n (kept ++ added) = Some v.
Proof.
  intros F Hn. induction F as [|[n1 v1] [n2 v2] l kept [Hname Hval] F IH];
    simpl; [discriminate|].
  simpl in Hname, Hval. subst n2.
  destruct (String.eqb n1 n) eqn:He.
  - intros H. injection H as ->. apply String.eqb_eq in He. subst n1.
    destruct Hval as [-> | [Hl _]]; [reflexivity | contradiction].
  - exact IH.
Qed.

Lemma lookup_linkinfo_kept (l kept added li : list attr) :
  Forall2 attr_extended l kept ->
  lookup_attr "IFLA_LINKINFO" l = Some (VNla (Some li)) ->
  exists more,
    lookup_attr "IFLA_LINKINFO" (kept ++ added) = Some (VNla (Some (li ++ more)%list)).
Proof.
  intros F. induction F as [|[n1 v1] [n2 v2] l kept [Hname Hval] F IH];
    simpl; [discriminate|].
  simpl in Hname, Hval. subst n2.
  destruct (String.eqb n1 "IFLA_LINKINFO") eqn:He.
  - intros H. injection H as ->.
    destruct Hval as [-> | [_ [li' [more [E1 E2]]]]].
    + exists []. rewrite app_nil_r. reflexivity.
    + injection E1 as <-. exists more. rewrite E2. reflexivity.
  - exact IH.
Qed.

(** Whatever sysfs holds and whatever the outcome, also when it raises
    half way, [compat_fix_attrs] only adds to the message: the header
    type, the index, the event and the wire bytes stay; every attribute
    stays where it was in the list, with its value, and new attributes
    come after them; only the link-info block may change, by attributes
    added at its end.  So what [get_attr] found before, it finds after. *)
Theorem compat_fix_attrs_only_adds
        (X : externals) (fs : sysfs) (caps : capabilities) (m : nlmsg) :
  let m' := snd (compat_fix_attrs X fs caps m) in
  msg_extended m m' /\
  (forall n v, n <> "IFLA_LINKINFO" ->
               get_attr m n = Some v -> get_attr m' n = Some v) /\
  (forall li, get_attr m "IFLA_LINKINFO" = Some (VNla (Some li)) ->
              exists more,
                get_attr m' "IFLA_LINKINFO" = Some (VNla (Some (li ++ more)%list))).
Proof.
  intros m'.
  assert (Hext : msg_extended m m').
  { subst m'. revert m. change (only_extends (compat_fix_attrs X fs caps)).
    unfold compat_fix_attrs. apply only_extends_get_then. intros m0.
    apply only_extends_bind; [apply only_extends_fix_master|]. intros _.
    apply only_extends_bind; [apply only_extends_fix_kind|].
    intros [kind|]; [apply only_extends_fetch_info_data | apply only_extends_ret]. }
  split; [exact Hext|].
  destruct Hext as [_ [_ [_ [_ Ha]]]]. unfold get_attr.
  destruct (attrs m) as [l|], (attrs m') as [l'|]; try contradiction; simpl.
  - destruct Ha as [kept [added [-> F]]]. split.
    + intros n v Hn Hl. exact (lookup_attr_kept l kept added n v F Hn Hl).
    + intros li Hl. exact (lookup_linkinfo_kept l kept added li F Hl).
  - split; [intros n v _ H; discriminate | intros li H; discriminate].
Qed.

(** ** Enrichment declares a kind *)

Lemma lookup_attr_app_some (n : string) (l more : list attr) (v : value) :
  lookup_attr n l = Some v -> lookup_attr n (l ++ more) = Some v.
Proof.
  induction l as [|[n1 v1] l IH]; simpl; [discriminate|].
  destruct (String.eqb n1 n); [trivial | exact IH].
Qed.

Lemma lookup_attr_app_none (n : string) (l : list attr) (v : value) :
  lookup_attr n l = None -> lookup_attr n (l ++ [(n, v)]) = Some v.
Proof.
  induction l as [|[n1 v1] l IH]; simpl.
  - intros _. rewrite String.eqb_refl. reflexivity.
  - destruct (String.eqb n1 n); [discriminate | exact IH].
Qed.

Lemma lookup_update_first (n : string) (l : list attr) (v v' : value) :
  lookup_attr n l = Some v -> lookup_attr n (update_first n v' l) = Some v'.
Proof.
  induction l as [|[n1 v1] l IH]; simpl; [discriminate|].
  destruct (String.eqb n1 n) eqn:He; simpl; rewrite He; [reflexivity | exact IH].
Qed.

Lemma lookup_attr_app_other (n n' : string) (l : list attr) (v : value) :
  n <> n' -> lookup_attr n (l ++ [(n', v)]) = lookup_attr n l.
Proof.
  intros Hne. induction l as [|[n1 v1] l IH]; simpl.
  - destruct (String.eqb n' n) eqn:He; [|reflexivity].
    apply String.eqb_eq in He. congruence.
  - destruct (String.eqb n1 n); [reflexivity | exact IH].
Qed.

(** "Fix master" changes no attribute but the master. *)
Lemma fix_master_keeps X fs caps ifname (m : nlmsg) (n : string) :
  n <> "IFLA_MASTER" ->
  get_attr (snd (fix_master X fs caps ifname m)) n = get_attr m n.
Proof.
  intros Hne. unfold fix_master.
  destruct (negb (provide_master caps)); [|reflexivity].
  unfold bind, lift. destruct (compat_get_master X fs ifname) as [[idx|]|e];
    try reflexivity.
  unfold append_attr. destruct (attrs m) as [l|] eqn:Ha; [|reflexivity].
  unfold get_attr. simpl. rewrite Ha. simpl.
  apply lookup_attr_app_other. exact Hne.
Qed.

(** Where the kind of a message comes from: [declared m k] when the
    link-info block of [m] declares [k]; [undeclared m] when [m] has no
    such block or a block that declares no kind. *)
Lemma fix_kind_declares fs ifname (m m' : nlmsg) r :
  fix_kind fs ifname m = (Ok r, m') ->
  (r = None /\ attrs m = None) \/
  (exists li k,
      get_attr m' "IFLA_LINKINFO" = Some (VNla (Some li)) /\
      lookup_attr "IFLA_INFO_KIND" li = Some k /\
      ((exists li0,
           get_attr m "IFLA_LINKINFO" = Some (VNla (Some li0)) /\
           lookup_attr "IFLA_INFO_KIND" li0 = Some k)
       \/
       ((get_attr m "IFLA_LINKINFO" = None
         \/ exists li0,
              get_attr m "IFLA_LINKINFO" = Some (VNla (Some li0)) /\
              lookup_attr "IFLA_INFO_KIND" li0 = None) /\
        exists s, get_interface_type fs ifname = Ok s /\ k = VStr s))).
Proof.
  unfold fix_kind, bind, get_state, lift, ret, get_attr.
  destruct (attrs m) as [top|] eqn:Ha; simpl.
  - destruct (lookup_attr "IFLA_LINKINFO" top) as [li|] eqn:Hli.
    + destruct li as [z|s|f|[l|]]; simpl; try discriminate.
      * destruct (get_interface_type fs ifname) as [k|e]; [|discriminate].
        unfold linkinfo_append, get_attr. rewrite Ha. simpl. rewrite Hli.
        discriminate.
      * destruct (lookup_attr "IFLA_INFO_KIND" l) as [k|] eqn:Hk.
        -- intros H. injection H as <- <-. right. exists l, k.
           rewrite Ha. simpl. split; [assumption|]. split; [assumption|].
           left. exists l. split; [reflexivity | assumption].
        -- destruct (get_interface_type fs ifname) as [k|e] eqn:Hty; [|discriminate].
           unfold linkinfo_append, get_attr. rewrite Ha. simpl. rewrite Hli.
           intros H. injection H as <- <-. right.
           exists (l ++ [("IFLA_INFO_KIND", VStr k)])%list, (VStr k). simpl. split.
           ++ apply (lookup_update_first _ _ _ _ Hli).
           ++ split; [apply lookup_attr_app_none; exact Hk|].
              right. split.
              ** right. exists l. split; [reflexivity | exact Hk].
              ** exists k. split; reflexivity.
      * destruct (get_interface_type fs ifname) as [k|e]; [|discriminate].
        unfold linkinfo_append, get_attr. rewrite Ha. simpl. rewrite Hli.
        discriminate.
    + destruct (get_interface_type fs ifname) as [k|e] eqn:Hty; [|discriminate].
      unfold append_attr. rewrite Ha.
      intros H. injection H as <- <-. right.
      exists [("IFLA_INFO_KIND", VStr k)], (VStr k). simpl. split.
      * apply lookup_attr_app_none. exact Hli.
      * split; [reflexivity|]. right. split.
        -- left. reflexivity.
        -- exists k. split; reflexivity.
  - intros H. injection H as <- <-. left. split; reflexivity.
Qed.

(** When [compat_fix_attrs] returns on a message that has an attribute
    list, the message has a link-info block that declares a kind, and
    the kind is the one the message came with, when its block declared
    one, and otherwise, for a message without a block or with a block
    that declared none, the kind that [get_interface_type] reads from
    sysfs for the name of the message (['unknown'] at least). *)
Theorem compat_fix_attrs_declares_kind
        (X : externals) (fs : sysfs) (caps : capabilities) (m m' : nlmsg) :
  compat_fix_attrs X fs caps m = (Ok tt, m') ->
  attrs m <> None ->
  exists li k,
    get_attr m' "IFLA_LINKINFO" = Some (VNla (Some li)) /\
    lookup_attr "IFLA_INFO_KIND" li = Some k /\
    ((exists li0,
         get_attr m "IFLA_LINKINFO" = Some (VNla (Some li0)) /\
         lookup_attr "IFLA_INFO_KIND" li0 = Some k)
     \/
     ((get_attr m "IFLA_LINKINFO" = None
       \/ exists li0,
            get_attr m "IFLA_LINKINFO" = Some (VNla (Some li0)) /\
            lookup_attr "IFLA_INFO_KIND" li0 = None) /\
      exists s,
        get_interface_type fs (get_attr m "IFLA_IFNAME") = Ok s /\ k = VStr s)).
Proof.
  unfold compat_fix_attrs, bind, get_state. intros Hrun Hattrs.
  pose proof (only_extends_fix_master X fs caps (get_attr m "IFLA_IFNAME") m) as Hm1.
  pose proof (fix_master_keeps X fs caps (get_attr m "IFLA_IFNAME") m "IFLA_LINKINFO"
                               ltac:(discriminate)) as Hsame.
  destruct (fix_master X fs caps (get_attr m "IFLA_IFNAME") m) as [[u|e] m1];
    [|discriminate].
  simpl in Hm1, Hsame.
  assert (Ha1 : attrs m1 <> None).
  { destruct Hm1 as [_ [_ [_ [_ Ha]]]].
    destruct (attrs m), (attrs m1); try contradiction; discriminate. }
  destruct (fix_kind fs (get_attr m "IFLA_IFNAME") m1) as [[r|e] m2] eqn:Hk;
    [|discriminate].
  destruct (fix_kind_declares fs _ m1 m2 r Hk)
    as [[_ Hnone] | [li [k [Hli [Hkind Hfrom]]]]];
    [contradiction|].
  rewrite Hsame in Hfrom.
  destruct r as [kind|].
  - pose proof (only_extends_fetch_info_data X fs (get_attr m "IFLA_IFNAME") kind m2)
      as Hm3.
    rewrite Hrun in Hm3. simpl in Hm3.
    destruct Hm3 as [_ [_ [_ [_ Ha]]]].
    assert (Hfin : exists more,
               get_attr m' "IFLA_LINKINFO" = Some (VNla (Some (li ++ more)%list))).
    { unfold get_attr in *.
      destruct (attrs m2) as [l2|], (attrs m') as [l3|]; try contradiction;
        simpl in *; try discriminate.
      destruct Ha as [kept [added [-> F]]].
      exact (lookup_linkinfo_kept l2 kept added li F Hli). }
    destruct Hfin as [more Hmore].
    exists (li ++ more)%list, k. split; [exact Hmore|].
    split; [apply lookup_attr_app_some; exact Hkind | exact Hfrom].
  - injection Hrun as <-. exists li, k.
    split; [assumption|]. split; assumption.
Qed.

(** On [eth0], with no link-info in the message: the block is added with
    the kind that sysfs gives. *)
Lemma compat_fix_attrs_declares_kind_witness :
  exists li k,
    get_attr (snd (compat_fix_attrs Demo.X0 Demo.fs_port Demo.legacy Demo.eth0_plain))
             "IFLA_LINKINFO" = Some (VNla (Some li)) /\
    lookup_attr "IFLA_INFO_KIND" li = Some k /\
    ((exists li0,
         get_attr Demo.eth0_plain "IFLA_LINKINFO" = Some (VNla (Some li0)) /\
         lookup_attr "IFLA_INFO_KIND" li0 = Some k)
     \/
     ((get_attr Demo.eth0_plain "IFLA_LINKINFO" = None
       \/ exists li0,
            get_attr Demo.eth0_plain "IFLA_LINKINFO" = Some (VNla (Some li0)) /\
            lookup_attr "IFLA_INFO_KIND" li0 = None) /\
      exists s,
        get_interface_type Demo.fs_port (get_attr Demo.eth0_plain "IFLA_IFNAME") = Ok s
        /\ k = VStr s)).
Proof.
  apply (compat_fix_attrs_declares_kind
           Demo.X0 Demo.fs_port Demo.legacy Demo.eth0_plain).
  - vm_compute. reflexivity.
  - discriminate.
Defined.

(** ** Enrichment of a message that needs nothing *)

(** With the [provide_master] capability, a message whose link-info block
    declares a kind is left exactly as it is, and nothing is raised,
    whatever sysfs holds, unless the kind is bond or bridge and the block
    has an info-data attribute. *)
Theorem compat_fix_attrs_leaves_complete_message
        (X : externals) (fs : sysfs) (caps : capabilities) (m : nlmsg)
        (li : list attr) (k : value) :
  provide_master caps = true ->
  get_attr m "IFLA_LINKINFO" = Some (VNla (Some li)) ->
  lookup_attr "IFLA_INFO_KIND" li = Some k ->
  (value_is_str (Some k) "bridge" = false /\ value_is_str (Some k) "bond" = false)
  \/ has_info_data li = false ->
  compat_fix_attrs X fs caps m = (Ok tt, m).
Proof.
  intros Hcap Hli Hk Hwhy.
  assert (H1 : fix_master X fs caps (get_attr m "IFLA_IFNAME") m = (Ok tt, m)).
  { unfold fix_master. rewrite Hcap. reflexivity. }
  assert (H2 : fix_kind fs (get_attr m "IFLA_IFNAME") m = (Ok (Some (Some k)), m)).
  { unfold fix_kind, bind, get_state, lift, ret. cbv beta iota.
    rewrite Hli. simpl value_get_attr. cbv beta iota. rewrite Hk. reflexivity. }
  assert (H3 : fetch_info_data X fs (get_attr m "IFLA_IFNAME") (Some k) m = (Ok tt, m)).
  { unfold fetch_info_data, bind, get_state, ret. cbv beta iota. rewrite Hli.
    destruct Hwhy as [[Hbr Hbo] | Hno].
    - rewrite Hbr, Hbo. reflexivity.
    - rewrite Hno.
      destruct (value_is_str (Some k) "bridge" || value_is_str (Some k) "bond")%bool;
        reflexivity. }
  unfold compat_fix_attrs, bind, get_state. cbv beta iota.
  rewrite H1, H2. exact H3.
Qed.

Lemma compat_fix_attrs_leaves_complete_message_witness :
  compat_fix_attrs Demo.X0 Demo.fs_bond
                   {| provide_master := true; create_bond := true;
                      create_bridge := true |}
                   Demo.bond0_kind_only
  = (Ok tt, Demo.bond0_kind_only).
Proof.
  apply (compat_fix_attrs_leaves_complete_message
           Demo.X0 Demo.fs_bond _ Demo.bond0_kind_only
           [("IFLA_INFO_KIND", VStr "bond")] (VStr "bond")).
  - reflexivity.
  - reflexivity.
  - reflexivity.
  - right. reflexivity.
Defined.

(** ** The info-response path and exceptions that are not OS errors *)

(** A master file that opens and holds a text that is not an integer
    makes enrichment raise [ValueError], with the message untouched. *)
Lemma compat_fix_attrs_bad_master X fs caps (m : nlmsg) content :
  provide_master caps = false ->
  fs_open fs (_BRIDGE_MASTER (py_str_opt (get_attr m "IFLA_IFNAME")))
  = Opened (ReadOk content) ->
  py_int content = None ->
  compat_fix_attrs X fs caps m
  = (Raise (ValueError (int_error content)), m).
Proof.
  intros Hcap Hopen Hint.
  assert (H1 : fix_master X fs caps (get_attr m "IFLA_IFNAME") m
               = (Raise (ValueError (int_error content)), m)).
  { unfold fix_master. rewrite Hcap. simpl negb. cbv iota.
    unfold bind, lift, compat_get_master, first_master_file, open_master_file.
    rewrite Hopen, Hint. reflexivity. }
  unfold compat_fix_attrs, bind, get_state. cbv beta iota. rewrite H1. reflexivity.
Qed.

(** Only OS errors are absorbed by [proxy_linkinfo]: when the master file
    of one message of the batch holds a text that is not an integer, the
    call returns no buffer at all, whatever comes before and after that
    message; and when the messages before it are processed, what leaves
    [compat_get_master], [compat_fix_attrs] and [proxy_linkinfo] is the
    [ValueError] of [int()]. *)
Theorem proxy_linkinfo_aborts_on_bad_master
        (X : externals) (fs : sysfs) (caps : capabilities) (bytes : list Byte.byte)
        (pre post : list nlmsg) (m : nlmsg) (content : string) :
  provide_master caps = false ->
  marshal_parse X bytes = (pre ++ m :: post)%list ->
  event m <> "NLMSG_ERROR" ->
  fs_open fs (_BRIDGE_MASTER (py_str_opt (get_attr m "IFLA_IFNAME")))
  = Opened (ReadOk content) ->
  py_int content = None ->
  (exists e, proxy_linkinfo X fs caps bytes = Raise e) /\
  (forall segs,
      linkinfo_processed X fs caps pre segs ->
      proxy_linkinfo X fs caps bytes = Raise (ValueError (int_error content))).
Proof.
  intros Hcap Hparse Hev Hopen Hint.
  assert (Hends : linkinfo_ends_call X fs caps m (ValueError (int_error content))).
  { unfold linkinfo_ends_call. split; [exact Hev|].
    rewrite (compat_fix_attrs_bad_master X fs caps m content Hcap Hopen Hint).
    reflexivity. }
  assert (Hlater : forall segs,
             linkinfo_processed X fs caps pre segs ->
             proxy_linkinfo X fs caps bytes = Raise (ValueError (int_error content))).
  { intros segs Hp. unfold proxy_linkinfo.
    rewrite Hparse, (linkinfo_loop_app X fs caps pre (m :: post) segs Hp).
    rewrite (linkinfo_loop_aborts X fs caps m post _ _ Hends). reflexivity. }
  split; [|exact Hlater].
  unfold proxy_linkinfo. rewrite Hparse.
  assert (Hany : forall buf, exists e,
             linkinfo_loop X fs caps (pre ++ m :: post) buf = Raise e).
  { clear Hparse Hlater. induction pre as [|x pre IH]; intros buf.
    - exists (ValueError (int_error content)).
      apply (linkinfo_loop_aborts X fs caps m post buf _ Hends).
    - simpl. destruct (linkinfo_step X fs caps x) as [b|e].
      + apply IH.
      + exists e. reflexivity. }
  destruct (Hany []) as [e He]. exists e. rewrite He. reflexivity.
Qed.

Lemma proxy_linkinfo_aborts_on_bad_master_witness :
  proxy_linkinfo Cases.X_three Cases.fs_garbage Demo.legacy Cases.wire
  = Raise (ValueError "invalid literal for int() with base 10: 'none'").
Proof.
  apply (proj2 (proxy_linkinfo_aborts_on_bad_master
                  Cases.X_three Cases.fs_garbage Demo.legacy Cases.wire
                  [Demo.read_from Cases.wire Demo.error_reply]
                  [Demo.read_from Cases.wire Demo.bond0_kind_only]
                  (Demo.read_from Cases.wire Demo.eth0_plain) "none"
                  ltac:(reflexivity) ltac:(reflexivity) ltac:(discriminate)
                  ltac:(reflexivity) ltac:(reflexivity))
               [Cases.wire]).
  constructor; [|constructor].
  split; [intros Hne; exfalso; apply Hne; reflexivity | reflexivity].
Defined.

(** ** Delete-link *)

(** [proxy_dellink] on an interface that the link table knows, of a kind
    it handles itself. *)
Lemma proxy_dellink_to_executor X sys caps imsg tr found others li kind :
  os_get_links sys tr (Some (VInt (index (ifinfmsg_decode X (data imsg)))))
  = Ok (found :: others) ->
  get_attr found "IFLA_LINKINFO" = Some (VNla li) ->
  nla_get_attr li "IFLA_INFO_KIND" = Some (VStr kind) ->
  (kind = "bond" /\ create_bond caps = false
   \/ kind = "bridge" /\ create_bridge caps = false) ->
  proxy_dellink X sys caps imsg tr
  = bind ((if String.eqb kind "bond" then compat_del_bond X sys
           else compat_del_bridge X sys)
            (dellink_target (ifinfmsg_decode X (data imsg)) found))
         (fun _ => ret Consumed) tr.
Proof.
  intros Hlinks Hli Hk Hkind.
  unfold proxy_dellink, get_links.
  unfold bind at 1. rewrite Hlinks.
  fold (dellink_target (ifinfmsg_decode X (data imsg)) found).
  change (get_attr (dellink_target (ifinfmsg_decode X (data imsg)) found)
                   "IFLA_LINKINFO")
    with (get_attr found "IFLA_LINKINFO").
  rewrite Hli. unfold bind at 1. unfold lift at 1. simpl value_get_attr.
  rewrite Hk.
  destruct Hkind as [[-> Hc] | [-> Hc]]; rewrite Hc; reflexivity.
Qed.

(** Deleting a bond without the [create_bond] capability: the interface
    is looked up in the link table, the watcher is started for the type of
    the request and the name found, the link is brought down with [ip],
    and only when that command exits with 0 is [-name] written to the
    control file of bonding.  A command that fails is raised as it is and
    the control file is not touched.  The [finally] block of the decorator
    closes every case. *)
Theorem proxy_dellink_bond
        (X : externals) (sys : os) (caps : capabilities) (imsg : nlmsg)
        (tr : list action) (found : nlmsg) (others : list nlmsg)
        (li : option (list attr)) (ev name : string) :
  os_get_links sys tr (Some (VInt (index (ifinfmsg_decode X (data imsg)))))
  = Ok (found :: others) ->
  get_attr found "IFLA_LINKINFO" = Some (VNla li) ->
  nla_get_attr li "IFLA_INFO_KIND" = Some (VStr "bond") ->
  create_bond caps = false ->
  RTM_VALUES X (header_type (ifinfmsg_decode X (data imsg))) = Some ev ->
  get_attr found "IFLA_IFNAME" = Some (VStr name) ->
  let tr1 := (tr ++ [PipeCreate; ThreadStart ev (Some (VStr name))])%list in
  let down := ["ip"; "link"; "set"; "dev"; name; "down"] in
  let closing := [PipeWrite; ThreadJoin; PipeClose true; PipeClose false] in
  proxy_dellink X sys caps imsg tr
  = match os_spawn sys tr1 down with
    | Exited rc =>
        if rc =? 0 then
          let tr2 := (tr1 ++ [Spawn down (Exited rc)])%list in
          let errno := os_write sys tr2 _BONDING_MASTERS ("-" ++ name) in
          (if errno =? 0 then Ok Consumed else Raise (OSError errno),
           tr2 ++ [FileWrite _BONDING_MASTERS ("-" ++ name) errno] ++ closing)%list
        else
          (Raise (CalledProcessError rc),
           tr1 ++ [Spawn down (Exited rc)] ++ closing)%list
    | SpawnError errno =>
        (Raise (OSError errno), tr1 ++ [Spawn down (SpawnError errno)] ++ closing)%list
    end.
Proof.
  intros Hlinks Hli Hk Hcap Hev Hname tr1 down closing.
  rewrite (proxy_dellink_to_executor X sys caps imsg tr found others li "bond"
             Hlinks Hli Hk (or_introl (conj eq_refl Hcap))).
  change (String.eqb "bond" "bond") with true. cbv iota.
  unfold bind at 1. unfold compat_del_bond.
  rewrite (sync_runs X _ (dellink_target (ifinfmsg_decode X (data imsg)) found) tr ev Hev).
  change (get_attr (dellink_target (ifinfmsg_decode X (data imsg)) found) "IFLA_IFNAME")
    with (get_attr found "IFLA_IFNAME").
  rewrite Hname. fold tr1.
  unfold bind, lift, argv_item, subprocess_check_call, subprocess_call, bind,
    write_file, ret, raise.
  fold down. destruct (os_spawn sys tr1 down) as [rc|errno].
  - destruct (rc =? 0).
    + cbn [fst snd].
      destruct (os_write sys (tr1 ++ [Spawn down (Exited rc)])%list
                         _BONDING_MASTERS ("-" ++ name) =? 0);
        cbn [fst snd]; subst tr1; rewrite <- !app_assoc; reflexivity.
    + cbn [fst snd]. subst tr1. rewrite <- !app_assoc. reflexivity.
  - cbn [fst snd]. subst tr1. rewrite <- !app_assoc. reflexivity.
Qed.

(** [bond0] cannot be brought down: it is not removed. *)
Lemma proxy_dellink_bond_witness :
  proxy_dellink (Demo.X_of Cases.del_request)
                (Cases.sys_with Cases.ip_fails [Demo.bond0_kind_only])
                Demo.legacy Cases.del_request []
  = (Raise (CalledProcessError 1),
     [PipeCreate; ThreadStart "RTM_DELLINK" (Some (VStr "bond0"));
      Spawn ["ip"; "link"; "set"; "dev"; "bond0"; "down"] (Exited 1);
      PipeWrite; ThreadJoin; PipeClose true; PipeClose false]).
Proof.
  rewrite (proxy_dellink_bond
             (Demo.X_of Cases.del_request)
             (Cases.sys_with Cases.ip_fails [Demo.bond0_kind_only])
             Demo.legacy Cases.del_request [] Demo.bond0_kind_only []
             (Some [("IFLA_INFO_KIND", VStr "bond")]) "RTM_DELLINK" "bond0");
    try reflexivity.
Defined.

(** Deleting a bridge without the [create_bridge] capability: the link is
    brought down with [ip] and only then [brctl delbr] is run; the first
    command that fails is raised as it is and nothing more is run. *)
Theorem proxy_dellink_bridge
        (X : externals) (sys : os) (caps : capabilities) (imsg : nlmsg)
        (tr : list action) (found : nlmsg) (others : list nlmsg)
        (li : option (list attr)) (ev name : string) :
  os_get_links sys tr (Some (VInt (index (ifinfmsg_decode X (data imsg)))))
  = Ok (found :: others) ->
  get_attr found "IFLA_LINKINFO" = Some (VNla li) ->
  nla_get_attr li "IFLA_INFO_KIND" = Some (VStr "bridge") ->
  create_bridge caps = false ->
  RTM_VALUES X (header_type (ifinfmsg_decode X (data imsg))) = Some ev ->
  get_attr found "IFLA_IFNAME" = Some (VStr name) ->
  let tr1 := (tr ++ [PipeCreate; ThreadStart ev (Some (VStr name))])%list in
  let down := ["ip"; "link"; "set"; "dev"; name; "down"] in
  let delbr := ["brctl"; "delbr"; name] in
  let closing := [PipeWrite; ThreadJoin; PipeClose true; PipeClose false] in
  let failed (out : spawn_outcome) : exn :=
    match out with
    | Exited rc => CalledProcessError rc
    | SpawnError errno => OSError errno
    end in
  proxy_dellink X sys caps imsg tr
  = let out1 := os_spawn sys tr1 down in
    if succeeded (Spawn down out1) then
      let tr2 := (tr1 ++ [Spawn down out1])%list in
      let out2 := os_spawn sys tr2 delbr in
      (if succeeded (Spawn delbr out2) then Ok Consumed else Raise (failed out2),
       tr2 ++ [Spawn delbr out2] ++ closing)%list
    else (Raise (failed out1), tr1 ++ [Spawn down out1] ++ closing)%list.
Proof.
  intros Hlinks Hli Hk Hcap Hev Hname tr1 down delbr closing failed.
  rewrite (proxy_dellink_to_executor X sys caps imsg tr found others li "bridge"
             Hlinks Hli Hk (or_intror (conj eq_refl Hcap))).
  change (String.eqb "bridge" "bond") with false. cbv iota.
  unfold bind at 1. unfold compat_del_bridge.
  rewrite (sync_runs X _ (dellink_target (ifinfmsg_decode X (data imsg)) found) tr ev Hev).
  change (get_attr (dellink_target (ifinfmsg_decode X (data imsg)) found) "IFLA_IFNAME")
    with (get_attr found "IFLA_IFNAME").
  rewrite Hname. fold tr1.
  unfold bind, lift, argv_item, subprocess_check_call, subprocess_call, bind,
    ret, raise.
  fold down. fold delbr. cbv zeta. unfold succeeded, failed.
  destruct (os_spawn sys tr1 down) as [rc|errno].
  - destruct (rc =? 0).
    + cbn [fst snd].
      destruct (os_spawn sys (tr1 ++ [Spawn down (Exited rc)])%list delbr)
        as [rc2|errno2].
      * destruct (rc2 =? 0); cbn [fst snd]; subst tr1;
          rewrite <- !app_assoc; reflexivity.
      * cbn [fst snd]. subst tr1. rewrite <- !app_assoc. reflexivity.
    + cbn [fst snd]. subst tr1. rewrite <- !app_assoc. reflexivity.
  - cbn [fst snd]. subst tr1. rewrite <- !app_assoc. reflexivity.
Qed.

(** [br0] is brought down and removed. *)
Lemma proxy_dellink_bridge_witness :
  proxy_dellink (Demo.X_of Cases.del_request)
                (Cases.sys_with (fun _ => Exited 0) [Cases.br0])
                Demo.legacy Cases.del_request []
  = (Ok Consumed,
     [PipeCreate; ThreadStart "RTM_DELLINK" (Some (VStr "br0"));
      Spawn ["ip"; "link"; "set"; "dev"; "br0"; "down"] (Exited 0);
      Spawn ["brctl"; "delbr"; "br0"] (Exited 0);
      PipeWrite; ThreadJoin; PipeClose true; PipeClose false]).
Proof.
  rewrite (proxy_dellink_bridge
             (Demo.X_of Cases.del_request)
             (Cases.sys_with (fun _ => Exited 0) [Cases.br0])
             Demo.legacy Cases.del_request [] Cases.br0 []
             (Some [("IFLA_INFO_KIND", VStr "bridge")]) "RTM_DELLINK" "br0");
    try reflexivity.
Defined.

(** [proxy_dellink] takes nothing from the request but its index, its
    header type and its wire bytes: whatever attributes the request
    carries, a link-info block that declares a kind included, the outcome
    and the actions are those for the request without them.  The kind is
    the one of the link table. *)
Theorem proxy_dellink_ignores_request_attrs
        (X : externals) (sys : os) (caps : capabilities) (imsg : nlmsg)
        (tr : list action) (a : option (list attr)) :
  proxy_dellink (with_decode X (fun bytes => set_attrs (ifinfmsg_decode X bytes) a))
                sys caps imsg tr
  = proxy_dellink X sys caps imsg tr.
Proof.
  unfold proxy_dellink, with_decode, bind, get_links, lift. simpl.
  destruct (os_get_links sys tr (Some (VInt (index (ifinfmsg_decode X (data imsg))))))
    as [[|found others]|e]; reflexivity.
Qed.


(** ** The tun control device *)

Lemma issues_ioctls_ioctl sys request arg : issues_ioctls (ioctl sys request arg) 1 1.
Proof.
  intros tr. exists [Ioctl request arg (os_ioctl sys tr request arg)].
  unfold ioctl. simpl forallb. simpl removelast.
  destruct (os_ioctl sys tr request arg =? 0) eqn:He; simpl.
  - repeat split; auto.
  - split; [reflexivity|]. split; [reflexivity|]. split; [lia|].
    split; [reflexivity|]. split; [split; discriminate|].
    right. eexists. reflexivity.
Qed.

Lemma issues_ioctls_if_given sys request arg :
  issues_ioctls (ioctl_if_given sys request arg) 0 1.
Proof.
  destruct arg as [v|]; simpl.
  - intros tr. destruct (issues_ioctls_ioctl sys request (inl v) tr)
      as [ios [H1 [H2 [H3 [H4 [H5 H6]]]]]].
    exists ios. split; [exact H1|]. split; [exact H2|]. split; [lia|].
    split; [exact H4|]. split; [exact H5 | exact H6].
  - intros tr. exists []. rewrite app_nil_r. simpl. repeat split; auto.
Qed.

Lemma forallb_removelast {A} (f : A -> bool) (l : list A) :
  forallb f l = true -> forallb f (removelast l) = true.
Proof.
  induction l as [|a l IH]; simpl; [trivial|].
  intros H. apply andb_true_iff in H. destruct H as [Ha Hl].
  destruct l as [|b l]; [reflexivity|].
  simpl forallb. simpl forallb in IH. rewrite Ha. simpl. apply IH. exact Hl.
Qed.

Lemma issues_ioctls_then (c1 c2 : IO unit) (lo1 hi1 lo2 hi2 : nat) :
  issues_ioctls c1 lo1 hi1 -> issues_ioctls c2 lo2 hi2 ->
  issues_ioctls (bind c1 (fun _ => c2)) lo1 (hi1 + hi2).
Proof.
  intros H1 H2 tr. unfold bind.
  destruct (H1 tr) as [ios1 [Ht1 [Hi1 [Hl1 [Hp1 [Hr1 Hc1]]]]]].
  destruct (c1 tr) as [[[]|e] tr1]; simpl in Ht1, Hr1, Hc1; subst tr1.
  - destruct (H2 (tr ++ ios1)%list) as [ios2 [Ht2 [Hi2 [Hl2 [Hp2 [Hr2 Hc2]]]]]].
    exists (ios1 ++ ios2)%list. rewrite Ht2, <- app_assoc, !forallb_app, length_app.
    rewrite Hi1, Hi2. split; [reflexivity|]. split; [reflexivity|].
    split; [lia|]. pose proof (proj1 Hr1 eq_refl) as Hok1. split; [|split].
    + destruct ios2 as [|a ios2].
      * rewrite app_nil_r. apply forallb_removelast. exact Hok1.
      * rewrite removelast_app by discriminate.
        rewrite forallb_app, Hok1, Hp2. reflexivity.
    + rewrite Hok1. simpl. exact Hr2.
    + exact Hc2.
  - exists ios1. simpl. split; [reflexivity|]. split; [exact Hi1|].
    split; [lia|]. split; [exact Hp1|]. split; [|exact Hc1].
    split; [discriminate|]. intros H. apply Hr1 in H. discriminate.
Qed.

(** Whatever the request and whatever the system answers, the function
    behind [manage_tuntap] keeps to one discipline on the tun control
    device: it raises before it opens it; or the open fails and that
    error is raised, with no ioctl and no close; or the device is opened,
    between one and four ioctls are issued, none after one that failed
    (every ioctl but the last one succeeded), and the descriptor is
    closed, once and last, whether they succeeded or not.  It returns
    normally exactly when every ioctl succeeded, and raises the error of
    the system otherwise. *)
Theorem manage_tuntap_body_device_discipline
        (sys : os) (p : platform) (msg : nlmsg) (tr : list action) :
  exists r delta,
    manage_tuntap_body sys p msg tr = (r, tr ++ delta)%list /\
    ((delta = [] /\ exists e, r = Raise e)
     \/ (exists errno, errno <> 0 /\ delta = [TunOpen errno] /\ r = Raise (OSError errno))
     \/ (exists ios,
            delta = (TunOpen 0 :: ios ++ [TunClose])%list /\
            (1 <= List.length ios <= 4)%nat /\
            forallb is_ioctl ios = true /\
            forallb ioctl_ok (removelast ios) = true /\
            (r = Ok tt <-> forallb ioctl_ok ios = true) /\
            (r = Ok tt \/ exists errno, r = Raise (OSError errno)))).
Proof.
  assert (Hearly : forall e, exists r delta,
             (@Raise unit e, tr) = (r, tr ++ delta)%list /\
             ((delta = [] /\ exists e, r = Raise e)
              \/ (exists errno, errno <> 0 /\ delta = [TunOpen errno]
                                /\ r = Raise (OSError errno))
              \/ (exists ios,
                     delta = (TunOpen 0 :: ios ++ [TunClose])%list /\
                     (1 <= List.length ios <= 4)%nat /\
                     forallb is_ioctl ios = true /\
                     forallb ioctl_ok (removelast ios) = true /\
                     (r = Ok tt <-> forallb ioctl_ok ios = true) /\
                     (r = Ok tt \/ exists errno, r = Raise (OSError errno))))).
  { intros e. exists (Raise e), []. rewrite app_nil_r.
    split; [reflexivity|]. left. split; [reflexivity | exists e; reflexivity]. }
  unfold manage_tuntap_body.
  destruct (tun_requests_of (machine p)) as [req|]; [|apply Hearly].
  destruct (negb (header_type msg =? RTM_NEWLINK)); [apply Hearly|].
  unfold bind at 1. unfold lift at 1.
  destruct (value_get_attr (get_attr msg "IFLA_LINKINFO") "IFLA_INFO_DATA")
    as [infodata|e]; [|apply Hearly].
  unfold bind at 1. unfold lift at 1.
  destruct (infodata_attrs infodata) as [d|e]; [|apply Hearly].
  unfold bind at 1. unfold lift at 1.
  destruct (tuntap_flags d) as [flags|e]; [|apply Hearly].
  unfold bind at 1. unfold lift at 1.
  destruct (tuntap_ifr p msg flags) as [ifr|e]; [|apply Hearly].
  cbv zeta. unfold bind at 1. unfold tun_open.
  destruct (os_tun_open sys tr =? 0) eqn:Hopen.
  - apply Z.eqb_eq in Hopen. rewrite Hopen.
    set (chain := bind (ioctl sys (TUNSETIFF req) (inr ifr)) _).
    assert (Hchain : issues_ioctls chain 1 (1 + (1 + (1 + 1)))).
    { unfold chain.
      eapply issues_ioctls_then; [apply issues_ioctls_ioctl|].
      eapply issues_ioctls_then; [apply issues_ioctls_if_given|].
      eapply issues_ioctls_then; [apply issues_ioctls_if_given|].
      apply issues_ioctls_ioctl. }
    destruct (Hchain (tr ++ [TunOpen 0])%list) as [ios [Ht [Hi [Hl [Hp [Hr Hc]]]]]].
    unfold try_finally, log.
    destruct (chain (tr ++ [TunOpen 0])%list) as [r tr2]. simpl in Ht, Hr, Hc. subst tr2.
    exists r, (TunOpen 0 :: ios ++ [TunClose])%list. split.
    + rewrite <- !app_assoc. reflexivity.
    + right. right. exists ios. simpl in Hl.
      split; [reflexivity|]. split; [lia|]. split; [exact Hi|].
      split; [exact Hp|]. split; [exact Hr | exact Hc].
  - exists (Raise (OSError (os_tun_open sys tr))), [TunOpen (os_tun_open sys tr)].
    split; [reflexivity|]. right. left. exists (os_tun_open sys tr).
    apply Z.eqb_neq in Hopen. repeat split; assumption.
Qed.

(** ** The request buffer of the tun ioctl *)

Lemma encode_ascii_length (s : string) (l : list Byte.byte) :
  encode_ascii s = Ok l -> List.length l = String.length s.
Proof.
  revert l. induction s as [|c r IH]; intros l H; simpl in H.
  - injection H as <-. reflexivity.
  - destruct (nat_of_ascii c <? 128)%nat; [|discriminate].
    destruct (encode_ascii r) as [l'|e]; [|discriminate].
    injection H as <-. simpl. f_equal. apply IH. reflexivity.
Qed.

Lemma string_length_app (a b : string) :
  String.length (a ++ b) = (String.length a + String.length b)%nat.
Proof. induction a as [|c a IH]; simpl; [reflexivity | now rewrite IH]. Qed.

Lemma zeros_length (n : nat) : String.length (zeros n) = n.
Proof. induction n as [|n IH]; simpl; [reflexivity | now rewrite IH]. Qed.

Lemma pack_H_length (p : platform) (n : Z) : List.length (pack_H p n) = 2%nat.
Proof. unfold pack_H. destruct (big_endian p); reflexivity. Qed.

Lemma tuntap_flags_range (d : option (list attr)) (flags : Z) :
  tuntap_flags d = Ok flags ->
  0 < flags < 65536 /\ (Z.land flags 3 = IFT_TUN \/ Z.land flags 3 = IFT_TAP).
Proof.
  unfold tuntap_flags, or_flag. intros H.
  destruct (value_is_str (nla_get_attr d "IFTUN_MODE") "tun");
    [|destruct (value_is_str (nla_get_attr d "IFTUN_MODE") "tap"); [|discriminate]];
    (destruct (nla_get_attr d "IFTUN_IFR") as [fl|];
     [ destruct (flag_set fl "no_pi") as [[|]|]; try discriminate;
       destruct (flag_set fl "one_queue") as [[|]|]; try discriminate;
       destruct (flag_set fl "vnet_hdr") as [[|]|]; try discriminate;
       destruct (flag_set fl "multi_queue") as [[|]|]; try discriminate
     | ]);
    injection H as <-; vm_compute; intuition congruence.
Qed.

Lemma encode_ascii_bytes (s : string) (l : list Byte.byte) :
  encode_ascii s = Ok l ->
  l = map byte_of_ascii (list_ascii_of_string s) /\
  Forall (fun c => (nat_of_ascii c < 128)%nat) (list_ascii_of_string s).
Proof.
  revert l. induction s as [|c r IH]; intros l H; simpl in H.
  - injection H as <-. split; [reflexivity | constructor].
  - destruct (nat_of_ascii c <? 128)%nat eqn:Hc; [|discriminate].
    destruct (encode_ascii r) as [l'|e]; [|discriminate].
    injection H as <-. destruct (IH l' eq_refl) as [-> Hall]. simpl. split.
    + reflexivity.
    + constructor; [apply Nat.ltb_lt; exact Hc | exact Hall].
Qed.

Lemma list_ascii_of_string_app (a b : string) :
  list_ascii_of_string (a ++ b)
  = (list_ascii_of_string a ++ list_ascii_of_string b)%list.
Proof. induction a as [|c a IH]; simpl; [reflexivity | now rewrite IH]. Qed.

Lemma list_ascii_of_zeros (n : nat) :
  list_ascii_of_string (zeros n) = repeat zero n.
Proof. induction n as [|n IH]; simpl; [reflexivity | now rewrite IH]. Qed.

Lemma list_ascii_length (s : string) :
  List.length (list_ascii_of_string s) = String.length s.
Proof. induction s as [|c s IH]; simpl; [reflexivity | now rewrite IH]. Qed.

(** Whenever [manage_tuntap] gets as far as building its request buffer,
    the flags word has exactly one of the tun and tap bits and fits in
    sixteen bits, so packing it as an unsigned short cannot overflow, and
    the buffer is eighteen bytes long: first the interface name, which
    has at most sixteen characters, all of them ASCII, one byte each and
    padded with zero bytes to sixteen; then the two bytes of the flags in
    the byte order of the machine. *)
Theorem tuntap_ifr_layout (p : platform) (msg : nlmsg) (d : option (list attr))
        (flags : Z) (bytes : list Byte.byte) :
  tuntap_flags d = Ok flags ->
  tuntap_ifr p msg flags = Ok bytes ->
  0 < flags < 65536 /\
  (Z.land flags 3 = IFT_TUN \/ Z.land flags 3 = IFT_TAP) /\
  List.length bytes = 18%nat /\
  skipn 16 bytes = pack_H p flags /\
  exists name,
    get_attr msg "IFLA_IFNAME" = Some (VStr name) /\
    (String.length name <= 16)%nat /\
    Forall (fun c => (nat_of_ascii c < 128)%nat) (list_ascii_of_string name) /\
    firstn 16 bytes
    = (map byte_of_ascii (list_ascii_of_string name)
         ++ repeat Byte.x00 (16 - String.length name))%list.
Proof.
  intros Hf Hb. destruct (tuntap_flags_range d flags Hf) as [Hr Hm].
  split; [exact Hr|]. split; [exact Hm|].
  unfold tuntap_ifr in Hb.
  destruct (get_attr msg "IFLA_IFNAME") as [[| ifr | |]|]; try discriminate.
  destruct (Z.of_nat (String.length ifr) >? IFNAMSIZ) eqn:Hlen; [discriminate|].
  destruct (encode_ascii (ifr ++ zeros (Z.to_nat IFNAMSIZ - String.length ifr)))
    as [name|e] eqn:Hn; [|discriminate].
  injection Hb as <-.
  assert (Hle : (String.length ifr <= 16)%nat).
  { unfold IFNAMSIZ in Hlen. lia. }
  pose proof (encode_ascii_length _ _ Hn) as Hnl.
  rewrite string_length_app, zeros_length in Hnl.
  assert (H16 : List.length name = 16%nat).
  { rewrite Hnl. unfold IFNAMSIZ. lia. }
  destruct (encode_ascii_bytes _ _ Hn) as [Hbytes Hall].
  rewrite list_ascii_of_string_app, list_ascii_of_zeros in Hbytes, Hall.
  split; [|split].
  - rewrite length_app, pack_H_length, H16. reflexivity.
  - rewrite skipn_app, H16. simpl (16 - 16)%nat. simpl (skipn 0 _).
    rewrite skipn_all2 by lia. reflexivity.
  - exists ifr. split; [reflexivity|]. split; [exact Hle|]. split.
    + apply Forall_app in Hall. apply Hall.
    + rewrite firstn_app, H16. simpl (16 - 16)%nat. simpl (firstn 0 _).
      rewrite app_nil_r, firstn_all2 by lia.
      rewrite Hbytes, map_app, map_repeat.
      change (Z.to_nat IFNAMSIZ) with 16%nat. reflexivity.
Qed.

Lemma tuntap_ifr_layout_witness :
  (0 < 16385 < 65536 /\
   (Z.land 16385 3 = IFT_TUN \/ Z.land 16385 3 = IFT_TAP) /\
   List.length (match tuntap_ifr Demo.sparc64 Demo.tun_good 16385 with
                | Ok b => b | Raise _ => [] end) = 18%nat /\
   skipn 16 (match tuntap_ifr Demo.sparc64 Demo.tun_good 16385 with
             | Ok b => b | Raise _ => [] end) = pack_H Demo.sparc64 16385 /\
   exists name,
     get_attr Demo.tun_good "IFLA_IFNAME" = Some (VStr name) /\
     (String.length name <= 16)%nat /\
     Forall (fun c => (nat_of_ascii c < 128)%nat) (list_ascii_of_string name) /\
     firstn 16 (match tuntap_ifr Demo.sparc64 Demo.tun_good 16385 with
                | Ok b => b | Raise _ => [] end)
     = (map byte_of_ascii (list_ascii_of_string name)
          ++ repeat Byte.x00 (16 - String.length name))%list).
Proof.
  apply (tuntap_ifr_layout Demo.sparc64 Demo.tun_good Cases.tun_vnet_hdr).
  - vm_compute. reflexivity.
  - vm_compute. reflexivity.
Defined.

(** ** The decorator on the thread machine *)

Lemma watcher_never_matches_witness :
  SyncProtocol.watcher
    (match SyncProtocol.run Demo.call_ok Demo.schedule_notified (SyncProtocol.init []) with
     | Some s => s
     | None => SyncProtocol.init []
     end)
  <> SyncProtocol.WFinished SyncProtocol.Matched.
Proof.
  apply (watcher_never_matches unit Demo.call_ok [] Demo.schedule_notified).
  vm_compute. reflexivity.
Defined.

Lemma joined_means_terminated_witness :
  SyncProtocol.terminated
    (match SyncProtocol.run Demo.call_failing Demo.schedule_silent (SyncProtocol.init []) with
     | Some s => s
     | None => SyncProtocol.init []
     end) = true.
Proof.
  apply (joined_means_terminated unit Demo.call_failing [] Demo.schedule_silent).
  - vm_compute. reflexivity.
  - exists (Raise (OSError 3)). right. right. vm_compute. reflexivity.
Defined.

Section UnknownType.

Import SyncProtocol.

Variable A : Type.
Variable c : call A.
Variable tr0 : list action.

Hypothesis unknown : RTM_VALUES (c_X c) (header_type (c_msg c)) = None.

(** When the table of message types does not name the type of the
    request, the decorated function stops with [KeyError] right after
    [os.pipe()], under every schedule: the watcher is never started, the
    wrapped function is never called, the [finally] block is never
    entered, and both ends of the pipe stay open. *)
Theorem sync_unknown_type_leaves_pipe_open (schedule : list label) (s : state A) :
  run c schedule (init tr0) = Some s ->
  watcher s = WNone /\
  (main s = MStart /\ trace s = tr0
   \/ (main s = MPiped \/ main s = MAborted KeyError) /\
      rcmd_open s = true /\ cmd_open s = true /\
      trace s = (tr0 ++ [PipeCreate])%list) /\
  exists s',
    run c [RunMain; RunMain] (init tr0) = Some s' /\
    main s' = MAborted KeyError /\
    step c RunMain s' = None /\ step c RunWatcher s' = None.
Proof.
  intros Hrun.
  destruct (run_inv A c tr0 schedule _ _ (main_inv_init A c tr0)
                    (watcher_inv_init A tr0) Hrun) as [Hm _].
  unfold main_inv, after_body in Hm.
  assert (Hno : forall P : string -> Prop,
             (exists ev, RTM_VALUES (c_X c) (header_type (c_msg c)) = Some ev /\ P ev)
             -> False).
  { intros P [ev [Hev _]]. rewrite unknown in Hev. discriminate. }
  split; [|split].
  - destruct (main s); try (exfalso; exact (Hno _ Hm)); apply Hm.
  - destruct (main s) eqn:Hpc; try (exfalso; exact (Hno _ Hm)).
    + left. split; [reflexivity | apply Hm].
    + right. split; [left; reflexivity|]. repeat split; apply Hm.
    + right. destruct Hm as [_ [-> [_ [Hr [Hc Ht]]]]].
      split; [right; reflexivity|]. repeat split; assumption.
  - eexists. simpl. unfold decorated_step at 1. simpl.
    rewrite unknown. split; [reflexivity|]. repeat split.
Qed.

End UnknownType.

Lemma sync_unknown_type_leaves_pipe_open_witness :
  SyncProtocol.watcher
    (match SyncProtocol.run Cases.call_untyped [SyncProtocol.RunMain; SyncProtocol.RunMain]
                            (SyncProtocol.init []) with
     | Some s => s
     | None => SyncProtocol.init []
     end) = SyncProtocol.WNone.
Proof.
  refine (proj1 (sync_unknown_type_leaves_pipe_open
                   unit Cases.call_untyped [] _
                   [SyncProtocol.RunMain; SyncProtocol.RunMain] _ _)).
  - vm_compute. reflexivity.
  - vm_compute. reflexivity.
Defined.

(** ** Port operations of set-link *)

Lemma port_stage_resolved sys caps msg ifname tr add master :
  resolves_master sys msg tr add master ->
  port_stage sys caps msg ifname tr
  = dispatch_port sys (if add then "add" else "del") master ifname caps tr.
Proof.
  unfold resolves_master, port_stage. intros Hm. destruct add.
  - destruct Hm as [idx [Hattr [Hz Hg]]]. rewrite Hattr.
    assert (Hstep : bind (get_interface sys (Some (VInt idx)))
                      (fun m => dispatch_port sys "add" m ifname caps) tr
                    = dispatch_port sys "add" master ifname caps tr).
    { unfold bind.
      pose proof (get_interface_trace sys (Some (VInt idx)) tr) as Ht.
      destruct (get_interface sys (Some (VInt idx)) tr) as [r0 t0].
      simpl in Hg, Ht. subst r0 t0. reflexivity. }
    destruct idx; [contradiction Hz; reflexivity | exact Hstep | exact Hstep].
  - destruct Hm as [port [Hattr [Hg1 Hg2]]]. rewrite Hattr. unfold bind.
    pose proof (get_interface_trace sys (Some (VInt (index msg))) tr) as Ht.
    destruct (get_interface sys (Some (VInt (index msg))) tr) as [r0 t0].
    simpl in Hg1, Ht. subst r0 t0.
    pose proof (get_interface_trace sys (if_master port) tr) as Ht.
    destruct (get_interface sys (if_master port) tr) as [r0 t0].
    simpl in Hg2, Ht. subst r0 t0. reflexivity.
Qed.

Section PortOperations.

Variable X : externals.
Variable sys : os.
Variable caps : capabilities.
Variable imsg : nlmsg.
Variables tr tr1 : list action.
Variable ifname : option value.
Variable ki : option value * option value.
Variable master : iface.
Variable add : bool.

Hypothesis name_known :
  fst (setlink_ifname sys (ifinfmsg_decode X (data imsg)) tr) = Ok ifname.
Hypothesis kind_known : setlink_kind_data (ifinfmsg_decode X (data imsg)) = Ok ki.
Hypothesis settings_done : set_stage X sys ifname (fst ki) (snd ki) tr = (Ok tt, tr1).
Hypothesis master_found :
  resolves_master sys (ifinfmsg_decode X (data imsg)) tr1 add master.

Lemma proxy_setlink_dispatches :
  proxy_setlink X sys caps imsg tr
  = (match fst (dispatch_port sys (if add then "add" else "del")
                              master ifname caps tr1) with
     | Ok (Some _) => Ok (Forward (data imsg))
     | Ok None => Ok Consumed
     | Raise e => Raise e
     end,
     snd (dispatch_port sys (if add then "add" else "del") master ifname caps tr1)).
Proof.
  rewrite (proxy_setlink_after_set X sys caps imsg tr ifname ki tr1
                                   name_known kind_known settings_done).
  rewrite (port_stage_resolved sys caps _ ifname tr1 add master master_found).
  reflexivity.
Qed.

(** A port of a bridge, on a kernel that does not manage bridges itself:
    once the settings of the request are done, set-link runs
    [brctl addif master port] for an attachment and [brctl delif master
    port] for a removal, and nothing else.  The request is consumed when
    the command exits with 0; a non-zero exit is raised as
    [CalledProcessError] and a command that cannot be started as the
    [OSError] of the system. *)
Theorem proxy_setlink_bridge_port (m p : string) :
  create_bridge caps = false ->
  if_kind master = Some (VStr "bridge") ->
  if_ifname master = Some (VStr m) ->
  ifname = Some (VStr p) ->
  let argv := ["brctl"; if add then "addif" else "delif"; m; p] in
  let out := os_spawn sys tr1 argv in
  proxy_setlink X sys caps imsg tr
  = (match out with
     | Exited rc => if rc =? 0 then Ok Consumed else Raise (CalledProcessError rc)
     | SpawnError errno => Raise (OSError errno)
     end,
     tr1 ++ [Spawn argv out])%list.
Proof.
  intros Hc Hkind Hm Hp argv out. rewrite proxy_setlink_dispatches.
  unfold dispatch_port. rewrite Hkind.
  change (String.eqb "bridge" "team") with false.
  change (String.eqb "bridge" "bridge") with true. cbv iota.
  unfold compat_bridge_port. rewrite Hc, Hm, Hp.
  unfold bind, lift, argv_item, subprocess_check_call, bind, subprocess_call, ret, raise.
  assert (Hargv : ["brctl"; ((if add then "add" else "del") ++ "if")%string; m; p] = argv).
  { unfold argv. destruct add; reflexivity. }
  rewrite Hargv. fold out.
  destruct out as [rc|errno]; [destruct (rc =? 0)|]; reflexivity.
Qed.

(** A port of a team device is handled by [teamdctl], whatever the
    kernel is capable of: set-link runs [teamdctl master port add port]
    for an attachment and [teamdctl master port remove port] for a
    removal, and nothing else.  When the command ran, the request is
    consumed if it exited with 0, and [CalledProcessError] is raised
    otherwise. *)
Theorem proxy_setlink_team_port (m p : string) (rc : Z) :
  if_kind master = Some (VStr "team") ->
  if_ifname master = Some (VStr m) ->
  ifname = Some (VStr p) ->
  let argv := ["teamdctl"; m; "port"; if add then "add" else "remove"; p] in
  os_spawn sys tr1 argv = Exited rc ->
  proxy_setlink X sys caps imsg tr
  = (if rc =? 0 then Ok Consumed else Raise (CalledProcessError rc),
     tr1 ++ [Spawn argv (Exited rc)])%list.
Proof.
  intros Hkind Hm Hp argv Hout. rewrite proxy_setlink_dispatches.
  unfold dispatch_port. rewrite Hkind.
  change (String.eqb "team" "team") with true. cbv iota.
  unfold manage_team_port, map_enoent. rewrite Hm, Hp.
  unfold bind, lift, argv_item, subprocess_check_call, bind, subprocess_call, ret, raise.
  assert (Hargv : ["teamdctl"; m; "port";
                   if String.eqb (if add then "add" else "del") "del"
                   then "remove" else "add"; p] = argv).
  { unfold argv. destruct add; reflexivity. }
  rewrite Hargv, Hout. destruct (rc =? 0); reflexivity.
Qed.

(** Set-link leaves the port to the kernel, and does nothing itself,
    when the master is not a team and the kernel manages its kind: a
    bond on a kernel that creates bonds, a bridge on a kernel that
    creates bridges, and any other kind, among them the kind of an
    interface that reports none.  The request is forwarded with the
    bytes it came with. *)
Theorem proxy_setlink_port_left_to_kernel (k : string) :
  if_kind master = Some (VStr k) ->
  k <> "team" ->
  (k = "bridge" -> create_bridge caps = true) ->
  (k = "bond" -> create_bond caps = true) ->
  proxy_setlink X sys caps imsg tr = (Ok (Forward (data imsg)), tr1).
Proof.
  intros Hkind Hteam Hbridge Hbond. rewrite proxy_setlink_dispatches.
  unfold dispatch_port. rewrite Hkind.
  destruct (String.eqb k "team") eqn:E1.
  { apply String.eqb_eq in E1. contradiction. }
  destruct (String.eqb k "bridge") eqn:E2.
  { apply String.eqb_eq in E2. unfold compat_bridge_port.
    rewrite (Hbridge E2). reflexivity. }
  destruct (String.eqb k "bond") eqn:E3.
  { apply String.eqb_eq in E3. unfold compat_bond_port.
    rewrite (Hbond E3). reflexivity. }
  reflexivity.
Qed.

End PortOperations.

Lemma proxy_setlink_bridge_port_witness :
  proxy_setlink (Demo.X_of Demo.eth0_attach)
                (Cases.sys_with (fun _ => Exited 0) [Cases.br0])
                Demo.legacy Demo.eth0_attach []
  = (Ok Consumed, [Spawn ["brctl"; "addif"; "br0"; "eth0"] (Exited 0)]).
Proof.
  apply (proxy_setlink_bridge_port
           (Demo.X_of Demo.eth0_attach)
           (Cases.sys_with (fun _ => Exited 0) [Cases.br0])
           Demo.legacy Demo.eth0_attach [] [] (Some (VStr "eth0")) (None, None)
           {| if_ifname := Some (VStr "br0"); if_master := None;
              if_kind := Some (VStr "bridge") |} true);
    try reflexivity.
  exists 7. repeat split. discriminate.
Defined.

Lemma proxy_setlink_team_port_witness :
  proxy_setlink (Demo.X_of Demo.eth0_detach)
                (Cases.sys_with (fun _ => Exited 0) [Cases.team0])
                Cases.modern Demo.eth0_detach []
  = (Ok Consumed, [Spawn ["teamdctl"; "team0"; "port"; "remove"; "eth0"] (Exited 0)]).
Proof.
  apply (proxy_setlink_team_port
           (Demo.X_of Demo.eth0_detach)
           (Cases.sys_with (fun _ => Exited 0) [Cases.team0])
           Cases.modern Demo.eth0_detach [] [] (Some (VStr "eth0")) (None, None)
           {| if_ifname := Some (VStr "team0"); if_master := None;
              if_kind := Some (VStr "team") |} false
           ltac:(reflexivity) ltac:(reflexivity) ltac:(reflexivity)
           ltac:(exists {| if_ifname := Some (VStr "team0"); if_master := None;
                           if_kind := Some (VStr "team") |}; repeat split)
           "team0" "eth0" 0);
    reflexivity.
Defined.

Lemma proxy_setlink_port_left_to_kernel_witness :
  proxy_setlink (Demo.X_of Demo.eth0_attach)
                (Cases.sys_with (fun _ => Exited 0) [Demo.eth0_plain])
                Demo.legacy Demo.eth0_attach []
  = (Ok (Forward (data Demo.eth0_attach)), []).
Proof.
  apply (proxy_setlink_port_left_to_kernel
           (Demo.X_of Demo.eth0_attach)
           (Cases.sys_with (fun _ => Exited 0) [Demo.eth0_plain])
           Demo.legacy Demo.eth0_attach [] [] (Some (VStr "eth0")) (None, None)
           {| if_ifname := Some (VStr "eth0"); if_master := None;
              if_kind := Some (VStr "unknown") |} true
           ltac:(reflexivity) ltac:(reflexivity) ltac:(reflexivity)
           ltac:(exists 7; repeat split; discriminate)
           "unknown");
    try reflexivity; discriminate.
Defined.

(** ** Creation of devices *)

(** A create-link request for a bond, on a kernel that does not create
    bonds: inside the pipe-and-watcher cycle of the decorator, the text
    [+name] is written to the bonding masters file, once, and nothing
    else is done.  The request is consumed when the write succeeds and
    the error of the write is raised otherwise; the cycle is completed
    in both cases.  The name is formatted as it is, so that a request
    without a name writes [+None]. *)
Theorem proxy_newlink_creates_bond
        (X : externals) (sys : os) (p : platform) (caps : capabilities)
        (imsg : nlmsg) (tr : list action) (ev : string) :
  declared_kind (ifinfmsg_decode X (data imsg)) = Ok (Some (VStr "bond")) ->
  create_bond caps = false ->
  RTM_VALUES X (header_type (ifinfmsg_decode X (data imsg))) = Some ev ->
  let name := get_attr (ifinfmsg_decode X (data imsg)) "IFLA_IFNAME" in
  let tr1 := (tr ++ [PipeCreate; ThreadStart ev name])%list in
  let text := "+" ++ py_str_opt name in
  let errno := os_write sys tr1 _BONDING_MASTERS text in
  proxy_newlink X sys p caps imsg tr
  = (if errno =? 0 then Ok Consumed else Raise (OSError errno),
     tr1 ++ [FileWrite _BONDING_MASTERS text errno;
             PipeWrite; ThreadJoin; PipeClose true; PipeClose false])%list.
Proof.
  intros Hkind Hcap Hev name tr1 text errno.
  assert (Hroute : newlink_route caps (Some (VStr "bond")) = ToCreateBond).
  { unfold newlink_route. rewrite Hcap. reflexivity. }
  unfold proxy_newlink. unfold bind at 1. unfold lift at 1.
  rewrite Hkind, Hroute. unfold bind at 1. unfold compat_create_bond.
  rewrite (sync_runs X _ (ifinfmsg_decode X (data imsg)) tr ev Hev).
  fold name. fold tr1. unfold write_file. fold text. fold errno.
  destruct (errno =? 0); cbn [fst snd]; unfold ret;
    rewrite <- !app_assoc; reflexivity.
Qed.

Lemma proxy_newlink_creates_bond_witness :
  proxy_newlink (Demo.X_of Demo.bond0_kind_only) Demo.sys_bond Demo.x86_64
                Demo.legacy Demo.bond0_kind_only []
  = (Ok Consumed,
     [PipeCreate; ThreadStart "RTM_NEWLINK" (Some (VStr "bond0"));
      FileWrite "/sys/class/net/bonding_masters" "+bond0" 0;
      PipeWrite; ThreadJoin; PipeClose true; PipeClose false]).
Proof.
  apply (proxy_newlink_creates_bond
           (Demo.X_of Demo.bond0_kind_only) Demo.sys_bond Demo.x86_64
           Demo.legacy Demo.bond0_kind_only [] "RTM_NEWLINK");
    reflexivity.
Defined.

(** A create-link request for a bridge, on a kernel that does not create
    bridges: inside the cycle of the decorator [brctl addbr name] is
    run, once, and nothing else.  The request is consumed when the
    command exits with 0; a non-zero exit is raised as
    [CalledProcessError], a command that cannot be started as the
    [OSError] of the system; the cycle is completed in every case. *)
Theorem proxy_newlink_creates_bridge
        (X : externals) (sys : os) (p : platform) (caps : capabilities)
        (imsg : nlmsg) (tr : list action) (ev name : string) :
  declared_kind (ifinfmsg_decode X (data imsg)) = Ok (Some (VStr "bridge")) ->
  create_bridge caps = false ->
  RTM_VALUES X (header_type (ifinfmsg_decode X (data imsg))) = Some ev ->
  get_attr (ifinfmsg_decode X (data imsg)) "IFLA_IFNAME" = Some (VStr name) ->
  let tr1 := (tr ++ [PipeCreate; ThreadStart ev (Some (VStr name))])%list in
  let argv := ["brctl"; "addbr"; name] in
  let out := os_spawn sys tr1 argv in
  proxy_newlink X sys p caps imsg tr
  = (match out with
     | Exited rc => if rc =? 0 then Ok Consumed else Raise (CalledProcessError rc)
     | SpawnError errno => Raise (OSError errno)
     end,
     tr1 ++ [Spawn argv out; PipeWrite; ThreadJoin; PipeClose true; PipeClose false])%list.
Proof.
  intros Hkind Hcap Hev Hname tr1 argv out.
  assert (Hroute : newlink_route caps (Some (VStr "bridge")) = ToCreateBridge).
  { unfold newlink_route. rewrite Hcap. reflexivity. }
  unfold proxy_newlink. unfold bind at 1. unfold lift at 1.
  rewrite Hkind, Hroute. unfold bind at 1. unfold compat_create_bridge.
  rewrite (sync_runs X _ (ifinfmsg_decode X (data imsg)) tr ev Hev).
  rewrite Hname. fold tr1.
  unfold bind, lift, argv_item, subprocess_check_call, subprocess_call, bind, ret, raise.
  fold argv. fold out.
  destruct out as [rc|errno]; [destruct (rc =? 0)|]; cbn [fst snd];
    rewrite <- !app_assoc; reflexivity.
Qed.

Lemma proxy_newlink_creates_bridge_witness :
  proxy_newlink (Demo.X_of Cases.br0) Demo.sys_bond Demo.x86_64
                Demo.legacy Cases.br0 []
  = (Ok Consumed,
     [PipeCreate; ThreadStart "RTM_NEWLINK" (Some (VStr "br0"));
      Spawn ["brctl"; "addbr"; "br0"] (Exited 0);
      PipeWrite; ThreadJoin; PipeClose true; PipeClose false]).
Proof.
  apply (proxy_newlink_creates_bridge
           (Demo.X_of Cases.br0) Demo.sys_bond Demo.x86_64
           Demo.legacy Cases.br0 [] "RTM_NEWLINK" "br0");
    reflexivity.
Defined.

(** [manage_team] and [manage_tuntap] check the type of the message
    inside the decorated function.  For a message that is not a
    create-link request they raise, [ValueError] and the not-supported
    [NetlinkError], only after the pipe was made and the watcher thread
    started; the whole cycle of the decorator is run around the check,
    and neither [teamd] nor the tun device is touched. *)
Theorem type_check_runs_inside_decoration
        (X : externals) (sys : os) (p : platform) (msg : nlmsg)
        (tr : list action) (ev : string) :
  RTM_VALUES X (header_type msg) = Some ev ->
  header_type msg <> RTM_NEWLINK ->
  let cycle := [PipeCreate; ThreadStart ev (get_attr msg "IFLA_IFNAME");
                PipeWrite; ThreadJoin; PipeClose true; PipeClose false] in
  manage_team X sys msg tr
  = (Raise (ValueError "wrong command type"), tr ++ cycle)%list /\
  (tun_requests_of (machine p) <> None ->
   manage_tuntap X sys p msg tr
   = (Raise (NetlinkError Errno.EOPNOTSUPP "Unsupported event"), tr ++ cycle)%list).
Proof.
  intros Hev Htype cycle.
  assert (Hne : negb (header_type msg =? RTM_NEWLINK) = true).
  { apply Bool.negb_true_iff, Z.eqb_neq. exact Htype. }
  split.
  - unfold manage_team, map_enoent.
    rewrite (sync_runs X _ msg tr ev Hev).
    unfold manage_team_body. rewrite Hne. unfold raise. cbn [fst snd].
    unfold cycle. rewrite <- app_assoc. reflexivity.
  - intros Harch. unfold manage_tuntap.
    rewrite (sync_runs X _ msg tr ev Hev).
    unfold manage_tuntap_body.
    destruct (tun_requests_of (machine p)) as [req|]; [|contradiction Harch; reflexivity].
    rewrite Hne. unfold raise. cbn [fst snd].
    unfold cycle. rewrite <- app_assoc. reflexivity.
Qed.

Lemma type_check_runs_inside_decoration_witness :
  manage_team Demo.X0 Demo.sys_bond Cases.del_request []
  = (Raise (ValueError "wrong command type"),
     [PipeCreate; ThreadStart "RTM_DELLINK" None;
      PipeWrite; ThreadJoin; PipeClose true; PipeClose false]).
Proof.
  refine (proj1 (type_check_runs_inside_decoration
                   Demo.X0 Demo.sys_bond Demo.x86_64 Cases.del_request []
                   "RTM_DELLINK" _ _)).
  - reflexivity.
  - discriminate.
Defined.

(** ** Settings of a bond or a bridge without a shell *)

(** The settings of a set-link request tell a command that failed from a
    command that could not be started.  An exit code is kept and the
    remaining settings are still written; but when [bash] cannot be
    started for the first setting, the [OSError] of the system leaves
    the loop at once: no other setting is tried, no port operation
    follows, and the request is not forwarded. *)
Theorem proxy_setlink_aborts_without_shell
        (X : externals) (sys : os) (caps : capabilities) (imsg : nlmsg)
        (tr : list action) (ifname : option value) (kind : string)
        (d : value) (pair : attr) (rest : list attr) (errno : Z) :
  fst (setlink_ifname sys (ifinfmsg_decode X (data imsg)) tr) = Ok ifname ->
  setlink_kind_data (ifinfmsg_decode X (data imsg)) = Ok (Some (VStr kind), Some d) ->
  kind = "bond" \/ kind = "bridge" ->
  infodata_pairs d = Ok (pair :: rest) ->
  os_spawn sys tr (set_argv X kind ifname pair) = SpawnError errno ->
  proxy_setlink X sys caps imsg tr
  = (Raise (OSError errno),
     tr ++ [Spawn (set_argv X kind ifname pair) (SpawnError errno)])%list.
Proof.
  intros Hn Hk Hkind Hpairs Hspawn. unfold proxy_setlink, bind, lift, ret.
  pose proof (setlink_ifname_trace sys (ifinfmsg_decode X (data imsg)) tr) as Ht.
  destruct (setlink_ifname sys (ifinfmsg_decode X (data imsg)) tr) as [r0 tr0].
  simpl in Hn, Ht. subst r0 tr0. rewrite Hk. cbn [fst snd].
  assert (Hset : set_stage X sys ifname (Some (VStr kind)) (Some d) tr
                 = (Raise (OSError errno),
                    tr ++ [Spawn (set_argv X kind ifname pair) (SpawnError errno)])%list).
  { unfold set_stage. destruct pair as [cmd v].
    destruct Hkind as [-> | ->];
      [ change (value_is_str (Some (VStr "bond")) "bond") with true
      | change (value_is_str (Some (VStr "bridge")) "bond") with false;
        change (value_is_str (Some (VStr "bridge")) "bridge") with true ];
      cbn [orb]; cbv iota; unfold bind, lift; cbv beta; rewrite Hpairs; cbv beta iota;
      cbn [set_loop]; unfold bind.
    - change (compat_set_bond sys ifname (bond_nla2name X cmd) v tr)
        with (subprocess_call sys (set_argv X "bond" ifname (cmd, v)) tr).
      unfold subprocess_call. rewrite Hspawn. reflexivity.
    - change (compat_set_bridge sys ifname (bridge_nla2name X cmd) v tr)
        with (subprocess_call sys (set_argv X "bridge" ifname (cmd, v)) tr).
      unfold subprocess_call. rewrite Hspawn. reflexivity. }
  rewrite Hset. reflexivity.
Qed.

Lemma proxy_setlink_aborts_without_shell_witness :
  proxy_setlink (Demo.X_of Cases.bond0_two_settings)
                (Cases.sys_with (fun _ => SpawnError Errno.ENOENT) [])
                Demo.legacy Cases.bond0_two_settings []
  = (Raise (OSError Errno.ENOENT),
     [] ++ [Spawn (set_argv (Demo.X_of Cases.bond0_two_settings) "bond"
                            (Some (VStr "bond0")) ("IFLA_BOND_MODE", VInt 1))
                  (SpawnError Errno.ENOENT)])%list.
Proof.
  apply (proxy_setlink_aborts_without_shell
           (Demo.X_of Cases.bond0_two_settings)
           (Cases.sys_with (fun _ => SpawnError Errno.ENOENT) [])
           Demo.legacy Cases.bond0_two_settings [] (Some (VStr "bond0")) "bond"
           (VNla (Some [("IFLA_BOND_MODE", VInt 1); ("IFLA_BOND_MIIMON", VInt 100)]))
           ("IFLA_BOND_MODE", VInt 1) [("IFLA_BOND_MIIMON", VInt 100)] Errno.ENOENT);
    try reflexivity.
  left. reflexivity.
Defined.

(** ** Reading sysfs *)

(** Once the bridge-port file of an interface can be opened,
    [compat_get_master] looks at nothing else: the outcome is the same
    on every file system with that file, whatever it holds under the
    bonding path and elsewhere; and the outcome is a master index or an
    error, never the answer that there is no master. *)
Theorem compat_get_master_bridge_file_first
        (X : externals) (fs fs' : sysfs) (name : option value) (r : read_result) :
  fs_open fs (_BRIDGE_MASTER (py_str_opt name)) = Opened r ->
  fs_open fs' (_BRIDGE_MASTER (py_str_opt name)) = Opened r ->
  compat_get_master X fs name = compat_get_master X fs' name /\
  compat_get_master X fs name <> Ok None.
Proof.
  intros H H'. unfold compat_get_master, first_master_file, open_master_file.
  rewrite H, H'. split; [reflexivity|].
  destruct r as [errno|content]; [|destruct (py_int content)]; discriminate.
Qed.

Lemma compat_get_master_bridge_file_first_witness :
  compat_get_master Demo.X0 Demo.fs_port (Some (VStr "eth0"))
  = compat_get_master Demo.X0 Cases.fs_port_of_bond (Some (VStr "eth0")) /\
  compat_get_master Demo.X0 Demo.fs_port (Some (VStr "eth0")) <> Ok None.
Proof.
  apply (compat_get_master_bridge_file_first
           Demo.X0 Demo.fs_port Cases.fs_port_of_bond (Some (VStr "eth0"))
           (ReadOk ("5" ++ Demo.newline)));
    reflexivity.
Defined.

Lemma read_command_shape fs t nla2name ifname cmd a :
  read_command fs t nla2name ifname cmd = Some a ->
  fst a = cmd /\ exists z, snd a = VInt z.
Proof.
  unfold read_command. intros H.
  destruct (fs_open fs (t (py_str_opt ifname) (nla2name cmd))) as [ | |[errno|content]];
    try discriminate.
  destruct (if String.eqb cmd "IFLA_BOND_MODE"
            then nth_error (py_split content) 1 else Some content) as [text|];
    [|discriminate].
  destruct (py_int text) as [z|]; [|discriminate].
  injection H as <-. split; [reflexivity | exists z; reflexivity].
Qed.

Lemma read_commands_names fs t nla2name ifname nla_map a :
  In a (read_commands fs t nla2name ifname nla_map) ->
  In (fst a) (map fst nla_map) /\ exists z, snd a = VInt z.
Proof.
  induction nla_map as [|[cmd ty] rest IH]; simpl; [contradiction|].
  destruct (read_command fs t nla2name ifname cmd) as [b|] eqn:Hb.
  - intros [<- | Hin].
    + destruct (read_command_shape fs t nla2name ifname cmd b Hb) as [Hf Hz].
      split; [left; symmetry; exact Hf | exact Hz].
    + destruct (IH Hin) as [H1 H2]. split; [right; exact H1 | exact H2].
  - intros Hin. destruct (IH Hin) as [H1 H2]. split; [right; exact H1 | exact H2].
Qed.

(** The loop that reads the current settings of a bond or a bridge from
    sysfs never raises and never invents an attribute: what it collects
    are attributes of the map it goes through, each with an integer
    value, no more of them than the map has, and none twice when the map
    names none twice.  A file that cannot be opened or read, or that
    does not hold a number, only makes the list shorter. *)
Theorem read_commands_within_map
        (fs : sysfs) (t : string -> string -> string) (nla2name : string -> string)
        (ifname : option value) (nla_map : list (string * string)) :
  let commands := read_commands fs t nla2name ifname nla_map in
  (List.length commands <= List.length nla_map)%nat /\
  (forall a, In a commands ->
             In (fst a) (map fst nla_map) /\ exists z, snd a = VInt z) /\
  (NoDup (map fst nla_map) -> NoDup (map fst commands)).
Proof.
  cbv zeta. split; [|split].
  - induction nla_map as [|[cmd ty] rest IH]; simpl; [lia|].
    destruct (read_command fs t nla2name ifname cmd); simpl; lia.
  - intros a. apply read_commands_names.
  - induction nla_map as [|[cmd ty] rest IH]; simpl; intros Hnd; [constructor|].
    inversion Hnd as [|x l Hnot Hrest]; subst.
    destruct (read_command fs t nla2name ifname cmd) as [b|] eqn:Hb.
    + simpl. constructor; [|apply IH; exact Hrest].
      destruct (read_command_shape fs t nla2name ifname cmd b Hb) as [Hf _].
      rewrite Hf. intros Hin. apply in_map_iff in Hin.
      destruct Hin as [a [Ha Hin]].
      apply read_commands_names in Hin. destruct Hin as [Hin _].
      rewrite Ha in Hin. exact (Hnot Hin).
    + apply IH. exact Hrest.
Qed.
